(** * AgentGuard Python SDK: a shallow embedding of [agentguard/__init__.py]

    The development follows the module top to bottom: Python values and
    dictionaries, the data model ([PolicyDecision], [SecuritySignal], [Span],
    [Trace]), the HTTP client ([AgentGuardClient]), the guard itself
    ([AgentGuard]: the [trace] and [span] scopes, [check_tool_access],
    [add_security_signal]), the [SecurityEnricher] with its regular
    expressions, and the [LangfuseExporter].

    Python objects that are shared and mutated in place (spans and traces) live
    in a store and are referred to by location; everything the module asks of
    its environment (uuids, the clock, text renderings, the HTTP transport) is
    collected in a [Runtime] record. *)

From Stdlib Require Import ZArith Ascii String DecimalString List Bool Lia.
From stdpp Require Import base option list strings gmap.

Set Warnings "-register-all".
Open Scope string_scope.
Open Scope list_scope.

(** ** Python values *)

(** The values that travel through JSON payloads, metadata and evidence
    dictionaries.  A [PyDict] keeps insertion order, like a Python [dict];
    its keys are strings, as in every dictionary of the module.  Numbers are
    the integers. *)
Inductive pyval :=
| PyNone
| PyBool (b : bool)
| PyInt (n : Z)
| PyStr (s : string)
| PyList (l : list pyval)
| PyDict (d : list (string * pyval)).

Abbreviation pydict := (list (string * pyval)).

(** [d.get(k)]: the value stored under [k], if any. *)
Fixpoint dict_get {A} (k : string) (d : list (string * A)) : option A :=
  match d with
  | [] => None
  | (k', v) :: d' => if String.eqb k k' then Some v else dict_get k d'
  end.

(** [d.get(k, dflt)]. *)
Definition dict_get_default {A} (k : string) (dflt : A) (d : list (string * A)) : A :=
  match dict_get k d with Some v => v | None => dflt end.

(** [d[k] = v]: overwrite in place when the key exists, append otherwise. *)
Fixpoint dict_set {A} (k : string) (v : A) (d : list (string * A)) : list (string * A) :=
  match d with
  | [] => [(k, v)]
  | (k', v') :: d' =>
      if String.eqb k k' then (k, v) :: d' else (k', v') :: dict_set k v d'
  end.

(** [{**d, k1: v1, ...}]: the entries of [extra] written over a copy of [d]. *)
Definition dict_extend {A} (d extra : list (string * A)) : list (string * A) :=
  fold_left (fun acc kv => dict_set (fst kv) (snd kv) acc) extra d.

(** Truth value of a Python object, as [if x:] and [x or y] test it. *)
Definition truthy (v : pyval) : bool :=
  match v with
  | PyNone => false
  | PyBool b => b
  | PyInt n => negb (n =? 0)%Z
  | PyStr s => negb (String.eqb s "")
  | PyList l => match l with [] => false | _ => true end
  | PyDict d => match d with [] => false | _ => true end
  end.

(** [type(v).__name__]. *)
Definition type_name (v : pyval) : string :=
  match v with
  | PyNone => "NoneType"
  | PyBool _ => "bool"
  | PyInt _ => "int"
  | PyStr _ => "str"
  | PyList _ => "list"
  | PyDict _ => "dict"
  end.

(** [x or {}] for an optional dictionary argument: [None] and the empty
    dictionary both give the empty dictionary. *)
Definition or_empty (d : option pydict) : pydict :=
  match d with
  | Some (kv :: d') => kv :: d'
  | _ => []
  end.

(** ** Exceptions *)

(** A raised exception, as far as the module looks at it: whether it is an
    instance of [Exception] (what [except Exception] catches; task
    cancellation, [KeyboardInterrupt] and [SystemExit] derive from
    [BaseException] only) and the text [str(e)]. *)
Record PyExc := mkExc {
  exc_class : string;
  is_Exception : bool;
  exc_str : string
}.

(** How a block of code ends: it returns a value or raises. *)
Inductive Result (A : Type) :=
| Ret (a : A)
| Raise (e : PyExc).
Arguments Ret {A} a.
Arguments Raise {A} e.

(** ** Enumerations *)

Inductive DecisionType := ALLOW | DENY | WARN | REQUIRE_APPROVAL.

Inductive SignalType :=
| INJECTION_ATTEMPT
| DATA_EXFILTRATION
| TOOL_ABUSE
| PRIVILEGE_ESCALATION
| ANOMALOUS_BEHAVIOR
| POLICY_VIOLATION
| RATE_LIMIT_EXCEEDED.

Definition SignalType_value (t : SignalType) : string :=
  match t with
  | INJECTION_ATTEMPT => "injection_attempt"
  | DATA_EXFILTRATION => "data_exfiltration"
  | TOOL_ABUSE => "tool_abuse"
  | PRIVILEGE_ESCALATION => "privilege_escalation"
  | ANOMALOUS_BEHAVIOR => "anomalous_behavior"
  | POLICY_VIOLATION => "policy_violation"
  | RATE_LIMIT_EXCEEDED => "rate_limit_exceeded"
  end.

(** A [datetime], counted in microseconds; [<=] on [Z] is its order. *)
Definition datetime := Z.

(** ** Data model *)

(** [PolicyDecision].  The dataclass annotates [allow] as [bool] and [reasons]
    as a list of strings, but [pre_invoke] stores whatever the response payload
    holds under these keys, so the fields carry Python values. *)
Module PolicyDecision.
Record t := mk {
    allow : pyval;
    decision : DecisionType;
    reasons : pyval;
    violations : pyval;
    eval_time_us : pyval;
    metadata : pydict
  }.
(** The constructor with its defaults: [PolicyDecision(allow, decision,
    reasons=[])]. *)
Definition make (allow : pyval) (decision : DecisionType) (reasons : pyval) : t :=
    mk allow decision reasons (PyList []) (PyInt 0) [].
End PolicyDecision.

Module SecuritySignal.
Record t := mk {
    id : string;
    type : SignalType;
    severity : string;
    title : string;
    description : string;
    evidence : pydict;
    timestamp : datetime;
    mitigated : bool
  }.
End SecuritySignal.

Module Span.
Record t := mk {
    span_id : string;
    name : string;
    type : string;
    start_time : datetime;
    end_time : option datetime;
    parent_span_id : option string;
    status : string;
    attributes : pydict;
    events : list pyval
  }.
Definition set_status (v : string) (s : t) : t :=
    mk (span_id s) (name s) (type s) (start_time s) (end_time s)
       (parent_span_id s) v (attributes s) (events s).
Definition set_end_time (v : option datetime) (s : t) : t :=
    mk (span_id s) (name s) (type s) (start_time s) v
       (parent_span_id s) (status s) (attributes s) (events s).
Definition set_attributes (v : pydict) (s : t) : t :=
    mk (span_id s) (name s) (type s) (start_time s) (end_time s)
       (parent_span_id s) (status s) v (events s).
End Span.

(** A [Trace] refers to its spans by location: the [Span] objects in
    [trace.spans] are the very objects on the guard's span stack and in the
    hands of the code running inside the [span] scope. *)
Module Trace.
Record t := mk {
    trace_id : string;
    agent_id : string;
    session_id : string;
    user_id : option string;
    start_time : datetime;
    end_time : option datetime;
    status : string;
    spans : list nat;
    security_signals : list SecuritySignal.t;
    metadata : pydict
  }.
Definition set_status (v : string) (x : t) : t :=
    mk (trace_id x) (agent_id x) (session_id x) (user_id x) (start_time x)
       (end_time x) v (spans x) (security_signals x) (metadata x).
Definition set_end_time (v : option datetime) (x : t) : t :=
    mk (trace_id x) (agent_id x) (session_id x) (user_id x) (start_time x)
       v (status x) (spans x) (security_signals x) (metadata x).
Definition set_spans (v : list nat) (x : t) : t :=
    mk (trace_id x) (agent_id x) (session_id x) (user_id x) (start_time x)
       (end_time x) (status x) v (security_signals x) (metadata x).
Definition set_security_signals (v : list SecuritySignal.t) (x : t) : t :=
    mk (trace_id x) (agent_id x) (session_id x) (user_id x) (start_time x)
       (end_time x) (status x) (spans x) v (metadata x).
Definition set_metadata (v : pydict) (x : t) : t :=
    mk (trace_id x) (agent_id x) (session_id x) (user_id x) (start_time x)
       (end_time x) (status x) (spans x) (security_signals x) v.
End Trace.

(** ** The environment *)

(** An HTTP request as the module issues it: [client.post(path, json=...)]. *)
Record Request := mkRequest {
  req_path : string;
  req_json : pydict
}.

(** What came back: the status code, the message [raise_for_status] raises
    with when the status is not a success, and what [response.json()] does. *)
Record Response := mkResponse {
  status_code : Z;
  status_message : string;
  json : Result pyval
}.

(** Everything the module obtains from outside itself.  Calls to the uuid
    generator, the clock and the transport are numbered in the order in which
    they happen. *)
Record Runtime := mkRuntime {
  uuid4 : nat -> string;
  utcnow : nat -> datetime;
  isoformat : datetime -> string;
  repr : pyval -> string;
  total_millis : datetime -> datetime -> Z;
  post : nat -> Request -> Result Response
}.

(** ** The guard and the store *)

(** The attributes of an [AgentGuard] instance.  [_current_trace] and
    [_current_span_stack] are instance attributes; the stack is a Python list
    whose top is its last element. *)
Record AgentGuard := mkGuard {
  agent_id : string;
  enabled : bool;
  fail_open : bool;
  _current_trace : option nat;
  _current_span_stack : list nat
}.

(** [AgentGuard.__init__], with its keyword defaults. *)
Definition AgentGuard_init (agent_id : string)
    (enabled : option bool) (fail_open : option bool) : AgentGuard :=
  mkGuard agent_id (default true enabled) (default false fail_open) None [].

(** The state a run threads along: the guard's attributes, the store of
    [Span] and [Trace] objects (a location is an index; objects are never
    freed), the number of uuids drawn and of clock readings made, and the
    requests sent so far, oldest first. *)
Record State := mkState {
  self : AgentGuard;
  span_store : list Span.t;
  trace_store : list Trace.t;
  uuid_calls : nat;
  clock_calls : nat;
  sent : list Request
}.

Definition set_self (g : AgentGuard) (st : State) : State :=
  mkState g (span_store st) (trace_store st) (uuid_calls st) (clock_calls st) (sent st).
Definition set_span_store (v : list Span.t) (st : State) : State :=
  mkState (self st) v (trace_store st) (uuid_calls st) (clock_calls st) (sent st).
Definition set_trace_store (v : list Trace.t) (st : State) : State :=
  mkState (self st) (span_store st) v (uuid_calls st) (clock_calls st) (sent st).

Definition set_current_trace (v : option nat) (g : AgentGuard) : AgentGuard :=
  mkGuard (agent_id g) (enabled g) (fail_open g) v (_current_span_stack g).
Definition set_span_stack (v : list nat) (g : AgentGuard) : AgentGuard :=
  mkGuard (agent_id g) (enabled g) (fail_open g) (_current_trace g) v.

Definition initial_state (g : AgentGuard) : State := mkState g [] [] 0 0 [].

(** *** A state-and-exception monad *)

Definition M (A : Type) : Type := State -> Result A * State.

Definition ret {A} (a : A) : M A := fun st => (Ret a, st).
Definition raise {A} (e : PyExc) : M A := fun st => (Raise e, st).
Definition bind {A B} (m : M A) (k : A -> M B) : M B :=
  fun st => match m st with
            | (Ret a, st') => k a st'
            | (Raise e, st') => (Raise e, st')
            end.
(** [try: m] as a value: run [m] and hand over how it ended. *)
Definition attempt {A} (m : M A) : M (Result A) :=
  fun st => let (r, st') := m st in (Ret r, st').
(** The converse: end the way [r] says. *)
Definition finish {A} (r : Result A) : M A := fun st => (r, st).
Definition get : M State := fun st => (Ret st, st).
Definition modify (f : State -> State) : M unit := fun st => (Ret tt, f st).

Declare Scope py_scope.
Delimit Scope py_scope with py.
Notation "x <- m ;; k" := (bind m (fun x => k))
  (at level 100, m at next level, right associativity) : py_scope.
Notation "m ;; k" := (bind m (fun _ => k))
  (at level 100, right associativity) : py_scope.
Open Scope py_scope.

Section WithRuntime.
Context (rt : Runtime).

(** [str(uuid.uuid4())]. *)
Definition new_uuid : M string := fun st =>
  (Ret (uuid4 rt (uuid_calls st)),
   mkState (self st) (span_store st) (trace_store st)
           (S (uuid_calls st)) (clock_calls st) (sent st)).

(** [datetime.utcnow()]. *)
Definition now : M datetime := fun st =>
  (Ret (utcnow rt (clock_calls st)),
   mkState (self st) (span_store st) (trace_store st)
           (uuid_calls st) (S (clock_calls st)) (sent st)).

(** [await client.post(path, json=payload)]: the request goes out and the
    transport answers or raises. *)
Definition client_post (path : string) (payload : pydict) : M Response := fun st =>
  let rq := mkRequest path payload in
  (post rt (length (sent st)) rq,
   mkState (self st) (span_store st) (trace_store st)
           (uuid_calls st) (clock_calls st) (sent st ++ [rq])).

(** [response.raise_for_status()]: an [httpx.HTTPStatusError] unless the
    status is a success (2xx). *)
Definition raise_for_status (r : Response) : M unit :=
  if ((200 <=? status_code r) && (status_code r <=? 299))%Z then ret tt
  else raise (mkExc "HTTPStatusError" true (status_message r)).

(** ** AgentGuardClient *)

Definition opt_str (o : option string) : pyval :=
  match o with Some s => PyStr s | None => PyNone end.

Definition opt_time (o : option datetime) : pyval :=
  match o with Some t => PyStr (isoformat rt t) | None => PyNone end.

(** [Span.duration_ms]. *)
Definition duration_ms (s : Span.t) : Z :=
  match Span.end_time s with
  | None => 0
  | Some e => total_millis rt e (Span.start_time s)
  end.

Definition _span_to_dict (span : Span.t) : pydict :=
  [ ("span_id", PyStr (Span.span_id span));
    ("parent_span_id", opt_str (Span.parent_span_id span));
    ("name", PyStr (Span.name span));
    ("type", PyStr (Span.type span));
    ("start_time", PyStr (isoformat rt (Span.start_time span)));
    ("end_time", opt_time (Span.end_time span));
    ("duration_ms", PyInt (duration_ms span));
    ("status", PyStr (Span.status span));
    ("attributes", PyDict (Span.attributes span));
    ("events", PyList (Span.events span)) ].

Definition _signal_to_dict (signal : SecuritySignal.t) : pydict :=
  [ ("id", PyStr (SecuritySignal.id signal));
    ("type", PyStr (SignalType_value (SecuritySignal.type signal)));
    ("severity", PyStr (SecuritySignal.severity signal));
    ("title", PyStr (SecuritySignal.title signal));
    ("description", PyStr (SecuritySignal.description signal));
    ("evidence", PyDict (SecuritySignal.evidence signal));
    ("timestamp", PyStr (isoformat rt (SecuritySignal.timestamp signal)));
    ("mitigated", PyBool (SecuritySignal.mitigated signal)) ].

(** The [Span] objects a list of locations refers to. *)
Definition spans_at (st : State) (locs : list nat) : list Span.t :=
  omap (fun l => span_store st !! l) locs.

(** [AgentGuardClient.ingest_trace]. *)
Definition ingest_trace (trace : Trace.t) : M unit :=
  st <- get ;;
  let payload :=
    [ ("trace_id", PyStr (Trace.trace_id trace));
      ("agent_id", PyStr (Trace.agent_id trace));
      ("session_id", PyStr (Trace.session_id trace));
      ("user_id", opt_str (Trace.user_id trace));
      ("start_time", PyStr (isoformat rt (Trace.start_time trace)));
      ("end_time", opt_time (Trace.end_time trace));
      ("status", PyStr (Trace.status trace));
      ("spans", PyList (map (fun s => PyDict (_span_to_dict s))
                            (spans_at st (Trace.spans trace))));
      ("security_signals",
        PyList (map (fun s => PyDict (_signal_to_dict s)) (Trace.security_signals trace)));
      ("metadata", PyDict (Trace.metadata trace)) ] in
  response <- client_post "/api/v1/observe/traces" payload ;;
  raise_for_status response.

(** [DecisionType(value)]: the member with that value, or [ValueError]. *)
Definition DecisionType_of_value (v : pyval) : M DecisionType :=
  match v with
  | PyStr s =>
      if String.eqb s "allow" then ret ALLOW
      else if String.eqb s "deny" then ret DENY
      else if String.eqb s "warn" then ret WARN
      else if String.eqb s "require_approval" then ret REQUIRE_APPROVAL
      else raise (mkExc "ValueError" true (repr rt v +:+ " is not a valid DecisionType"))
  | _ => raise (mkExc "ValueError" true (repr rt v +:+ " is not a valid DecisionType"))
  end.

(** [data.get(key, dflt)] on whatever [response.json()] returned: only a
    dictionary has a [get]. *)
Definition data_get (data : pyval) (key : string) (dflt : pyval) : M pyval :=
  match data with
  | PyDict d => ret (dict_get_default key dflt d)
  | _ => raise (mkExc "AttributeError" true
                  ("'" +:+ type_name data +:+ "' object has no attribute 'get'"))
  end.

(** [AgentGuardClient.pre_invoke]. *)
Definition pre_invoke (agent_id tool_name : string) (tool_params : pydict)
    (session_id : string) : M PolicyDecision.t :=
  timestamp <- now ;;
  let payload :=
    [ ("agent_id", PyStr agent_id);
      ("tool", PyDict [ ("name", PyStr tool_name); ("parameters", PyDict tool_params) ]);
      ("session_id", PyStr session_id);
      ("timestamp", PyStr (isoformat rt timestamp)) ] in
  response <- client_post "/api/v1/sdk/pre-invoke" payload ;;
  raise_for_status response ;;
  data <- finish (json response) ;;
  allow <- data_get data "allow" (PyBool true) ;;
  decision_value <- data_get data "decision" (PyStr "allow") ;;
  decision <- DecisionType_of_value decision_value ;;
  reasons <- data_get data "reasons" (PyList []) ;;
  ret (PolicyDecision.make allow decision reasons).

(** ** AgentGuard *)

(** [AgentGuard.check_tool_access]. *)
Definition check_tool_access (tool_name : string) (tool_params : option pydict)
    (session_id : option string) : M PolicyDecision.t :=
  st <- get ;;
  if negb (enabled (self st)) then
    ret (PolicyDecision.make (PyBool true) ALLOW (PyList []))
  else
    r <- attempt (
      sid <- match session_id with
             | Some s => if String.eqb s "" then new_uuid else ret s
             | None => new_uuid
             end ;;
      pre_invoke (agent_id (self st)) tool_name (or_empty tool_params) sid) ;;
    match r with
    | Ret d => ret d
    | Raise e =>
        if is_Exception e then
          if fail_open (self st) then
            ret (PolicyDecision.make (PyBool true) WARN
                   (PyList [PyStr ("AgentGuard unavailable: " +:+ exc_str e
                                   +:+ ". Proceeding with fail-open.")]))
          else
            ret (PolicyDecision.make (PyBool false) DENY
                   (PyList [PyStr ("AgentGuard unavailable: " +:+ exc_str e
                                   +:+ ". Blocking due to fail-closed policy.")]))
        else raise e
    end.

(** In-place updates of the object at a location. *)
Definition update_trace (loc : nat) (f : Trace.t -> Trace.t) : M unit :=
  modify (fun st => set_trace_store (alter f loc (trace_store st)) st).

Definition update_span (loc : nat) (f : Span.t -> Span.t) : M unit :=
  modify (fun st => set_span_store (alter f loc (span_store st)) st).

(** *** The [trace] scope

    [AgentGuard.trace] is an [asynccontextmanager]: the code up to [yield]
    runs on entry, the rest on exit, resumed normally or with the exception
    the body raised. *)

(** Entry: build the [Trace] and bind it as current. *)
Definition trace_enter (session_id : string) (user_id : option string)
    (metadata : option pydict) : M nat :=
  trace_id <- new_uuid ;;
  start <- now ;;
  st <- get ;;
  let loc := length (trace_store st) in
  let trace := Trace.mk trace_id (agent_id (self st)) session_id user_id
                        start None "running" [] [] (or_empty metadata) in
  modify (fun st => set_self (set_current_trace (Some loc) (self st))
                      (set_trace_store (trace_store st ++ [trace]) st)) ;;
  ret loc.

(** Exit, given how the body ended. *)
Definition trace_exit (trace : nat) (outcome : Result unit) : M unit :=
  (* try: yield trace; trace.status = "completed" / except Exception as e *)
  match outcome with
  | Ret _ => update_trace trace (Trace.set_status "completed")
  | Raise e =>
      if is_Exception e then
        update_trace trace (Trace.set_status "failed") ;;
        update_trace trace (fun t =>
          Trace.set_metadata (dict_set "error" (PyStr (exc_str e)) (Trace.metadata t)) t)
      else ret tt
  end ;;
  (* finally *)
  t <- now ;;
  update_trace trace (Trace.set_end_time (Some t)) ;;
  modify (fun st => set_self (set_current_trace None (self st)) st) ;;
  st <- get ;;
  sent_ok <- (if enabled (self st) then
                match trace_store st !! trace with
                | Some tr => attempt (ingest_trace tr)
                | None => ret (Ret tt)
                end
              else ret (Ret tt)) ;;
  match sent_ok with
  | Raise e' => if is_Exception e' then finish outcome else raise e'
  | Ret _ => finish outcome
  end.

(** *** The [span] scope *)

(** Entry: link to the top of the stack, push, and record in the current
    trace if there is one. *)
Definition span_enter (name span_type : string) (attributes : option pydict) : M nat :=
  st <- get ;;
  let parent_span_id :=
    match last (_current_span_stack (self st)) with
    | Some top => Span.span_id <$> span_store st !! top
    | None => None
    end in
  span_id <- new_uuid ;;
  start <- now ;;
  st <- get ;;
  let loc := length (span_store st) in
  let span := Span.mk span_id name span_type start None parent_span_id
                      "running" (or_empty attributes) [] in
  modify (fun st => set_span_store (span_store st ++ [span]) st) ;;
  modify (fun st => set_self (set_span_stack (_current_span_stack (self st) ++ [loc])
                                             (self st)) st) ;;
  match _current_trace (self st) with
  | Some tr => update_trace tr (fun t => Trace.set_spans (Trace.spans t ++ [loc]) t)
  | None => ret tt
  end ;;
  ret loc.

(** Exit, given how the body ended.  [list.pop()] takes the last element
    whatever it is, and raises [IndexError] on an empty list. *)
Definition span_exit (span : nat) (outcome : Result unit) : M unit :=
  match outcome with
  | Ret _ => update_span span (Span.set_status "completed")
  | Raise e =>
      if is_Exception e then
        update_span span (Span.set_status "error") ;;
        update_span span (fun s =>
          Span.set_attributes (dict_set "error" (PyStr (exc_str e)) (Span.attributes s)) s)
      else ret tt
  end ;;
  (* finally *)
  t <- now ;;
  update_span span (Span.set_end_time (Some t)) ;;
  st <- get ;;
  match _current_span_stack (self st) with
  | [] => raise (mkExc "IndexError" true "pop from empty list")
  | stack => modify (fun st => set_self (set_span_stack (removelast stack) (self st)) st)
  end ;;
  finish outcome.

(** [AgentGuard.add_security_signal]. *)
Definition add_security_signal (signal_type : SignalType)
    (severity title description : string) (evidence : option pydict) : M unit :=
  st <- get ;;
  match _current_trace (self st) with
  | None => ret tt
  | Some tr =>
      id <- new_uuid ;;
      timestamp <- now ;;
      let signal := SecuritySignal.mk id signal_type severity title description
                                      (or_empty evidence) timestamp false in
      update_trace tr (fun t =>
        Trace.set_security_signals (Trace.security_signals t ++ [signal]) t)
  end.

(** *** Code that uses the guard

    What one task does with a guard: scopes are entered and left by
    [async with], so they nest. *)
Inductive Prog :=
| PSkip
| PSeq (p q : Prog)
| PRaise (e : PyExc)
| PTry (p handler : Prog)
| PWithTrace (session_id : string) (user_id : option string)
             (metadata : option pydict) (body : Prog)
| PWithSpan (name span_type : string) (attributes : option pydict) (body : Prog)
| PAddSignal (signal_type : SignalType) (severity title description : string)
             (evidence : option pydict)
| PCheckTool (tool_name : string) (tool_params : option pydict)
             (session_id : option string).

Fixpoint run (p : Prog) : M unit :=
  match p with
  | PSkip => ret tt
  | PSeq p q => run p ;; run q
  | PRaise e => raise e
  | PTry p handler =>
      r <- attempt (run p) ;;
      match r with
      | Ret _ => ret tt
      | Raise e => if is_Exception e then run handler else raise e
      end
  | PWithTrace session_id user_id metadata body =>
      trace <- trace_enter session_id user_id metadata ;;
      r <- attempt (run body) ;;
      trace_exit trace r
  | PWithSpan name span_type attributes body =>
      span <- span_enter name span_type attributes ;;
      r <- attempt (run body) ;;
      span_exit span r
  | PAddSignal signal_type severity title description evidence =>
      add_security_signal signal_type severity title description evidence
  | PCheckTool tool_name tool_params session_id =>
      check_tool_access tool_name tool_params session_id ;; ret tt
  end.

(** *** Several tasks on one guard

    Between two [await]s a task runs alone, and neither half of a scope
    awaits before its bookkeeping is done; so what several tasks sharing a
    guard do to it is a sequence of whole calls, in the order the event loop
    runs them. *)
Inductive Call :=
| CallTraceEnter (session_id : string) (user_id : option string)
                 (metadata : option pydict)
| CallTraceExit (trace : nat) (outcome : Result unit)
| CallSpanEnter (name span_type : string) (attributes : option pydict)
| CallSpanExit (span : nat) (outcome : Result unit)
| CallAddSignal (signal_type : SignalType) (severity title description : string)
                (evidence : option pydict).

Definition call (c : Call) : M unit :=
  match c with
  | CallTraceEnter session_id user_id metadata =>
      trace_enter session_id user_id metadata ;; ret tt
  | CallTraceExit trace outcome => trace_exit trace outcome
  | CallSpanEnter name span_type attributes =>
      span_enter name span_type attributes ;; ret tt
  | CallSpanExit span outcome => span_exit span outcome
  | CallAddSignal signal_type severity title description evidence =>
      add_security_signal signal_type severity title description evidence
  end.

(** The state after a sequence of calls; an exception a call raises goes to
    the task that made the call and leaves the guard as the call left it. *)
Definition calls (cs : list Call) (st : State) : State :=
  fold_left (fun st c => snd (call c st)) cs st.

End WithRuntime.

(** ** Regular expressions

    The patterns of [SecurityEnricher], compiled with [re.IGNORECASE].  Text
    is ASCII: a character is a code point below 128, and the character classes
    are those of Python's [re] on that range.  Every quantifier in the
    patterns applies to a single character or class, which is all [Rep]
    offers. *)

Definition code (c : ascii) : N := N_of_ascii c.

(** A text within that range. *)
Definition ascii_text (s : string) : Prop :=
  forallb (fun c => (code c <? 128)%N) (list_ascii_of_string s) = true.

Definition in_range (lo hi c : ascii) : bool :=
  ((code lo <=? code c) && (code c <=? code hi))%N.

Definition lower (c : ascii) : ascii :=
  if in_range "A" "Z" c then ascii_of_N (code c + 32) else c.

Definition upper (c : ascii) : ascii :=
  if in_range "a" "z" c then ascii_of_N (code c - 32) else c.

(** [str.upper()]. *)
Fixpoint str_upper (s : string) : string :=
  match s with
  | EmptyString => EmptyString
  | String c s' => String (upper c) (str_upper s')
  end.

(** [\d], [\s] and [\w]. *)
Definition is_digit (c : ascii) : bool := in_range "0" "9" c.

Definition is_space (c : ascii) : bool :=
  ((9 <=? code c) && (code c <=? 13) || (28 <=? code c) && (code c <=? 32))%N.

Definition is_word (c : ascii) : bool :=
  in_range "a" "z" c || in_range "A" "Z" c || is_digit c || Ascii.eqb c "_".

(** A literal character, and a bracketed class, under [IGNORECASE]. *)
Definition ichar (c : ascii) : ascii -> bool :=
  fun x => Ascii.eqb (lower x) (lower c).

Definition iclass (cs : ascii -> bool) : ascii -> bool :=
  fun x => cs x || cs (lower x) || cs (upper x).

Definition one_of (s : string) : ascii -> bool :=
  fun x => existsb (Ascii.eqb x) (list_ascii_of_string s).

Inductive Regex :=
| Eps
| Chr (cs : ascii -> bool)
| Rep (cs : ascii -> bool) (lo : nat) (hi : option nat)
| Cat (r1 r2 : Regex)
| Alt (r1 r2 : Regex)
| WordBoundary.

(** Between [lo] and [hi] characters of [cs], then the rest of the pattern
    [k].  [prev] is the character before the current position, if any. *)
Fixpoint rep_match (cs : ascii -> bool) (lo : nat) (hi : option nat)
    (k : option ascii -> string -> bool) (prev : option ascii) (s : string) : bool :=
  if match lo with O => k prev s | S _ => false end then true
  else match s with
       | EmptyString => false
       | String c s' =>
           match hi with
           | Some O => false
           | _ =>
               if cs c
               then rep_match cs (Nat.pred lo) (Nat.pred <$> hi) k (Some c) s'
               else false
           end
       end.

Definition at_boundary (prev : option ascii) (s : string) : bool :=
  xorb (match prev with Some c => is_word c | None => false end)
       (match s with String c _ => is_word c | EmptyString => false end).

(** Does [r], followed by [k], match at the start of [s]? *)
Fixpoint rmatch (r : Regex) (k : option ascii -> string -> bool)
    (prev : option ascii) (s : string) : bool :=
  match r with
  | Eps => k prev s
  | Chr cs =>
      match s with
      | String c s' => if cs c then k (Some c) s' else false
      | EmptyString => false
      end
  | Rep cs lo hi => rep_match cs lo hi k prev s
  | Cat r1 r2 => rmatch r1 (rmatch r2 k) prev s
  | Alt r1 r2 => if rmatch r1 k prev s then true else rmatch r2 k prev s
  | WordBoundary => if at_boundary prev s then k prev s else false
  end.

Fixpoint search_from (r : Regex) (prev : option ascii) (s : string) : bool :=
  if rmatch r (fun _ _ => true) prev s then true
  else match s with
       | EmptyString => false
       | String c s' => search_from r (Some c) s'
       end.

(** [pattern.search(s)] as a truth value: is there a match anywhere? *)
Definition search (r : Regex) (s : string) : bool := search_from r None s.

(** *** What matching means

    The matcher above tries the alternatives in the order a backtracking
    engine does; whether there is a match does not depend on that order, and
    is what the relation below says. *)

(** [n] characters of [cs] in a row. *)
Inductive repeats (cs : ascii -> bool)
  : nat -> option ascii -> string -> option ascii -> string -> Prop :=
| repeats_O prev s : repeats cs 0 prev s prev s
| repeats_S n prev c s prev' s' :
    cs c = true -> repeats cs n (Some c) s prev' s' ->
    repeats cs (S n) prev (String c s) prev' s'.

(** [matches r prev s prev' s']: [r] matches a stretch of text that starts
    at [s], with [prev] the character before it, and is followed by [s'],
    [prev'] being the character before [s']. *)
Inductive matches : Regex -> option ascii -> string -> option ascii -> string -> Prop :=
| matches_Eps prev s : matches Eps prev s prev s
| matches_Chr cs prev c s : cs c = true -> matches (Chr cs) prev (String c s) (Some c) s
| matches_Rep cs lo hi n prev s prev' s' :
    lo <= n -> (forall h, hi = Some h -> n <= h) ->
    repeats cs n prev s prev' s' ->
    matches (Rep cs lo hi) prev s prev' s'
| matches_Cat r1 r2 prev s prev1 s1 prev' s' :
    matches r1 prev s prev1 s1 -> matches r2 prev1 s1 prev' s' ->
    matches (Cat r1 r2) prev s prev' s'
| matches_Alt_l r1 r2 prev s prev' s' :
    matches r1 prev s prev' s' -> matches (Alt r1 r2) prev s prev' s'
| matches_Alt_r r1 r2 prev s prev' s' :
    matches r2 prev s prev' s' -> matches (Alt r1 r2) prev s prev' s'
| matches_WordBoundary prev s :
    at_boundary prev s = true -> matches WordBoundary prev s prev s.

(** The positions of a text: the character before each one, and the text
    from there on. *)
Fixpoint positions (prev : option ascii) (s : string) : list (option ascii * string) :=
  (prev, s) :: match s with
               | EmptyString => []
               | String c s' => positions (Some c) s'
               end.

(** Pattern syntax. *)
Fixpoint lit (s : string) : Regex :=
  match s with
  | EmptyString => Eps
  | String c s' => Cat (Chr (ichar c)) (lit s')
  end.

Fixpoint seq (rs : list Regex) : Regex :=
  match rs with
  | [] => Eps
  | [r] => r
  | r :: rs' => Cat r (seq rs')
  end.

Fixpoint alts (rs : list Regex) : Regex :=
  match rs with
  | [] => Chr (fun _ => false)
  | [r] => r
  | r :: rs' => Alt r (alts rs')
  end.

Definition ws1 : Regex := Rep is_space 1 None.
Definition ws0 : Regex := Rep is_space 0 None.
Definition opt (cs : ascii -> bool) : Regex := Rep cs 0 (Some 1).
Definition digits (n : nat) : Regex := Rep is_digit n (Some n).

(** ** SecurityEnricher *)

(** A compiled pattern: its source text ([pattern.pattern]) and what it
    matches. *)
Record Pattern := mkPattern {
  pattern : string;
  regex : Regex
}.

Definition alnum (c : ascii) : bool :=
  in_range "a" "z" c || in_range "A" "Z" c || in_range "0" "9" c.

Definition INJECTION_PATTERNS : list Pattern :=
  [ mkPattern "ignore\s+(previous|all|above)\s+(instructions?|prompts?)"
      (seq [lit "ignore"; ws1; alts [lit "previous"; lit "all"; lit "above"]; ws1;
            alts [seq [lit "instruction"; opt (ichar "s")];
                  seq [lit "prompt"; opt (ichar "s")]]]);
    mkPattern "disregard\s+(your|all|previous)\s+(rules?|instructions?)"
      (seq [lit "disregard"; ws1; alts [lit "your"; lit "all"; lit "previous"]; ws1;
            alts [seq [lit "rule"; opt (ichar "s")];
                  seq [lit "instruction"; opt (ichar "s")]]]);
    mkPattern "you\s+are\s+now\s+(a|an|in)"
      (seq [lit "you"; ws1; lit "are"; ws1; lit "now"; ws1;
            alts [lit "a"; lit "an"; lit "in"]]);
    mkPattern "pretend\s+(you're?|to\s+be)"
      (seq [lit "pretend"; ws1;
            alts [seq [lit "you'r"; opt (ichar "e")]; seq [lit "to"; ws1; lit "be"]]]);
    mkPattern "roleplay\s+as" (seq [lit "roleplay"; ws1; lit "as"]);
    mkPattern "jailbreak" (lit "jailbreak");
    mkPattern "DAN\s+mode" (seq [lit "DAN"; ws1; lit "mode"]);
    mkPattern "\[system\]|\[SYSTEM\]" (alts [lit "[system]"; lit "[SYSTEM]"]);
    mkPattern "```\s*(system|assistant)"
      (seq [lit "```"; ws0; alts [lit "system"; lit "assistant"]]) ].

(** [PII_PATTERNS], in the order of the dictionary literal. *)
Definition PII_PATTERNS : list (string * Pattern) :=
  [ ("ssn",
     mkPattern "\b\d{3}-\d{2}-\d{4}\b"
       (seq [WordBoundary; digits 3; lit "-"; digits 2; lit "-"; digits 4; WordBoundary]));
    ("credit_card",
     mkPattern "\b\d{4}[\s-]?\d{4}[\s-]?\d{4}[\s-]?\d{4}\b"
       (let sep := opt (fun c => is_space c || Ascii.eqb c "-") in
        seq [WordBoundary; digits 4; sep; digits 4; sep; digits 4; sep; digits 4;
             WordBoundary]));
    ("email",
     mkPattern "\b[A-Za-z0-9._%+-]+@[A-Za-z0-9.-]+\.[A-Z|a-z]{2,}\b"
       (seq [WordBoundary;
             Rep (iclass (fun c => alnum c || one_of "._%+-" c)) 1 None;
             lit "@";
             Rep (iclass (fun c => alnum c || one_of ".-" c)) 1 None;
             lit ".";
             Rep (iclass (fun c => in_range "A" "Z" c || Ascii.eqb c "|"
                                   || in_range "a" "z" c)) 2 None;
             WordBoundary]));
    ("phone",
     mkPattern "\b\d{3}[-.]?\d{3}[-.]?\d{4}\b"
       (let sep := opt (one_of "-.") in
        seq [WordBoundary; digits 3; sep; digits 3; sep; digits 4; WordBoundary]));
    ("api_key",
     mkPattern "\b(sk-|api[_-]?key|bearer\s+)[a-zA-Z0-9]{20,}\b"
       (seq [WordBoundary;
             alts [lit "sk-";
                   seq [lit "api"; opt (one_of "_-"); lit "key"];
                   seq [lit "bearer"; ws1]];
             Rep (iclass alnum) 20 None;
             WordBoundary])) ].

(** [s[:n]]. *)
Definition prefix (n : nat) (s : string) : string := String.substring 0 n s.

Section Enricher.
Context (rt : Runtime).

(** The first loop of [analyze_prompt]: the first pattern that matches
    appends its signal and ends the loop. *)
Fixpoint scan_injection (patterns : list Pattern) (prompt : string)
    (signals : list SecuritySignal.t) : M (list SecuritySignal.t) :=
  match patterns with
  | [] => ret signals
  | p :: rest =>
      if search (regex p) prompt then
        id <- new_uuid rt ;;
        timestamp <- now rt ;;
        ret (signals ++
          [SecuritySignal.mk id INJECTION_ATTEMPT "high"
             "Potential Prompt Injection Detected"
             ("Pattern matched: " +:+ pattern p)
             [ ("prompt_snippet", PyStr (prefix 200 prompt));
               ("pattern", PyStr (pattern p)) ]
             timestamp false])%list
      else scan_injection rest prompt signals
  end.

(** The second loop: every PII category whose pattern matches appends one
    signal. *)
Fixpoint scan_pii (patterns : list (string * Pattern)) (prompt : string)
    (signals : list SecuritySignal.t) : M (list SecuritySignal.t) :=
  match patterns with
  | [] => ret signals
  | (pii_type, p) :: rest =>
      if search (regex p) prompt then
        id <- new_uuid rt ;;
        timestamp <- now rt ;;
        scan_pii rest prompt (signals ++
          [SecuritySignal.mk id DATA_EXFILTRATION "medium"
             ("Potential " +:+ str_upper pii_type +:+ " in Prompt")
             ("Detected " +:+ pii_type +:+ " pattern in user input")
             [ ("pii_type", PyStr pii_type) ]
             timestamp false])%list
      else scan_pii rest prompt signals
  end.

(** [SecurityEnricher.analyze_prompt]. *)
Definition analyze_prompt (prompt : string) : M (list SecuritySignal.t) :=
  signals <- scan_injection INJECTION_PATTERNS prompt [] ;;
  scan_pii PII_PATTERNS prompt signals.

End Enricher.

(** ** LangfuseExporter *)

Definition __version__ : string := "0.1.0".

(** [for x in l: await f(x)]: the first call that raises ends the loop. *)
Fixpoint for_each {A} (f : A -> M unit) (l : list A) : M unit :=
  match l with
  | [] => ret tt
  | x :: l' => f x ;; for_each f l'
  end.

Section Exporter.
Context (rt : Runtime).

(** The observation a span is exported as. *)
Definition span_payload (trace_id : string) (span : Span.t) : pydict :=
  let observation_type :=
    if String.eqb (Span.type span) "llm" then "generation" else "span" in
  let payload :=
    [ ("id", PyStr (Span.span_id span));
      ("traceId", PyStr trace_id);
      ("type", PyStr observation_type);
      ("name", PyStr (Span.name span));
      ("parentObservationId", opt_str (Span.parent_span_id span));
      ("startTime", PyStr (isoformat rt (Span.start_time span)));
      ("endTime", opt_time rt (Span.end_time span));
      ("metadata", PyDict (Span.attributes span));
      ("level", PyStr (if String.eqb (Span.status span) "error"
                       then "ERROR" else "DEFAULT")) ] in
  if String.eqb (Span.type span) "llm"
     && truthy (dict_get_default "model" PyNone (Span.attributes span))
  then
    dict_set "completionTokens"
      (dict_get_default "completion_tokens" PyNone (Span.attributes span))
      (dict_set "promptTokens"
         (dict_get_default "prompt_tokens" PyNone (Span.attributes span))
         (dict_set "model"
            (dict_get_default "model" PyNone (Span.attributes span)) payload))
  else payload.

(** [LangfuseExporter._export_span]. *)
Definition _export_span (trace_id : string) (span : Span.t) : M unit :=
  response <- client_post rt "/api/public/observations" (span_payload trace_id span) ;;
  raise_for_status response.

Definition signal_payload (trace_id : string) (signal : SecuritySignal.t) : pydict :=
  [ ("id", PyStr (SecuritySignal.id signal));
    ("traceId", PyStr trace_id);
    ("type", PyStr "event");
    ("name", PyStr ("security:" +:+ SignalType_value (SecuritySignal.type signal)));
    ("metadata", PyDict
       [ ("severity", PyStr (SecuritySignal.severity signal));
         ("title", PyStr (SecuritySignal.title signal));
         ("description", PyStr (SecuritySignal.description signal));
         ("evidence", PyDict (SecuritySignal.evidence signal));
         ("mitigated", PyBool (SecuritySignal.mitigated signal)) ]);
    ("level", PyStr (if String.eqb (SecuritySignal.severity signal) "critical"
                        || String.eqb (SecuritySignal.severity signal) "high"
                     then "ERROR" else "WARNING")) ].

(** [LangfuseExporter._export_security_signal]. *)
Definition _export_security_signal (trace_id : string) (signal : SecuritySignal.t)
    : M unit :=
  response <- client_post rt "/api/public/observations" (signal_payload trace_id signal) ;;
  raise_for_status response.

Definition trace_payload (trace : Trace.t) : pydict :=
  [ ("id", PyStr (Trace.trace_id trace));
    ("name", PyStr ("agent-" +:+ Trace.agent_id trace));
    ("userId", opt_str (Trace.user_id trace));
    ("sessionId", PyStr (Trace.session_id trace));
    ("metadata", PyDict
       (dict_extend (Trace.metadata trace)
          [ ("agentguard_version", PyStr __version__);
            ("security_signals_count",
             PyInt (Z.of_nat (length (Trace.security_signals trace)))) ]));
    ("input", dict_get_default "input" PyNone (Trace.metadata trace));
    ("output", dict_get_default "output" PyNone (Trace.metadata trace)) ].

(** [LangfuseExporter.export_trace]. *)
Definition export_trace (trace : Trace.t) : M unit :=
  response <- client_post rt "/api/public/traces" (trace_payload trace) ;;
  raise_for_status response ;;
  st <- get ;;
  for_each (_export_span (Trace.trace_id trace)) (spans_at st (Trace.spans trace)) ;;
  for_each (_export_security_signal (Trace.trace_id trace)) (Trace.security_signals trace).

End Exporter.

(** ** Vocabulary for the statements *)

(** The transport's answer to a request counts as a failure when it raised an
    [Exception] (connection errors and timeouts are [httpx] errors, which
    derive from it) or came back with a status other than 2xx. *)
Definition request_fails (o : Result Response) : bool :=
  match o with
  | Raise e => is_Exception e
  | Ret r => negb ((200 <=? status_code r) && (status_code r <=? 299))%Z
  end.

(** The text of that failure: [str(e)] of the exception that reaches
    [check_tool_access]. *)
Definition failure_text (o : Result Response) : string :=
  match o with
  | Raise e => exc_str e
  | Ret r => status_message r
  end.

(** The transport answered with a success status and a JSON body. *)
Definition answers (o : Result Response) (data : pyval) : Prop :=
  exists r, o = Ret r
    /\ ((200 <=? status_code r) && (status_code r <=? 299))%Z = true
    /\ json r = Ret data.

(** The values of the [DecisionType] members. *)
Definition known_decision (v : pyval) : option DecisionType :=
  match v with
  | PyStr s =>
      if String.eqb s "allow" then Some ALLOW
      else if String.eqb s "deny" then Some DENY
      else if String.eqb s "warn" then Some WARN
      else if String.eqb s "require_approval" then Some REQUIRE_APPROVAL
      else None
  | _ => None
  end.

(** The decision [check_tool_access] falls back to when the policy service
    cannot be consulted, [text] being the text of the failure. *)
Definition fallback_decision (g : AgentGuard) (text : string) : PolicyDecision.t :=
  if fail_open g then
    PolicyDecision.make (PyBool true) WARN
      (PyList [PyStr ("AgentGuard unavailable: " +:+ text
                      +:+ ". Proceeding with fail-open.")])
  else
    PolicyDecision.make (PyBool false) DENY
      (PyList [PyStr ("AgentGuard unavailable: " +:+ text
                      +:+ ". Blocking due to fail-closed policy.")]).


(** What leaving a [span] scope does to the [Span] object, [t] being the
    clock reading taken in the [finally] block. *)
Definition close_span (outcome : Result unit) (t : datetime) (s : Span.t) : Span.t :=
  Span.set_end_time (Some t)
    match outcome with
    | Ret _ => Span.set_status "completed" s
    | Raise e =>
        if is_Exception e then
          Span.set_attributes (dict_set "error" (PyStr (exc_str e)) (Span.attributes s))
            (Span.set_status "error" s)
        else s
    end.

(** The same for a [Trace]. *)
Definition close_trace (outcome : Result unit) (t : datetime) (x : Trace.t) : Trace.t :=
  Trace.set_end_time (Some t)
    match outcome with
    | Ret _ => Trace.set_status "completed" x
    | Raise e =>
        if is_Exception e then
          Trace.set_metadata (dict_set "error" (PyStr (exc_str e)) (Trace.metadata x))
            (Trace.set_status "failed" x)
        else x
    end.

Definition with_sent (st : State) (v : list Request) : State :=
  mkState (self st) (span_store st) (trace_store st) (uuid_calls st) (clock_calls st) v.

(** A computation that leaves the state as it found it. *)
Definition stateless {A} (m : M A) : Prop := forall st, snd (m st) = st.

(** [st'] differs from [st] in the counters and the requests sent only. *)
Definition same_objects (st st' : State) : Prop :=
  self st' = self st /\ span_store st' = span_store st
  /\ trace_store st' = trace_store st /\ clock_calls st <= clock_calls st'.

(** Two versions of a trace that differ in the recorded spans and signals
    at most. *)
Definition trace_frame (x y : Trace.t) : Prop :=
  Trace.trace_id y = Trace.trace_id x /\ Trace.agent_id y = Trace.agent_id x
  /\ Trace.session_id y = Trace.session_id x /\ Trace.user_id y = Trace.user_id x
  /\ Trace.start_time y = Trace.start_time x /\ Trace.end_time y = Trace.end_time x
  /\ Trace.status y = Trace.status x /\ Trace.metadata y = Trace.metadata x.

(** What code running inside a scope leaves alone: the guard's configuration,
    the spans that existed before, and of the traces that existed before
    everything but their lists of spans and signals.  The clock only moves
    forward. *)
Record extends (st st' : State) : Prop := mk_extends {
  ext_agent_id : agent_id (self st') = agent_id (self st);
  ext_enabled : enabled (self st') = enabled (self st);
  ext_fail_open : fail_open (self st') = fail_open (self st);
  ext_spans : forall loc, loc < length (span_store st) ->
                span_store st' !! loc = span_store st !! loc;
  ext_spans_len : length (span_store st) <= length (span_store st');
  ext_traces : forall loc x, trace_store st !! loc = Some x ->
                 exists y, trace_store st' !! loc = Some y /\ trace_frame x y;
  ext_traces_len : length (trace_store st) <= length (trace_store st');
  ext_clock : clock_calls st <= clock_calls st'
}.

(** Every span a trace lists is in the store. *)
Definition spans_in_store (st : State) : Prop :=
  forall t x l, trace_store st !! t = Some x -> l ∈ Trace.spans x ->
    l < length (span_store st).

(** No span is listed by two traces. *)
Definition spans_disjoint (st : State) : Prop :=
  forall t1 t2 x1 x2 l, t1 <> t2 ->
    trace_store st !! t1 = Some x1 -> trace_store st !! t2 = Some x2 ->
    l ∈ Trace.spans x1 -> l ∉ Trace.spans x2.

(** The span list of the trace at [t] after one call, [before] being what it
    was: the entry of a [span] scope made while [t] is the guard's current
    trace appends the span just created; nothing else changes the list. *)
Definition span_list_after (c : Call) (st : State) (t : nat) (before : list nat) : list nat :=
  match c with
  | CallSpanEnter _ _ _ =>
      match _current_trace (self st) with
      | Some current => if Nat.eqb current t then before ++ [length (span_store st)] else before
      | None => before
      end
  | _ => before
  end.

(** The guard's [_current_trace] after a sequence of calls, [traces] being
    the number of traces begun so far and [current] the binding before: the
    entry of a [trace] scope binds the new trace, the exit of any [trace]
    scope clears the binding, and nothing else touches it. *)
Fixpoint current_trace_after (cs : list Call) (traces : nat) (current : option nat)
    : option nat :=
  match cs with
  | [] => current
  | CallTraceEnter _ _ _ :: cs' => current_trace_after cs' (S traces) (Some traces)
  | CallTraceExit _ _ :: cs' => current_trace_after cs' traces None
  | _ :: cs' => current_trace_after cs' traces current
  end.

(** *** The reading of the specification: one context per invocation

    The specification wants the current trace and the span stack to belong to
    the invocation, not to the guard.  In that reading every invocation (a
    number names it) has a pair of its own, which its calls work on. *)
Definition per_invocation_call (rt : Runtime) (invocation : nat) (c : Call)
    (s : gmap nat (option nat * list nat) * State) : gmap nat (option nat * list nat) * State :=
  let (contexts, st) := s in
  let context := default (None, []) (contexts !! invocation) in
  let st_in :=
    set_self (set_span_stack (snd context) (set_current_trace (fst context) (self st))) st in
  let st_out := snd (call rt c st_in) in
  (<[invocation := (_current_trace (self st_out), _current_span_stack (self st_out))]> contexts,
   st_out).

Definition per_invocation_calls (rt : Runtime) (cs : list (nat * Call))
    (s : gmap nat (option nat * list nat) * State) : gmap nat (option nat * list nat) * State :=
  fold_left (fun s ic => per_invocation_call rt (fst ic) (snd ic) s) cs s.

(** Two tasks on one guard.  The first enters its trace, the second enters
    its own; the first opens and closes a span; the second leaves its
    trace. *)
Definition second_task_left : list Call :=
  [ CallTraceEnter "session-1" None None;
    CallTraceEnter "session-2" None None;
    CallSpanEnter "lookup" "tool" None;
    CallSpanExit 0 (Ret tt);
    CallTraceExit 1 (Ret tt) ].

(** Two invocations on one guard: the first enters its trace, the second
    enters its own, then the first opens a span. *)
Definition two_invocations : list (nat * Call) :=
  [ (1, CallTraceEnter "session-1" None None);
    (2, CallTraceEnter "session-2" None None);
    (1, CallSpanEnter "lookup" "tool" None) ].

(** A signal without its id and timestamp. *)
Definition signal_content (s : SecuritySignal.t)
    : SignalType * string * string * string * pydict * bool :=
  (SecuritySignal.type s, SecuritySignal.severity s, SecuritySignal.title s,
   SecuritySignal.description s, SecuritySignal.evidence s, SecuritySignal.mitigated s).




(** The request a span, and a signal, is exported with. *)
Definition span_request (rt : Runtime) (trace_id : string) (span : Span.t) : Request :=
  mkRequest "/api/public/observations" (span_payload rt trace_id span).

Definition signal_request (trace_id : string) (signal : SecuritySignal.t) : Request :=
  mkRequest "/api/public/observations" (signal_payload trace_id signal).

(** The requests of a complete export, in order. *)
Definition export_requests (rt : Runtime) (st : State) (trace : Trace.t) : list Request :=
  mkRequest "/api/public/traces" (trace_payload trace)
  :: map (span_request rt (Trace.trace_id trace)) (spans_at st (Trace.spans trace))
  ++ map (signal_request (Trace.trace_id trace)) (Trace.security_signals trace).

(** Every request is answered with a success status. *)
Definition always_succeeds (rt : Runtime) : Prop :=
  forall n rq, exists r,
    post rt n rq = Ret r /\ ((200 <=? status_code r) && (status_code r <=? 299))%Z = true.

(** ** A runtime to compute with *)

(** A number in decimal. *)
Definition decimal (z : Z) : string := NilZero.string_of_int (Z.to_int z).

(** [repr], for values whose strings need no escaping. *)
Fixpoint simple_repr (v : pyval) : string :=
  match v with
  | PyNone => "None"
  | PyBool b => if b then "True" else "False"
  | PyInt n => decimal n
  | PyStr s => "'" +:+ s +:+ "'"
  | PyList l =>
      "[" +:+ (fix items (l : list pyval) : string :=
                 match l with
                 | [] => ""
                 | [x] => simple_repr x
                 | x :: l' => simple_repr x +:+ ", " +:+ items l'
                 end) l +:+ "]"
  | PyDict d =>
      "{" +:+ (fix items (d : list (string * pyval)) : string :=
                 match d with
                 | [] => ""
                 | [(k, x)] => "'" +:+ k +:+ "': " +:+ simple_repr x
                 | (k, x) :: d' => "'" +:+ k +:+ "': " +:+ simple_repr x +:+ ", " +:+ items d'
                 end) d +:+ "}"
  end.

(** Distinct uuids, a clock that ticks one millisecond per reading, and a
    transport that behaves as [transport] says. *)
Definition sample_runtime (transport : nat -> Request -> Result Response) : Runtime :=
  mkRuntime (fun n => "uuid-" +:+ decimal (Z.of_nat n))
            (fun n => 1000 * Z.of_nat n)%Z
            (fun t => decimal t)
            simple_repr
            (fun e s => (e - s) / 1000)%Z
            transport.

Definition ConnectError : PyExc :=
  mkExc "ConnectError" true "All connection attempts failed".

Definition CancelledError : PyExc := mkExc "CancelledError" false "".

Definition tool_failed : PyExc := mkExc "RuntimeError" true "tool failed".

(** The policy service is unreachable. *)
Definition unreachable : nat -> Request -> Result Response :=
  fun _ _ => Raise ConnectError.

(** The policy service answers every request with status 200 and [data]. *)
Definition responding (data : pyval) : nat -> Request -> Result Response :=
  fun _ _ => Ret (mkResponse 200 "" (Ret data)).

(** Two response bodies: a denial, and one whose decision names no member of
    [DecisionType]. *)
Definition deny_payload : pydict :=
  [ ("allow", PyBool false); ("decision", PyStr "deny");
    ("reasons", PyList [PyStr "tool is blocked"]) ].

Definition maybe_payload : pydict :=
  [ ("allow", PyBool true); ("decision", PyStr "maybe"); ("reasons", PyList []) ].

(** The backend accepts everything. *)
Definition accepting : nat -> Request -> Result Response := responding PyNone.

(** A finished trace with a root span, a child span and one signal, in its
    store. *)
Definition root_span : Span.t :=
  Span.mk "span-root" "plan" "chain" 1000%Z (Some 2500%Z) None "completed" [] [].

Definition child_span : Span.t :=
  Span.mk "span-child" "answer" "llm" 1500%Z (Some 2000%Z) (Some "span-root") "completed"
          [ ("model", PyStr "some-model") ] [].

Definition pii_signal : SecuritySignal.t :=
  SecuritySignal.mk "signal-1" DATA_EXFILTRATION "medium" "Potential EMAIL in Prompt"
                    "Detected email pattern in user input" [ ("pii_type", PyStr "email") ]
                    1200%Z false.

Definition finished_trace : Trace.t :=
  Trace.mk "trace-1" "agent-1" "session-1" None 0%Z (Some 3000%Z) "completed"
           [0; 1] [pii_signal] [].

Definition finished_state : State :=
  mkState (AgentGuard_init "agent-1" None None) [root_span; child_span] [finished_trace]
          3 5 [].

(** A guard built with the constructor's defaults, before any call. *)
Definition fresh_guard : State := initial_state (AgentGuard_init "agent-1" None None).

(** A runtime whose policy service is down. *)
Definition offline : Runtime := sample_runtime unreachable.


Definition cancelled_span : State :=
  snd (run offline (PWithSpan "lookup" "tool" None (PRaise CancelledError)) fresh_guard).

(** Two spans open, the second on top of the first. *)
Definition two_open_spans : State :=
  snd (span_enter offline "inner" "tool" None
         (snd (span_enter offline "outer" "chain" None fresh_guard))).

(** * The rest of the module *)

(** ** AgentGuardClient.evaluate_policy *)

(** [DecisionType.value]. *)
Definition DecisionType_value (d : DecisionType) : string :=
  match d with
  | ALLOW => "allow"
  | DENY => "deny"
  | WARN => "warn"
  | REQUIRE_APPROVAL => "require_approval"
  end.

(** Truth value of an optional string argument: [None] and [""] are false. *)
Definition given (o : option string) : bool :=
  match o with
  | Some s => negb (String.eqb s "")
  | None => false
  end.

(** The payload [evaluate_policy] builds. *)
Definition evaluate_payload (agent_id : string) (tool_name : option string)
    (tool_params : option pydict) (data_classification : option string) : pydict :=
  let payload := [ ("agent", PyDict [ ("id", PyStr agent_id) ]) ] in
  let payload :=
    if given tool_name then
      dict_set "tool"
        (PyDict [ ("name", opt_str tool_name);
                  ("parameters", PyDict (or_empty tool_params)) ])
        payload
    else payload in
  if given data_classification then
    dict_set "data" (PyDict [ ("classification", opt_str data_classification) ]) payload
  else payload.

(** [AgentGuardClient.evaluate_policy]. *)
Definition evaluate_policy (rt : Runtime) (agent_id : string) (tool_name : option string)
    (tool_params : option pydict) (data_classification : option string)
    : M PolicyDecision.t :=
  response <- client_post rt "/api/v1/policies/evaluate"
                (evaluate_payload agent_id tool_name tool_params data_classification) ;;
  raise_for_status response ;;
  data <- finish (json response) ;;
  allow <- data_get data "allow" (PyBool true) ;;
  decision_value <- data_get data "decision" (PyStr "allow") ;;
  decision <- DecisionType_of_value rt decision_value ;;
  reasons <- data_get data "reasons" (PyList []) ;;
  violations <- data_get data "violations" (PyList []) ;;
  eval_time_us <- data_get data "eval_time_us" (PyInt 0) ;;
  ret (PolicyDecision.mk allow decision reasons violations eval_time_us []).

(** ** Vocabulary for the scopes *)

(** A span that has been closed: [end_time] is set and the status is
    "completed" or "error". *)
Definition closed_span (s : Span.t) : Prop :=
  Span.end_time s <> None
  /\ (Span.status s = "completed" \/ Span.status s = "error").

(** Code that raises instances of [Exception] only. *)
Fixpoint only_Exceptions (p : Prog) : bool :=
  match p with
  | PSkip => true
  | PSeq p q => only_Exceptions p && only_Exceptions q
  | PRaise e => is_Exception e
  | PTry p handler => only_Exceptions p && only_Exceptions handler
  | PWithTrace _ _ _ body => only_Exceptions body
  | PWithSpan _ _ _ body => only_Exceptions body
  | PAddSignal _ _ _ _ _ => true
  | PCheckTool _ _ _ => true
  end.

(** Code that hands no dictionary of its own to a scope: every [trace] scope
    is entered without [metadata] and every [span] scope without
    [attributes] (or with an empty dictionary, for which [x or {}] makes a
    new one).  A dictionary that is handed in is kept as the object it is,
    and the scope writes the text of an error into it. *)
Definition no_dictionary (d : option pydict) : bool :=
  match d with
  | Some (_ :: _) => false
  | _ => true
  end.

Fixpoint passes_no_dictionaries (p : Prog) : bool :=
  match p with
  | PSeq p q => passes_no_dictionaries p && passes_no_dictionaries q
  | PTry p handler => passes_no_dictionaries p && passes_no_dictionaries handler
  | PWithTrace _ _ metadata body => no_dictionary metadata && passes_no_dictionaries body
  | PWithSpan _ _ attributes body => no_dictionary attributes && passes_no_dictionaries body
  | PSkip | PRaise _ | PAddSignal _ _ _ _ _ | PCheckTool _ _ _ => true
  end.

(** A transport, and responses, that raise instances of [Exception] only:
    no request is cancelled. *)
Definition transport_raises_Exceptions (rt : Runtime) : Prop :=
  forall n rq,
    match post rt n rq with
    | Raise e => is_Exception e = true
    | Ret r => match json r with
               | Raise e => is_Exception e = true
               | Ret _ => True
               end
    end.

(** Samples: a guard with one span open; two sibling spans inside it; a tool
    call that fails and is tried again. *)
Definition one_open_span : State :=
  snd (span_enter offline "outer" "chain" None fresh_guard).

Definition two_siblings : State :=
  snd (run offline (PWithSpan "second" "tool" None PSkip)
         (snd (run offline (PWithSpan "first" "tool" None PSkip) one_open_span))).

Definition retrying : Prog :=
  PTry (PWithSpan "lookup" "tool" None (PRaise tool_failed))
       (PWithSpan "lookup again" "tool" None PSkip).

Definition after_a_retry : State := snd (run offline retrying fresh_guard).

(** A guard inside a trace, with one span open. *)
Definition inside_a_trace : State :=
  snd (span_enter offline "outer" "chain" None
         (snd (trace_enter offline "session-1" None None fresh_guard))).

(** ** SecurityEnricher, the other entry points *)

(** *** [findall]

    [findall] needs to know where a match ends, so the order in which a
    backtracking engine tries things matters: a quantifier takes as many
    characters as it can before it gives some back, and an alternation tries
    its branches from left to right.  [first_match r k prev s] is what the
    continuation [k] returns for the first way of matching [r] at the start
    of [s] that [k] accepts. *)
Fixpoint rep_first {A} (cs : ascii -> bool) (lo : nat) (hi : option nat)
    (k : option ascii -> string -> option A) (prev : option ascii) (s : string)
    : option A :=
  match
    match s with
    | String c s' =>
        match hi with
        | Some O => None
        | _ =>
            if cs c then rep_first cs (Nat.pred lo) (Nat.pred <$> hi) k (Some c) s'
            else None
        end
    | EmptyString => None
    end
  with
  | Some a => Some a
  | None => match lo with O => k prev s | S _ => None end
  end.

Fixpoint first_match {A} (r : Regex) (k : option ascii -> string -> option A)
    (prev : option ascii) (s : string) : option A :=
  match r with
  | Eps => k prev s
  | Chr cs =>
      match s with
      | String c s' => if cs c then k (Some c) s' else None
      | EmptyString => None
      end
  | Rep cs lo hi => rep_first cs lo hi k prev s
  | Cat r1 r2 => first_match r1 (first_match r2 k) prev s
  | Alt r1 r2 =>
      match first_match r1 k prev s with
      | Some a => Some a
      | None => first_match r2 k prev s
      end
  | WordBoundary => if at_boundary prev s then k prev s else None
  end.

(** The loop of [findall]: search from the current position for the next
    match, count it, and go on from where it ended.  After an empty match the
    next one may not be empty at the same place ([must_advance]).  Every
    round either moves forward in the text or sets [must_advance], so
    [2 * len + 2] rounds are enough for a text of length [len]. *)
Fixpoint count_matches (rounds : nat) (r : Regex) (must_advance : bool)
    (prev : option ascii) (s : string) : nat :=
  match rounds with
  | O => 0
  | S rounds' =>
      match
        first_match r
          (fun p rest =>
             if must_advance && Nat.eqb (String.length rest) (String.length s)
             then None else Some (p, rest))
          prev s
      with
      | Some (p, rest) =>
          S (count_matches rounds' r (Nat.eqb (String.length rest) (String.length s)) p rest)
      | None =>
          match s with
          | String c s' => count_matches rounds' r false (Some c) s'
          | EmptyString => 0
          end
      end
  end.

(** [len(pattern.findall(s))]. *)
Definition findall_count (r : Regex) (s : string) : nat :=
  count_matches (2 * String.length s + 2) r false None s.

(** The loop of [analyze_output]. *)
Fixpoint scan_output (rt : Runtime) (patterns : list (string * Pattern)) (output : string)
    (signals : list SecuritySignal.t) : M (list SecuritySignal.t) :=
  match patterns with
  | [] => ret signals
  | (pii_type, p) :: rest =>
      let matches := findall_count (regex p) output in
      if Nat.eqb matches 0 then scan_output rt rest output signals
      else
        id <- new_uuid rt ;;
        timestamp <- now rt ;;
        scan_output rt rest output (signals ++
          [SecuritySignal.mk id DATA_EXFILTRATION "high"
             (str_upper pii_type +:+ " Exposure in Output")
             ("Detected " +:+ decimal (Z.of_nat matches) +:+ " instance(s) of "
              +:+ pii_type +:+ " in output")
             [ ("pii_type", PyStr pii_type); ("count", PyInt (Z.of_nat matches)) ]
             timestamp false])
  end.

(** [SecurityEnricher.analyze_output]. *)
Definition analyze_output (rt : Runtime) (output : string) : M (list SecuritySignal.t) :=
  scan_output rt PII_PATTERNS output [].

(** The signals of an output: one for each PII category with at least one
    match, in the order of [PII_PATTERNS], with the number of matches. *)
Definition output_content (output : string)
    : list (SignalType * string * string * string * pydict * bool) :=
  map (fun kp : string * Pattern =>
         let matches := findall_count (regex (snd kp)) output in
         (DATA_EXFILTRATION, "high",
          str_upper (fst kp) +:+ " Exposure in Output",
          "Detected " +:+ decimal (Z.of_nat matches) +:+ " instance(s) of "
          +:+ fst kp +:+ " in output",
          [ ("pii_type", PyStr (fst kp)); ("count", PyInt (Z.of_nat matches)) ], false))
      (filter (fun kp : string * Pattern => findall_count (regex (snd kp)) output <> 0)
              PII_PATTERNS).

(** The PII categories a list of signals reports. *)
Definition pii_types (signals : list SecuritySignal.t) : list pyval :=
  omap (fun s => dict_get "pii_type" (SecuritySignal.evidence s)) signals.

(** The PII category the contents of a signal name. *)
Definition content_pii_type
    (c : SignalType * string * string * string * pydict * bool) : option pyval :=
  dict_get "pii_type" (snd (fst c)).

(** ** SecurityEnricher.analyze_tool_use *)

(** [str.lower()]. *)
Fixpoint str_lower (s : string) : string :=
  match s with
  | EmptyString => EmptyString
  | String c s' => String (lower c) (str_lower s')
  end.

(** [needle in text], for strings. *)
Fixpoint contains (needle text : string) : bool :=
  if String.prefix needle text then true
  else match text with
       | String _ text' => contains needle text'
       | EmptyString => false
       end.

Definition DANGEROUS_TOOLS : list string :=
  [ "execute_code"; "run_shell"; "file_write"; "delete";
    "database_query"; "http_request"; "send_email" ].

(** [list(d.keys())]. *)
Definition dict_keys (d : pydict) : pyval :=
  PyList (map (fun kv : string * pyval => PyStr (fst kv)) d).

Section ToolUse.
Context (rt : Runtime).

(** The loop over [DANGEROUS_TOOLS]: the first name found in the lowered
    tool name appends one signal and ends the loop. *)
Fixpoint scan_tools (dangerous_tools : list string) (tool_name tool_lower : string)
    (tool_params : pydict) (signals : list SecuritySignal.t) : M (list SecuritySignal.t) :=
  match dangerous_tools with
  | [] => ret signals
  | dangerous :: rest =>
      if contains dangerous tool_lower then
        id <- new_uuid rt ;;
        timestamp <- now rt ;;
        ret (signals ++
          [SecuritySignal.mk id TOOL_ABUSE "medium"
             ("Sensitive Tool Usage: " +:+ tool_name)
             ("Tool '" +:+ tool_name +:+ "' is classified as sensitive")
             [ ("tool_name", PyStr tool_name); ("param_keys", dict_keys tool_params) ]
             timestamp false])
      else scan_tools rest tool_name tool_lower tool_params signals
  end.

(** [SecurityEnricher.analyze_tool_use]; [str(tool_params)] is the [repr] of
    the dict. *)
Definition analyze_tool_use (tool_name : string) (tool_params : pydict) (output : pyval)
    : M (list SecuritySignal.t) :=
  let tool_lower := str_lower tool_name in
  signals <- scan_tools DANGEROUS_TOOLS tool_name tool_lower tool_params [] ;;
  if contains "sudo" (str_lower (repr rt (PyDict tool_params)))
     || contains "admin" (str_lower (repr rt (PyDict tool_params))) then
    id <- new_uuid rt ;;
    timestamp <- now rt ;;
    ret (signals ++
      [SecuritySignal.mk id PRIVILEGE_ESCALATION "high"
         "Potential Privilege Escalation"
         "Tool parameters contain privilege escalation indicators"
         [ ("tool_name", PyStr tool_name) ]
         timestamp false])
  else ret signals.

End ToolUse.

(** The signals of a tool use: one [tool_abuse] signal if a dangerous name
    occurs in the lowered tool name, then one [privilege_escalation] signal if
    the parameters, printed and lowered, contain "sudo" or "admin". *)
Definition tool_use_content (rt : Runtime) (tool_name : string) (tool_params : pydict)
    : list (SignalType * string * string * string * pydict * bool) :=
  (if existsb (fun dangerous => contains dangerous (str_lower tool_name)) DANGEROUS_TOOLS
   then [ (TOOL_ABUSE, "medium", "Sensitive Tool Usage: " +:+ tool_name,
           "Tool '" +:+ tool_name +:+ "' is classified as sensitive",
           [ ("tool_name", PyStr tool_name); ("param_keys", dict_keys tool_params) ],
           false) ]
   else [])
  ++
  (if contains "sudo" (str_lower (repr rt (PyDict tool_params)))
      || contains "admin" (str_lower (repr rt (PyDict tool_params)))
   then [ (PRIVILEGE_ESCALATION, "high", "Potential Privilege Escalation",
           "Tool parameters contain privilege escalation indicators",
           [ ("tool_name", PyStr tool_name) ], false) ]
   else []).

(** The state after [k] more readings of the uuid generator and of the
    clock, and nothing else. *)
Definition advance (k : nat) (st : State) : State :=
  mkState (self st) (span_store st) (trace_store st)
          (k + uuid_calls st) (k + clock_calls st) (sent st).

(** [signals] were built from the next readings after [st], one uuid and one
    clock reading each, in order. *)
Definition drawn_from (rt : Runtime) (st : State) (signals : list SecuritySignal.t) : Prop :=
  map SecuritySignal.id signals
  = map (uuid4 rt) (List.seq (uuid_calls st) (length signals))
  /\ map SecuritySignal.timestamp signals
     = map (utcnow rt) (List.seq (clock_calls st) (length signals)).

(** An analysis that reads a uuid and the clock once per signal it returns,
    and does nothing else. *)
Definition draws_per_signal (rt : Runtime) (m : M (list SecuritySignal.t)) : Prop :=
  forall st, exists signals,
    m st = (Ret signals, advance (length signals) st) /\ drawn_from rt st signals.

(** The same for a loop that appends to the signals it is given. *)
Definition loop_draws (rt : Runtime)
    (f : list SecuritySignal.t -> M (list SecuritySignal.t)) : Prop :=
  forall acc st, exists new,
    f acc st = (Ret (acc ++ new), advance (length new) st) /\ drawn_from rt st new.

(** A tool named after a dangerous one, in capitals and with a prefix. *)
Definition shouting_tool : string := "my_RUN_SHELL_v2".

(** ** OTELExporter *)

(** [str(v)]: a string is itself, anything else prints as its [repr]. *)
Definition py_str (rt : Runtime) (v : pyval) : string :=
  match v with
  | PyStr s => s
  | _ => repr rt v
  end.

(** [s.replace("-", "")]. *)
Fixpoint without_hyphens (s : string) : string :=
  match s with
  | EmptyString => EmptyString
  | String c s' =>
      if Ascii.eqb c "-" then without_hyphens s' else String c (without_hyphens s')
  end.

Fixpoint zeros (n : nat) : string :=
  match n with
  | O => EmptyString
  | S n' => String "0" (zeros n')
  end.

(** [s.ljust(n, "0")]. *)
Definition ljust_zeros (n : nat) (s : string) : string :=
  s +:+ zeros (n - String.length s).

(** [s.replace("-", "")[:n].ljust(n, "0")]. *)
Definition otlp_id (n : nat) (s : string) : string :=
  ljust_zeros n (prefix n (without_hyphens s)).

Module OTELExporter.
Section WithClock.
(** [int(t.timestamp() * 1e9)], and the rest of the environment. *)
Context (unix_nanos : datetime -> Z) (rt : Runtime).

(** [OTELExporter._span_kind]. *)
Definition _span_kind (span_type : string) : Z :=
  let mapping :=
    [ ("llm", 3); ("tool", 3); ("retrieval", 3);
      ("agent", 2); ("chain", 0); ("policy", 0) ]%Z in
  dict_get_default span_type 0%Z mapping.

(** [OTELExporter._convert_span]. *)
Definition _convert_span (trace_id : string) (span : Span.t) : pydict :=
  [ ("traceId", PyStr (otlp_id 32 trace_id));
    ("spanId", PyStr (otlp_id 16 (Span.span_id span)));
    ("parentSpanId",
      match Span.parent_span_id span with
      | Some p => if String.eqb p "" then PyNone else PyStr (otlp_id 16 p)
      | None => PyNone
      end);
    ("name", PyStr (Span.name span));
    ("kind", PyInt (_span_kind (Span.type span)));
    ("startTimeUnixNano", PyInt (unix_nanos (Span.start_time span)));
    ("endTimeUnixNano",
      match Span.end_time span with
      | Some t => PyInt (unix_nanos t)
      | None => PyNone
      end);
    ("attributes",
      PyList (map (fun kv : string * pyval =>
                     PyDict [ ("key", PyStr (fst kv));
                              ("value", PyDict [ ("stringValue", PyStr (py_str rt (snd kv))) ]) ])
                  (Span.attributes span)));
    ("status",
      PyDict [ ("code", PyInt (if String.eqb (Span.status span) "error" then 2 else 1));
               ("message", dict_get_default "error" (PyStr "") (Span.attributes span)) ]) ].

(** The body of the request. *)
Definition resource_spans (trace : Trace.t) (spans : list Span.t) : pydict :=
  [ ("resourceSpans", PyList
      [ PyDict
          [ ("resource", PyDict
              [ ("attributes", PyList
                  [ PyDict [ ("key", PyStr "service.name");
                             ("value", PyDict [ ("stringValue", PyStr "agentguard-sdk") ]) ];
                    PyDict [ ("key", PyStr "agent.id");
                             ("value", PyDict [ ("stringValue",
                                                 PyStr (Trace.agent_id trace)) ]) ] ]) ]);
            ("scopeSpans", PyList
              [ PyDict
                  [ ("scope", PyDict [ ("name", PyStr "agentguard.python.sdk") ]);
                    ("spans", PyList
                       (map (fun s => PyDict (_convert_span (Trace.trace_id trace) s))
                            spans)) ] ]) ] ]) ].

(** [OTELExporter.export_trace]. *)
Definition export_trace (trace : Trace.t) : M unit :=
  st <- get ;;
  response <- client_post rt "/v1/traces"
                (resource_spans trace (spans_at st (Trace.spans trace))) ;;
  raise_for_status response.

End WithClock.
End OTELExporter.

(** A string of [n] characters without a hyphen. *)
Definition plain_id (n : nat) (s : string) : Prop :=
  String.length s = n /\ "-"%char ∉ list_ascii_of_string s.

(** A clock for the samples: microseconds to nanoseconds. *)
Definition sample_nanos (t : datetime) : Z := (1000 * t)%Z.

(** ** The middlewares *)

(** [sep.join(strings)]. *)
Fixpoint join_strs (sep : string) (l : list string) : string :=
  match l with
  | [] => ""
  | [x] => x
  | x :: l' => x +:+ sep +:+ join_strs sep l'
  end.

(** The items of a list as strings, as [join] wants them: the first item
    that is not a string raises [TypeError]. *)
Fixpoint items_as_strs (i : nat) (l : list pyval) : Result (list string) :=
  match l with
  | [] => Ret []
  | PyStr s :: l' =>
      match items_as_strs (S i) l' with
      | Ret strs => Ret (s :: strs)
      | Raise e => Raise e
      end
  | v :: _ =>
      Raise (mkExc "TypeError" true
               ("sequence item " +:+ decimal (Z.of_nat i) +:+ ": expected str instance, "
                +:+ type_name v +:+ " found"))
  end.

(** [sep.join(v)] for a Python value: a list is joined item by item, a
    string character by character, a dictionary key by key; nothing else can
    be iterated over. *)
Definition str_join (sep : string) (v : pyval) : Result string :=
  match v with
  | PyList l =>
      match items_as_strs 0 l with
      | Ret strs => Ret (join_strs sep strs)
      | Raise e => Raise e
      end
  | PyStr s => Ret (join_strs sep (map (fun c => String c "") (list_ascii_of_string s)))
  | PyDict d => Ret (join_strs sep (map fst d))
  | _ => Raise (mkExc "TypeError" true "can only join an iterable")
  end.

(** How something that returned a value ended. *)
Definition ended {A} (r : Result A) : Result unit :=
  match r with
  | Ret _ => Ret tt
  | Raise e => Raise e
  end.

Module LangChainMiddleware.
Section Callback.
(** [time.time()], by the number of the clock reading, and the rest of the
    environment. *)
Context {float : Type} (time_time : nat -> float) (rt : Runtime).

Definition read_time : M float := fun st =>
  (Ret (time_time (clock_calls st)),
   mkState (self st) (span_store st) (trace_store st)
           (uuid_calls st) (S (clock_calls st)) (sent st)).

(** [AgentGuardCallback.on_tool_start]: [_tool_start_times] comes in and
    goes out; [serialized] describes the tool, with a string for its name. *)
Definition on_tool_start (_tool_start_times : list (string * float))
    (serialized : list (string * string)) (input_str : string)
    : M (list (string * float)) :=
  let tool_name := dict_get_default "name" "unknown" serialized in
  decision <- check_tool_access rt tool_name (Some [ ("input", PyStr input_str) ]) None ;;
  if negb (truthy (PolicyDecision.allow decision)) then
    reasons <- finish (str_join ", " (PolicyDecision.reasons decision)) ;;
    raise (mkExc "PermissionError" true
             ("Tool '" +:+ tool_name +:+ "' blocked by policy: " +:+ reasons))
  else
    t <- read_time ;;
    ret (dict_set tool_name t _tool_start_times).

End Callback.
End LangChainMiddleware.

Module CrewAIMiddleware.

(** An agent of the crew, as the wrapper looks at it: its [role] and the
    names of its [tools], defaults filled in. *)
Record Agent := mkAgent {
  role : string;
  tools : list string
}.

(** The crew's own [kickoff]: a coroutine function, which runs when its call
    is awaited, or a plain function, which runs when it is called and
    returns a value that cannot be awaited. *)
Inductive Kickoff (A : Type) :=
| Coroutine (body : M A)
| Plain (body : M pyval).
Arguments Coroutine {A} body.
Arguments Plain {A} body.

(** [await original_kickoff(...)], with the arguments of the call. *)
Definition await_kickoff {A} (original_kickoff : Kickoff A) : M A :=
  match original_kickoff with
  | Coroutine body => body
  | Plain body =>
      value <- body ;;
      raise (mkExc "TypeError" true
               ("object " +:+ type_name value +:+ " can't be used in 'await' expression"))
  end.

Section Wrap.
Context (rt : Runtime) {A : Type} (original_kickoff : Kickoff A).

(** The loop over the tools of one agent. *)
Fixpoint check_tools (session_id agent_name : string) (tools : list string) : M unit :=
  match tools with
  | [] => ret tt
  | tool_name :: rest =>
      decision <- check_tool_access rt tool_name None (Some session_id) ;;
      if negb (truthy (PolicyDecision.allow decision)) then
        reasons <- finish (str_join ", " (PolicyDecision.reasons decision)) ;;
        raise (mkExc "PermissionError" true
                 ("Tool '" +:+ tool_name +:+ "' for agent '" +:+ agent_name
                  +:+ "' blocked: " +:+ reasons))
      else check_tools session_id agent_name rest
  end.

(** The loop over the agents. *)
Fixpoint check_agents (session_id : string) (agents : list Agent) : M unit :=
  match agents with
  | [] => ret tt
  | agent :: rest =>
      check_tools session_id (role agent) (tools agent) ;;
      check_agents session_id rest
  end.

(** [wrapped_kickoff]. *)
Definition wrapped_kickoff (crew : list Agent) : M A :=
  session_id <- new_uuid rt ;;
  trace <- trace_enter rt session_id None None ;;
  r <- attempt (
         check_agents session_id crew ;;
         span <- span_enter rt "crew_execution" "agent" None ;;
         result <- attempt (await_kickoff original_kickoff) ;;
         span_exit rt span (ended result) ;;
         finish result) ;;
  trace_exit rt trace (ended r) ;;
  finish r.

End Wrap.
End CrewAIMiddleware.

(** A computation that leaves the guard and its objects alone, and a
    kickoff that does. *)
Definition leaves_the_guard_alone {A} (m : M A) : Prop :=
  forall st, same_objects st (snd (m st)).

Definition kickoff_leaves_the_guard_alone {A} (k : CrewAIMiddleware.Kickoff A) : Prop :=
  match k with
  | CrewAIMiddleware.Coroutine body => leaves_the_guard_alone body
  | CrewAIMiddleware.Plain body => leaves_the_guard_alone body
  end.

(** Every request fails: the transport raises an [Exception] or answers with
    a status that is not a success. *)
Definition service_down (rt : Runtime) : Prop :=
  forall n rq, request_fails (post rt n rq) = true.

(** A denial with two reasons. *)
Definition blocked_payload : pydict :=
  [ ("allow", PyBool false); ("decision", PyStr "deny");
    ("reasons", PyList [PyStr "tool is blocked"; PyStr "quota used up"]) ].

(** A [time.time()] for the samples: whole seconds. *)
Definition sample_time (n : nat) : Z := Z.of_nat n.

(** The service answers every request with a success status and the same
    body, a decision it knows, and allows. *)
Definition service_allows (rt : Runtime) : Prop :=
  exists d dec,
    (forall n rq, answers (post rt n rq) (PyDict d))
    /\ known_decision (dict_get_default "decision" (PyStr "allow") d) = Some dec
    /\ truthy (dict_get_default "allow" (PyBool true) d) = true.

(** A crew of one agent with one tool, and a kickoff that returns at once. *)
Definition small_crew : list CrewAIMiddleware.Agent :=
  [ CrewAIMiddleware.mkAgent "researcher" [ "search" ] ].

Definition allow_payload : pydict :=
  [ ("allow", PyBool true); ("decision", PyStr "allow") ].

Definition quick_kickoff : M string := ret "done".

(** The same as a plain function. *)
Definition quick_plain_kickoff : M pyval := ret (PyStr "done").

(** * Properties *)

(** ** Policy checks *)

Section PolicyChecks.
Context (rt : Runtime).

(** Choosing the session id sends nothing and leaves the guard alone. *)
Lemma session_id_choice (session_id : option string) (st : State) :
  exists sid st1,
    match session_id with
    | Some s => if String.eqb s "" then new_uuid rt else ret s
    | None => new_uuid rt
    end st = (Ret sid, st1)
    /\ sent st1 = sent st /\ self st1 = self st.
Proof.
  destruct session_id as [s|]; [destruct (String.eqb s "")|];
    cbv [new_uuid ret]; do 2 eexists; (split; [reflexivity|]); auto.
Qed.


(** C8. A guard built with [enabled=False] answers every [check_tool_access]
    with allow=true, decision=allow at once: the state, and with it the list
    of requests sent, is what it was. *)
Theorem check_tool_access_disabled (st : State)
    (tool_name : string) (tool_params : option pydict) (session_id : option string) :
  enabled (self st) = false ->
  check_tool_access rt tool_name tool_params session_id st
    = (Ret (PolicyDecision.make (PyBool true) ALLOW (PyList [])), st).
Proof.
  intros Hen. unfold check_tool_access, bind, get. rewrite Hen. reflexivity.
Qed.

(** C2, amended. On a successful response whose body is a dictionary, the
    decision carries the payload's [allow] and [reasons] (true and the empty
    list when absent) and the member of [DecisionType] that [decision] names,
    [ALLOW] when the key is absent.  A [decision] that names no member makes
    [DecisionType(...)] raise [ValueError], and [check_tool_access] answers
    with the fail-open or fail-closed fallback. *)
Theorem check_tool_access_on_success (st : State)
    (tool_name : string) (tool_params : option pydict) (session_id : option string)
    (d : pydict) :
  enabled (self st) = true ->
  (forall rq, answers (post rt (length (sent st)) rq) (PyDict d)) ->
  exists st',
    check_tool_access rt tool_name tool_params session_id st =
      (Ret (match dict_get "decision" d with
            | None =>
                PolicyDecision.make (dict_get_default "allow" (PyBool true) d) ALLOW
                                    (dict_get_default "reasons" (PyList []) d)
            | Some v =>
                match known_decision v with
                | Some dec =>
                    PolicyDecision.make (dict_get_default "allow" (PyBool true) d) dec
                                        (dict_get_default "reasons" (PyList []) d)
                | None =>
                    fallback_decision (self st)
                      (repr rt v +:+ " is not a valid DecisionType")
                end
            end), st').
Proof.
  intros Hen Hans.
  destruct (session_id_choice session_id st) as (sid & st1 & Hsid & Hsent & Hself).
  unfold check_tool_access, bind, get, attempt. rewrite Hen. cbn [negb].
  rewrite Hsid.
  unfold pre_invoke, bind, now, client_post, raise_for_status. cbn [sent].
  rewrite Hsent.
  match goal with
  | |- context [post rt _ ?rq] =>
      destruct (Hans rq) as (r & -> & Hok & Hjson)
  end.
  rewrite Hok. unfold ret, finish. rewrite Hjson.
  unfold data_get, ret, dict_get_default.
  destruct (dict_get "decision" d) as [v|].
  - unfold DecisionType_of_value, known_decision, fallback_decision.
    destruct v as [ | b | n | s | l | d' ];
      try (cbn; destruct (fail_open (self st)); eexists; reflexivity).
    repeat (match goal with
            | |- context [String.eqb s ?k] => destruct (String.eqb s k)
            end; [ cbn; eexists; reflexivity | ]).
    cbn. destruct (fail_open (self st)); eexists; reflexivity.
  - cbn. eexists. reflexivity.
Qed.

End PolicyChecks.


Lemma check_tool_access_disabled_witness :
  check_tool_access (sample_runtime unreachable) "search" None None
      (initial_state (AgentGuard_init "agent-1" (Some false) None))
    = (Ret (PolicyDecision.make (PyBool true) ALLOW (PyList [])),
       initial_state (AgentGuard_init "agent-1" (Some false) None)).
Proof.
  apply (check_tool_access_disabled (sample_runtime unreachable)); reflexivity.
Defined.

Lemma check_tool_access_on_success_witness :
  exists st',
    check_tool_access (sample_runtime (responding (PyDict deny_payload)))
      "search" None None fresh_guard
    = (Ret (PolicyDecision.make (PyBool false) DENY (PyList [PyStr "tool is blocked"])), st').
Proof.
  apply (check_tool_access_on_success (sample_runtime (responding (PyDict deny_payload)))
           fresh_guard "search" None None deny_payload).
  - reflexivity.
  - intros rq. eexists. split; [reflexivity|]. split; reflexivity.
Defined.

(** C2 as stated fails: a response with [decision: "maybe"] does not yield
    decision=allow with the payload's [allow]; the default guard denies. *)
Lemma unknown_decision_is_denied :
  fst (check_tool_access
         (sample_runtime (responding (PyDict maybe_payload)))
         "search" None None fresh_guard)
  = Ret (PolicyDecision.make (PyBool false) DENY
           (PyList [PyStr ("AgentGuard unavailable: 'maybe' is not a valid DecisionType"
                           +:+ ". Blocking due to fail-closed policy.")])).
Proof. reflexivity. Qed.

(** ** Scopes *)

Section Scopes.
Context (rt : Runtime).

(** *** What each half of a scope does to the state *)

Lemma trace_enter_eq sid uid md st :
  trace_enter rt sid uid md st =
    (Ret (length (trace_store st)),
     mkState (set_current_trace (Some (length (trace_store st))) (self st))
       (span_store st)
       (trace_store st ++
          [Trace.mk (uuid4 rt (uuid_calls st)) (agent_id (self st)) sid uid
             (utcnow rt (clock_calls st)) None "running" [] [] (or_empty md)])
       (S (uuid_calls st)) (S (clock_calls st)) (sent st)).
Proof. reflexivity. Qed.

Lemma span_enter_eq name ty attrs st :
  span_enter rt name ty attrs st =
    (Ret (length (span_store st)),
     let sp := Span.mk (uuid4 rt (uuid_calls st)) name ty (utcnow rt (clock_calls st)) None
                 (match last (_current_span_stack (self st)) with
                  | Some top => Span.span_id <$> span_store st !! top
                  | None => None end) "running" (or_empty attrs) [] in
     mkState (set_span_stack (_current_span_stack (self st) ++ [length (span_store st)]) (self st))
       (span_store st ++ [sp])
       (match _current_trace (self st) with
        | Some tr => alter (fun t => Trace.set_spans (Trace.spans t ++ [length (span_store st)]) t) tr (trace_store st)
        | None => trace_store st end)
       (S (uuid_calls st)) (S (clock_calls st)) (sent st)).
Proof.
  unfold span_enter, bind, get, new_uuid, now, modify, update_trace, ret. cbn.
  destruct (_current_trace (self st)); reflexivity.
Qed.

Lemma span_exit_eq loc outcome st :
  span_exit rt loc outcome st =
    let spans' := alter (close_span outcome (utcnow rt (clock_calls st))) loc (span_store st) in
    match _current_span_stack (self st) with
    | [] => (Raise (mkExc "IndexError" true "pop from empty list"),
             mkState (self st) spans' (trace_store st) (uuid_calls st) (S (clock_calls st)) (sent st))
    | _ => (outcome,
            mkState (set_span_stack (removelast (_current_span_stack (self st))) (self st))
              spans' (trace_store st) (uuid_calls st) (S (clock_calls st)) (sent st))
    end.
Proof.
  unfold span_exit, bind, get, now, modify, update_span, ret, finish, raise.
  destruct outcome as [[]|e]; [|destruct (is_Exception e) eqn:He]; cbn;
  destruct (_current_span_stack (self st)) eqn:E; cbn; rewrite ?E; cbn;
  unfold set_span_store, set_self; cbn; rewrite ?list_alter_alter_eq;
  try reflexivity;
  (f_equal; apply (f_equal (fun x => mkState _ x _ _ _ _));
   apply list_alter_ext; [intros x _; unfold close_span; cbn; rewrite ?He; reflexivity | reflexivity]).
Qed.

Lemma ingest_trace_eq tr st :
  exists r rq, ingest_trace rt tr st = (r, with_sent st (sent st ++ [rq])).
Proof.
  unfold ingest_trace, bind, get, client_post, raise_for_status.
  match goal with
  | |- context [post rt ?n ?rq] => destruct (post rt n rq) as [resp|e] eqn:Hp; [|by eauto]
  end.
  destruct ((200 <=? status_code resp)%Z && (status_code resp <=? 299)%Z); by eauto.
Qed.

Lemma trace_exit_eq loc outcome st :
  exists r rqs,
    trace_exit rt loc outcome st =
      (r, mkState (set_current_trace None (self st)) (span_store st)
            (alter (close_trace outcome (utcnow rt (clock_calls st))) loc (trace_store st))
            (uuid_calls st) (S (clock_calls st)) (sent st ++ rqs))
    /\ (r = outcome \/ enabled (self st) = true /\ exists e, r = Raise e /\ is_Exception e = false).
Proof.
  assert (Halter : forall ts : list Trace.t,
    alter (Trace.set_end_time (Some (utcnow rt (clock_calls st)))) loc
      (match outcome with
       | Ret _ => alter (Trace.set_status "completed") loc ts
       | Raise e => if is_Exception e then
           alter (fun t => Trace.set_metadata (dict_set "error" (PyStr (exc_str e)) (Trace.metadata t)) t) loc
             (alter (Trace.set_status "failed") loc ts)
           else ts end)
    = alter (close_trace outcome (utcnow rt (clock_calls st))) loc ts).
  { intros ts. destruct outcome as [[]|e]; [|destruct (is_Exception e) eqn:He];
      rewrite ?list_alter_alter_eq; apply list_alter_ext; auto;
      intros x _; unfold close_trace; cbn; rewrite ?He; reflexivity. }
  set (st1 := mkState (set_current_trace None (self st)) (span_store st)
            (alter (close_trace outcome (utcnow rt (clock_calls st))) loc (trace_store st))
            (uuid_calls st) (S (clock_calls st)) (sent st)).
  assert (Hpre :
    trace_exit rt loc outcome st =
      (sent_ok <- (if enabled (self st1) then
                match trace_store st1 !! loc with
                | Some tr => attempt (ingest_trace rt tr)
                | None => ret (Ret tt)
                end
              else ret (Ret tt)) ;;
       match sent_ok with
       | Raise e' => if is_Exception e' then finish outcome else raise e'
       | Ret _ => finish outcome
       end) st1).
  { unfold trace_exit, bind at 1 2 3 4 5, get, now, modify, update_trace, ret.
    destruct outcome as [[]|e]; [|destruct (is_Exception e) eqn:He]; cbn;
      unfold bind, modify, set_trace_store, set_self; cbn;
      try (specialize (Halter (trace_store st)); cbn in Halter; rewrite ?He in Halter;
           rewrite Halter); reflexivity. }
  rewrite Hpre. clear Hpre Halter.
  unfold bind. cbn [self enabled set_current_trace st1].
  destruct (enabled (self st)) eqn:Hen.
  - fold st1. destruct (trace_store st1 !! loc) as [tr|].
    + unfold attempt. destruct (ingest_trace_eq tr st1) as (r & rq & ->).
      destruct r as [[]|e'].
      * exists outcome, [rq]. split; [reflexivity | auto].
      * destruct (is_Exception e') eqn:He'.
        -- exists outcome, [rq]. split; [reflexivity | auto].
        -- exists (Raise e'), [rq]. split; [reflexivity | right; eauto].
    + exists outcome, []. rewrite app_nil_r. split; [reflexivity | auto].
  - exists outcome, []. rewrite app_nil_r. split; [reflexivity | auto].
Qed.

Lemma trace_frame_refl x : trace_frame x x.
Proof. repeat split. Qed.

Lemma trace_frame_trans x y z : trace_frame x y -> trace_frame y z -> trace_frame x z.
Proof. unfold trace_frame. intuition congruence. Qed.

Lemma extends_refl st : extends st st.
Proof. split; auto. intros loc x H. exists x. auto using trace_frame_refl. Qed.

Lemma extends_trans st1 st2 st3 : extends st1 st2 -> extends st2 st3 -> extends st1 st3.
Proof.
  intros [] []. split; try congruence; try lia.
  - intros loc Hlt. rewrite ext_spans1 by lia. auto.
  - intros loc x Hx. destruct (ext_traces0 _ _ Hx) as (y & Hy & Hxy).
    destruct (ext_traces1 _ _ Hy) as (z & Hz & Hyz). eauto using trace_frame_trans.
Qed.

Lemma trace_enter_extends sid uid md st :
  extends st (snd (trace_enter rt sid uid md st)).
Proof.
  rewrite trace_enter_eq. split; cbn; auto; try lia.
  - intros loc x Hx. exists x. split; [|apply trace_frame_refl].
    rewrite lookup_app_l; [done|]. by eapply lookup_lt_Some.
  - rewrite length_app. lia.
Qed.

Lemma alter_frame (f : Trace.t -> Trace.t) loc (ts : list Trace.t) :
  (forall x, trace_frame x (f x)) ->
  forall l x, ts !! l = Some x -> exists y, alter f loc ts !! l = Some y /\ trace_frame x y.
Proof.
  intros Hf l x Hx. destruct (decide (loc = l)) as [->|Hne].
  - exists (f x). split; [|auto]. rewrite list_lookup_alter_eq, Hx. done.
  - exists x. split; [|apply trace_frame_refl]. by rewrite list_lookup_alter_ne.
Qed.

Lemma span_enter_extends name ty attrs st :
  extends st (snd (span_enter rt name ty attrs st)).
Proof.
  rewrite span_enter_eq. split; cbn; auto; try lia.
  - intros loc Hlt. by rewrite lookup_app_l.
  - rewrite length_app. lia.
  - destruct (_current_trace (self st)) as [tr|].
    + apply alter_frame. intros x. repeat split.
    + intros loc x Hx. eauto using trace_frame_refl.
  - destruct (_current_trace (self st)); rewrite ?length_alter; lia.
Qed.

Lemma span_exit_extends st0 loc outcome st :
  extends st0 st -> length (span_store st0) <= loc ->
  extends st0 (snd (span_exit rt loc outcome st)).
Proof.
  intros [] Hloc. rewrite span_exit_eq. cbn zeta.
  destruct (_current_span_stack (self st)); split; cbn; auto; try lia;
    try (rewrite length_alter; lia);
    intros loc' Hl; rewrite list_lookup_alter_ne by lia; auto.
Qed.

Lemma trace_exit_extends st0 loc outcome st :
  extends st0 st -> length (trace_store st0) <= loc ->
  extends st0 (snd (trace_exit rt loc outcome st)).
Proof.
  intros [] Hloc. destruct (trace_exit_eq loc outcome st) as (r & rqs & -> & _).
  split; cbn; auto; try lia.
  - intros l x Hx. destruct (ext_traces0 _ _ Hx) as (y & Hy & Hxy).
    exists y. split; [|done]. rewrite list_lookup_alter_ne; [done|].
    apply lookup_lt_Some in Hx. lia.
  - rewrite length_alter. lia.
Qed.

Lemma add_security_signal_extends ty sev title desc ev st :
  extends st (snd (add_security_signal rt ty sev title desc ev st)).
Proof.
  unfold add_security_signal, bind, get, new_uuid, now, update_trace, modify, ret.
  destruct (_current_trace (self st)) as [tr|]; cbn; [|apply extends_refl].
  split; cbn; auto; try lia.
  - apply alter_frame. intros x. repeat split.
  - rewrite length_alter. lia.
Qed.

Lemma same_objects_extends st st' : same_objects st st' -> extends st st'.
Proof.
  intros (Hs & Hsp & Htr & Hc). split; rewrite ?Hs, ?Hsp, ?Htr; auto.
  intros loc x Hx. eauto using trace_frame_refl.
Qed.

Lemma bind_stateless {A B} (m : M A) (k : A -> M B) st :
  (forall a, stateless (k a)) -> snd (bind m k st) = snd (m st).
Proof.
  intros Hk. unfold bind. destruct (m st) as [[a|e] st']; cbn; [apply Hk | reflexivity].
Qed.

Lemma stateless_bind {A B} (m : M A) (k : A -> M B) :
  stateless m -> (forall a, stateless (k a)) -> stateless (bind m k).
Proof. intros Hm Hk st. rewrite bind_stateless by done. apply Hm. Qed.

Lemma stateless_data_get data key dflt : stateless (data_get data key dflt).
Proof. intros st. destruct data; reflexivity. Qed.

Lemma stateless_DecisionType_of_value v : stateless (DecisionType_of_value rt v).
Proof.
  intros st. unfold DecisionType_of_value.
  destruct v; try reflexivity.
  repeat match goal with |- context [String.eqb s ?k] => destruct (String.eqb s k) end;
    reflexivity.
Qed.

Lemma stateless_raise_for_status r : stateless (raise_for_status r).
Proof. intros st. unfold raise_for_status. by destruct (_ && _). Qed.

Lemma pre_invoke_objects aid tool params sid st :
  same_objects st (snd (pre_invoke rt aid tool params sid st)).
Proof.
  unfold pre_invoke. unfold bind at 1, now.
  rewrite bind_stateless.
  - unfold client_post. cbn. repeat split; cbn; auto.

  - intros resp. apply stateless_bind; [apply stateless_raise_for_status|]. intros _.
    apply stateless_bind; [by intros ?|]. intros data.
    apply stateless_bind; [apply stateless_data_get|]. intros allow.
    apply stateless_bind; [apply stateless_data_get|]. intros dv.
    apply stateless_bind; [apply stateless_DecisionType_of_value|]. intros dec.
    apply stateless_bind; [apply stateless_data_get|]. intros reasons.
    by intros ?.
Qed.

Lemma check_tool_access_objects tool params sid st :
  same_objects st (snd (check_tool_access rt tool params sid st)).
Proof.
  unfold check_tool_access, bind, get, attempt.
  destruct (enabled (self st)); cbn [negb]; [|repeat split; auto].
  assert (Hsid : exists s st1, match sid with
    | Some s => if String.eqb s "" then new_uuid rt else ret s
    | None => new_uuid rt end st = (Ret s, st1) /\ same_objects st st1).
  { destruct sid as [s|]; [destruct (String.eqb s "")|]; cbv [new_uuid ret];
      do 2 eexists; (split; [reflexivity|]); repeat split; auto. }
  destruct Hsid as (s & st1 & -> & H1).
  pose proof (pre_invoke_objects (agent_id (self st)) tool (or_empty params) s st1) as H2.
  destruct (pre_invoke rt (agent_id (self st)) tool (or_empty params) s st1) as [[d|e] st2].
  - cbn in *. unfold same_objects in *. intuition (try congruence; try lia).
  - cbn in *. destruct (is_Exception e); [destruct (fail_open (self st))|]; cbn;
      unfold same_objects in *; intuition (try congruence; try lia).
Qed.

Lemma run_frame p : forall st,
  extends st (snd (run rt p st))
  /\ _current_span_stack (self (snd (run rt p st))) = _current_span_stack (self st).
Proof.
  induction p; intros st; cbn [run].
  - split; [apply extends_refl | reflexivity].
  - unfold bind. destruct (IHp1 st) as [H1 S1].
    destruct (run rt p1 st) as [[[]|e] st1]; cbn in *; [|auto].
    destruct (IHp2 st1) as [H2 S2]. split; [eauto using extends_trans | congruence].
  - split; [apply extends_refl | reflexivity].
  - unfold bind, attempt. destruct (IHp1 st) as [H1 S1].
    destruct (run rt p1 st) as [[[]|e] st1]; cbn in *; [auto|].
    destruct (is_Exception e); cbn; [|auto].
    destruct (IHp2 st1) as [H2 S2]. split; [eauto using extends_trans | congruence].
  - unfold bind, attempt. pose proof (trace_enter_extends session_id user_id metadata st) as H0.
    rewrite trace_enter_eq in *. cbn [snd] in H0.
    match goal with |- context [run rt p ?s] => destruct (IHp s) as [H1 S1];
      destruct (run rt p s) as [out st2] eqn:Hrun end.
    cbn [snd] in *.
    split.
    + apply trace_exit_extends; [eauto using extends_trans | lia].
    + destruct (trace_exit_eq (length (trace_store st)) out st2) as (r & rqs & -> & _).
      cbn in *. congruence.
  - unfold bind, attempt. pose proof (span_enter_extends name span_type attributes st) as H0.
    rewrite span_enter_eq in *. cbn [snd] in H0. cbn zeta in *.
    match goal with |- context [run rt p ?s] => destruct (IHp s) as [H1 S1];
      destruct (run rt p s) as [out st2] eqn:Hrun end.
    cbn [snd] in *.
    split.
    + apply span_exit_extends; [eauto using extends_trans | lia].
    + rewrite span_exit_eq. cbn zeta. cbn in S1. rewrite S1.
      destruct (_current_span_stack (self st) ++ [length (span_store st)]) eqn:E.
      * destruct (_current_span_stack (self st)); discriminate.
      * cbn [snd self set_span_stack _current_span_stack]. rewrite <- E.
        apply removelast_last.
  - split; [apply add_security_signal_extends|].
    unfold add_security_signal, bind, get, new_uuid, now, update_trace, modify, ret.
    destruct (_current_trace (self st)); reflexivity.
  - unfold bind.
    pose proof (check_tool_access_objects tool_name tool_params session_id st) as H.
    destruct (check_tool_access rt tool_name tool_params session_id st) as [[d|e] st1];
      cbn in *; (split; [by apply same_objects_extends | destruct H as [-> _]; reflexivity]).
Qed.

Lemma dict_get_set_eq {A} k (v : A) d : dict_get k (dict_set k v d) = Some v.
Proof.
  induction d as [|[k' v'] d IH]; cbn.
  - by rewrite String.eqb_refl.
  - destruct (String.eqb k k') eqn:E; cbn; rewrite ?String.eqb_refl, ?E; auto.
Qed.

(** *** Whole scopes *)

Lemma run_with_trace sid uid md body st :
  run rt (PWithTrace sid uid md body) st =
    trace_exit rt (length (trace_store st))
      (fst (run rt body (snd (trace_enter rt sid uid md st))))
      (snd (run rt body (snd (trace_enter rt sid uid md st)))).
Proof.
  cbn [run]. unfold bind, attempt. rewrite trace_enter_eq. cbn [snd].
  by destruct (run rt body _).
Qed.

Lemma run_with_span name ty attrs body st :
  run rt (PWithSpan name ty attrs body) st =
    span_exit rt (length (span_store st))
      (fst (run rt body (snd (span_enter rt name ty attrs st))))
      (snd (run rt body (snd (span_enter rt name ty attrs st)))).
Proof.
  cbn [run]. unfold bind, attempt. rewrite span_enter_eq. cbn [snd].
  by destruct (run rt body _).
Qed.


(** C4, amended. For a [span] scope around any body built from nested scopes:
    the new span is pushed on the stack; it is appended to the span list of
    the current trace when there is one and no trace changes when there is
    none; its [parent_span_id] is the id of the span that was on top of the
    stack, or none; on exit its [end_time] is set, its status is "completed"
    when the body returned and "error" with [attributes["error"]] set to
    [str(e)] when the body raised an instance [e] of [Exception]; the scope
    ends the way the body ended; and the stack is again what it was on entry,
    so it is empty after the outermost scope if it was empty before. *)
Theorem span_scope_closed (st : State) (name span_type : string)
    (attributes : option pydict) (body : Prog) :
  let span := length (span_store st) in
  let stack := _current_span_stack (self st) in
  let entered := snd (span_enter rt name span_type attributes st) in
  let outcome := fst (run rt body entered) in
  let result := run rt (PWithSpan name span_type attributes body) st in
  _current_span_stack (self entered) = stack ++ [span]
  /\ match _current_trace (self st) with
     | Some tr =>
         Trace.spans <$> trace_store entered !! tr
         = (fun x => Trace.spans x ++ [span]) <$> trace_store st !! tr
     | None => trace_store entered = trace_store st
     end
  /\ exists s t_end,
       span_store (snd result) !! span = Some s
       /\ Span.parent_span_id s =
            match last stack with
            | Some top => Span.span_id <$> span_store st !! top
            | None => None
            end
       /\ Span.end_time s = Some t_end
       /\ (outcome = Ret tt -> Span.status s = "completed")
       /\ (forall e, outcome = Raise e -> is_Exception e = true ->
             Span.status s = "error"
             /\ dict_get "error" (Span.attributes s) = Some (PyStr (exc_str e)))
       /\ fst result = outcome
       /\ _current_span_stack (self (snd result)) = stack.
Proof.
  intros span stack entered outcome result. subst span stack entered outcome result.
  rewrite run_with_span, span_enter_eq. cbn [snd]. cbn zeta.
  match goal with |- context [run rt body ?s] => set (st1 := s) end.
  split; [reflexivity|].
  split.
  { subst st1. cbn. destruct (_current_trace (self st)) as [tr|]; [|reflexivity].
    rewrite list_lookup_alter_eq. by destruct (trace_store st !! tr). }
  destruct (run_frame body st1) as [Hext Hstack].
  destruct (run rt body st1) as [out st2] eqn:Hrun. cbn [fst snd] in *.
  assert (Hs : span_store st2 !! length (span_store st) = span_store st1 !! length (span_store st)).
  { apply (ext_spans _ _ Hext). subst st1. cbn. rewrite length_app. cbn. lia. }
  subst st1. cbn in Hs, Hstack. rewrite list_lookup_middle in Hs by reflexivity.
  rewrite span_exit_eq. cbn zeta. rewrite Hstack.
  destruct (_current_span_stack (self st) ++ [length (span_store st)]) as [|n l] eqn:E.
  { destruct (_current_span_stack (self st)); discriminate. }
  rewrite <- E. cbn [fst snd span_store self set_span_stack _current_span_stack].
  eexists _, (utcnow rt (clock_calls st2)).
  split; [by rewrite list_lookup_alter_eq, Hs|].
  split; [by destruct out as [[]|e]; [|cbn; destruct (is_Exception e)]|].
  split; [reflexivity|].
  split; [intros ->; reflexivity|].
  split.
  { intros e -> He. cbn. rewrite He. cbn. split; [reflexivity | apply dict_get_set_eq]. }
  split; [reflexivity | apply removelast_last].
Qed.

(** C5, amended. Leaving a [span] scope pops the last element of the span
    stack without looking at which span it is: with a non-empty stack the
    exit ends the way the body ended and the stack has lost its top, whether
    or not that was the span being closed; only an empty stack makes the
    [pop] raise ([IndexError]). *)
Theorem span_exit_pops_top (st : State) (span : nat) (outcome : Result unit) :
  let result := span_exit rt span outcome st in
  match _current_span_stack (self st) with
  | [] => fst result = Raise (mkExc "IndexError" true "pop from empty list")
  | _ :: _ =>
      fst result = outcome
      /\ _current_span_stack (self (snd result))
         = removelast (_current_span_stack (self st))
  end.
Proof.
  cbn zeta. rewrite span_exit_eq. cbn zeta.
  destruct (_current_span_stack (self st)); cbn; auto.
Qed.

(** C10. With no current trace [add_security_signal] returns and the state is
    what it was.  With a current trace it returns, and that trace's signal
    list gains one signal at its end, carrying the given type, severity,
    title and description, the evidence as it was given (the empty
    dictionary when none was given) and [mitigated=False]; the other fields of the trace, the
    other traces, the spans, the guard and the requests sent stay as they
    were. *)
Theorem add_security_signal_appends (st : State) (signal_type : SignalType)
    (severity title description : string) (evidence : option pydict) :
  let result := add_security_signal rt signal_type severity title description evidence st in
  match _current_trace (self st) with
  | None => result = (Ret tt, st)
  | Some tr =>
      let signal :=
        SecuritySignal.mk (uuid4 rt (uuid_calls st)) signal_type severity title
          description
          match evidence with
          | Some given => given
          | None => []
          end
          (utcnow rt (clock_calls st)) false in
      fst result = Ret tt
      /\ trace_store (snd result)
         = alter (fun x => Trace.set_security_signals (Trace.security_signals x ++ [signal]) x)
                 tr (trace_store st)
      /\ span_store (snd result) = span_store st
      /\ self (snd result) = self st
      /\ sent (snd result) = sent st
  end.
Proof.
  cbn zeta. unfold add_security_signal, bind, get, new_uuid, now, update_trace, modify, ret.
  destruct (_current_trace (self st)); cbn; [|auto].
  by destruct evidence as [[|kv given]|].
Qed.
End Scopes.




Lemma span_scope_closed_witness :
  exists s t_end,
    span_store (snd (run (sample_runtime unreachable)
                         (PWithSpan "lookup" "tool" None (PRaise tool_failed))
                         fresh_guard)) !! 0 = Some s
    /\ Span.parent_span_id s = None
    /\ Span.end_time s = Some t_end
    /\ Span.status s = "error"
    /\ dict_get "error" (Span.attributes s) = Some (PyStr "tool failed").
Proof.
  destruct (span_scope_closed (sample_runtime unreachable) fresh_guard
              "lookup" "tool" None (PRaise tool_failed))
    as (_ & _ & s & t_end & Hs & Hparent & Hend & _ & Herror & _).
  exists s, t_end.
  split; [exact Hs|]. split; [exact Hparent|]. split; [exact Hend|].
  apply (Herror tool_failed); reflexivity.
Defined.

(** C4 as stated fails: a span whose body is cancelled is closed with its
    status still "running". *)
Lemma cancelled_span_stays_running :
  (Span.status <$> span_store cancelled_span !! 0) = Some "running"
  /\ (Span.end_time <$> span_store cancelled_span !! 0) = Some (Some 1000%Z)
  /\ _current_span_stack (self cancelled_span) = [].
Proof. repeat split. Qed.

(** C5 as stated fails: with spans 0 and 1 open, 1 on top, closing span 0
    raises nothing, removes span 1 from the stack and leaves span 0 on it. *)
Lemma closing_a_span_below_the_top :
  _current_span_stack (self two_open_spans) = [0; 1]
  /\ fst (span_exit offline 0 (Ret tt) two_open_spans) = Ret tt
  /\ _current_span_stack (self (snd (span_exit offline 0 (Ret tt) two_open_spans))) = [0]
  /\ (Span.status <$> span_store (snd (span_exit offline 0 (Ret tt) two_open_spans)) !! 1)
     = Some "running".
Proof. repeat split. Qed.

(** ** Several tasks on one guard *)

Section Interleaving.
Context (rt : Runtime).

Lemma span_list_after_cases c st t before :
  span_list_after c st t before = before
  \/ (exists name span_type attributes, c = CallSpanEnter name span_type attributes)
     /\ _current_trace (self st) = Some t
     /\ span_list_after c st t before = before ++ [length (span_store st)].
Proof.
  destruct c as [| |name ty attrs| |]; cbn [span_list_after]; auto.
  destruct (_current_trace (self st)) as [current|]; [|auto].
  destruct (Nat.eqb current t) eqn:E; [|auto].
  apply Nat.eqb_eq in E. subst current. right. eauto 10.
Qed.

Lemma call_span_lists c st :
  let st' := snd (call rt c st) in
  length (span_store st) <= length (span_store st')
  /\ (forall t x, trace_store st !! t = Some x ->
        exists x', trace_store st' !! t = Some x'
                   /\ Trace.spans x' = span_list_after c st t (Trace.spans x))
  /\ (forall t x', trace_store st' !! t = Some x' ->
        (exists x, trace_store st !! t = Some x
                   /\ Trace.spans x' = span_list_after c st t (Trace.spans x))
        \/ Trace.spans x' = [])
  /\ ((exists name span_type attributes, c = CallSpanEnter name span_type attributes) ->
      length (span_store st) < length (span_store st')).
Proof.
  cbn zeta. destruct c as [sid uid md | tr out | name ty attrs | sp out | ty sev ti de ev];
    cbn [call span_list_after].
  - unfold bind. rewrite trace_enter_eq. cbn.
    split; [lia|]. split; [|split].
    + intros t x Hx. exists x. split; [|done].
      rewrite lookup_app_l; [done | by eapply lookup_lt_Some].
    + intros t x' Hx'. apply lookup_app_Some in Hx' as [Hx'|[_ Hx']].
      * left. exists x'. by split.
      * right. destruct (t - length (trace_store st)) as [|k]; cbn in Hx'; [|by destruct k].
        by inversion Hx'.
    + intros (? & ? & ? & [=]).
  - destruct (trace_exit_eq rt tr out st) as (r & rqs & -> & _). cbn.
    assert (Hsp : forall x, Trace.spans (close_trace out (utcnow rt (clock_calls st)) x) = Trace.spans x).
    { intros x. destruct out as [[]|e]; [|cbn; destruct (is_Exception e)]; reflexivity. }
    split; [lia|]. split; [|split].
    + intros t x Hx. destruct (decide (tr = t)) as [->|Hne].
      * eexists. rewrite list_lookup_alter_eq, Hx. split; [done|]. apply Hsp.
      * exists x. rewrite list_lookup_alter_ne by done. by split.
    + intros t x' Hx'. left. destruct (decide (tr = t)) as [->|Hne].
      * rewrite list_lookup_alter_eq in Hx'.
        destruct (trace_store st !! t) as [x|]; [|done]. inversion Hx'; subst.
        exists x. split; [done|]. apply Hsp.
      * rewrite list_lookup_alter_ne in Hx' by done. exists x'. by split.
    + intros (? & ? & ? & [=]).
  - unfold bind. rewrite span_enter_eq. cbn.
    split; [rewrite length_app; lia|]. split; [|split].
    + intros t x Hx. destruct (_current_trace (self st)) as [tr|] eqn:Hcur.
      * destruct (decide (tr = t)) as [->|Hne].
        -- eexists. rewrite list_lookup_alter_eq, Hx. split; [done|].
           by rewrite Nat.eqb_refl.
        -- exists x. rewrite list_lookup_alter_ne by done. split; [done|].
           by rewrite (proj2 (Nat.eqb_neq tr t) Hne).
      * exists x. by split.
    + intros t x' Hx'. left. destruct (_current_trace (self st)) as [tr|] eqn:Hcur.
      * destruct (decide (tr = t)) as [->|Hne].
        -- rewrite list_lookup_alter_eq in Hx'.
           destruct (trace_store st !! t) as [x|]; [|done]. inversion Hx'; subst.
           exists x. split; [done|]. by rewrite Nat.eqb_refl.
        -- rewrite list_lookup_alter_ne in Hx' by done. exists x'. split; [done|].
           by rewrite (proj2 (Nat.eqb_neq tr t) Hne).
      * exists x'. by split.
    + intros _. rewrite length_app. cbn. lia.
  - rewrite span_exit_eq. cbn zeta.
    destruct (_current_span_stack (self st)); cbn; rewrite length_alter;
      (split; [lia|]); (split; [|split]);
      try (intros t x Hx; exists x; by split);
      try (intros t x' Hx'; left; exists x'; by split);
      intros (? & ? & ? & [=]).
  - unfold add_security_signal, bind, get, new_uuid, now, update_trace, modify, ret.
    destruct (_current_trace (self st)) as [tr|]; cbn.
    + split; [lia|]. split; [|split].
      * intros t x Hx. destruct (decide (tr = t)) as [->|Hne].
        -- eexists. rewrite list_lookup_alter_eq, Hx. by split.
        -- exists x. rewrite list_lookup_alter_ne by done. by split.
      * intros t x' Hx'. left. destruct (decide (tr = t)) as [->|Hne].
        -- rewrite list_lookup_alter_eq in Hx'.
           destruct (trace_store st !! t) as [x|]; [|done]. inversion Hx'; subst.
           exists x. by split.
        -- rewrite list_lookup_alter_ne in Hx' by done. exists x'. by split.
      * intros (? & ? & ? & [=]).
    + split; [lia|]. split; [|split].
      * intros t x Hx. exists x. by split.
      * intros t x' Hx'. left. exists x'. by split.
      * intros (? & ? & ? & [=]).
Qed.

Lemma call_keeps_span_lists_apart c st :
  spans_in_store st -> spans_disjoint st ->
  spans_in_store (snd (call rt c st)) /\ spans_disjoint (snd (call rt c st)).
Proof.
  intros Hin Hdis.
  destruct (call_span_lists c st) as (Hlen & _ & Hback & Hgrow).
  assert (Hin' : spans_in_store (snd (call rt c st))).
  { intros t x' l Hx' Hl. destruct (Hback _ _ Hx') as [(x & Hx & Hstep)|Hnil].
    - rewrite Hstep in Hl.
      destruct (span_list_after_cases c st t (Trace.spans x)) as [E|(Hc & _ & E)];
        rewrite E in Hl.
      + specialize (Hin _ _ _ Hx Hl). lia.
      + specialize (Hgrow Hc). apply elem_of_app in Hl as [Hl|Hl].
        * specialize (Hin _ _ _ Hx Hl). lia.
        * apply list_elem_of_singleton in Hl. lia.
    - rewrite Hnil in Hl. by apply elem_of_nil in Hl. }
  split; [exact Hin'|].
  intros t1 t2 x1' x2' l Hne H1 H2 Hl1 Hl2.
  destruct (Hback _ _ H1) as [(x1 & Hx1 & Hs1)|Hnil]; [|rewrite Hnil in Hl1; by apply elem_of_nil in Hl1].
  destruct (Hback _ _ H2) as [(x2 & Hx2 & Hs2)|Hnil]; [|rewrite Hnil in Hl2; by apply elem_of_nil in Hl2].
  rewrite Hs1 in Hl1. rewrite Hs2 in Hl2.
  destruct (span_list_after_cases c st t1 (Trace.spans x1)) as [E1|(_ & Hc1 & E1)],
           (span_list_after_cases c st t2 (Trace.spans x2)) as [E2|(_ & Hc2 & E2)];
    rewrite E1 in Hl1; rewrite E2 in Hl2.
  - exact (Hdis _ _ _ _ _ Hne Hx1 Hx2 Hl1 Hl2).
  - apply elem_of_app in Hl2 as [Hl2|Hl2]; [exact (Hdis _ _ _ _ _ Hne Hx1 Hx2 Hl1 Hl2)|].
    apply list_elem_of_singleton in Hl2. specialize (Hin _ _ _ Hx1 Hl1). lia.
  - apply elem_of_app in Hl1 as [Hl1|Hl1]; [exact (Hdis _ _ _ _ _ Hne Hx1 Hx2 Hl1 Hl2)|].
    apply list_elem_of_singleton in Hl1. specialize (Hin _ _ _ Hx2 Hl2). lia.
  - congruence.
Qed.

Lemma calls_keep_span_lists_apart cs : forall st,
  spans_in_store st -> spans_disjoint st ->
  spans_in_store (calls rt cs st) /\ spans_disjoint (calls rt cs st).
Proof.
  induction cs as [|c cs IH]; intros st Hin Hdis; [done|].
  cbn. destruct (call_keeps_span_lists_apart c st Hin Hdis). by apply IH.
Qed.

(** Which trace is current after a sequence of calls. *)
Lemma calls_current_trace cs : forall st,
  _current_trace (self (calls rt cs st))
  = current_trace_after cs (length (trace_store st)) (_current_trace (self st)).
Proof.
  induction cs as [|c cs IH]; intros st; [reflexivity|].
  cbn [calls fold_left]. fold (calls rt cs (snd (call rt c st))). rewrite IH.
  destruct c as [sid uid md | tr out | name ty attrs | sp out | ty sev ti de ev];
    cbn [call current_trace_after].
  - unfold bind. rewrite trace_enter_eq. cbn. rewrite length_app. cbn.
    by rewrite Nat.add_1_r.
  - destruct (trace_exit_eq rt tr out st) as (r & rqs & -> & _). cbn.
    by rewrite length_alter.
  - unfold bind. rewrite span_enter_eq. cbn.
    destruct (_current_trace (self st)); [by rewrite length_alter | done].
  - rewrite span_exit_eq. cbn zeta. by destruct (_current_span_stack (self st)).
  - unfold add_security_signal, bind, get, new_uuid, now, update_trace, modify, ret.
    destruct (_current_trace (self st)) eqn:E; cbn; rewrite ?length_alter, ?E; reflexivity.
Qed.

(** C7, amended. However the calls of several tasks interleave on one guard,
    two traces never have a span in common: the entry of a [span] scope
    appends the span just created to the span list of the trace that is the
    guard's current trace at that moment, and to no list when no trace is
    current; no other call changes a span list.  Which trace is current
    depends on the guard alone, since the current trace and the span stack
    are attributes of the guard, one pair for all the tasks that use it: it
    is the trace begun last if no [trace] scope has been left since, whichever
    task began it, and none otherwise, because leaving any [trace] scope
    clears the binding. *)
Theorem traces_never_share_spans (g : AgentGuard) (cs : list Call) :
  let st := calls rt cs (initial_state g) in
  (forall t1 t2 x1 x2 l, t1 <> t2 ->
     trace_store st !! t1 = Some x1 -> trace_store st !! t2 = Some x2 ->
     l ∈ Trace.spans x1 -> l ∉ Trace.spans x2)
  /\ (forall c t x, trace_store st !! t = Some x ->
        exists x', trace_store (snd (call rt c st)) !! t = Some x'
                   /\ Trace.spans x' = span_list_after c st t (Trace.spans x))
  /\ _current_trace (self st) = current_trace_after cs 0 (_current_trace g).
Proof.
  cbn zeta. split; [|split].
  - apply calls_keep_span_lists_apart.
    + intros t x l H. cbn in H. by rewrite lookup_nil in H.
    + intros t1 t2 x1 x2 l _ H. cbn in H. by rewrite lookup_nil in H.
  - intros c t x Hx. by apply call_span_lists.
  - apply calls_current_trace.
Qed.
End Interleaving.

(** Two tasks have begun a trace each on one guard.  The span the first task
    opens is in the second task's trace and not in its own; once the second
    task has left its trace no trace is current, and the next span the first
    task opens is in neither. *)
Lemma traces_never_share_spans_witness :
  let st := calls offline second_task_left (initial_state (AgentGuard_init "agent-1" None None)) in
  let st' := snd (call offline (CallSpanEnter "answer" "llm" None) st) in
  exists x1 x2,
    trace_store st !! 0 = Some x1
    /\ trace_store st !! 1 = Some x2
    /\ 0 ∈ Trace.spans x2
    /\ (0 ∉ Trace.spans x1)
    /\ _current_trace (self st) = None
    /\ (exists x1', trace_store st' !! 0 = Some x1' /\ Trace.spans x1' = Trace.spans x1)
    /\ (exists x2', trace_store st' !! 1 = Some x2' /\ Trace.spans x2' = Trace.spans x2).
Proof.
  cbv zeta.
  destruct (traces_never_share_spans offline (AgentGuard_init "agent-1" None None)
              second_task_left) as (Hapart & Hstep & Hcurrent).
  set (st := calls offline second_task_left _) in *.
  assert (E1 : trace_store st !! 0
               = Some (Trace.mk "uuid-0" "agent-1" "session-1" None 0%Z None "running"
                         [] [] [])) by (vm_compute; reflexivity).
  assert (E2 : trace_store st !! 1
               = Some (Trace.mk "uuid-1" "agent-1" "session-2" None 1000%Z (Some 4000%Z)
                         "completed" [0] [] [])) by (vm_compute; reflexivity).
  do 2 eexists. split; [exact E1|]. split; [exact E2|].
  split; [apply list_elem_of_here|].
  split; [apply (Hapart 1 0 _ _ 0 (ltac:(lia)) E2 E1); apply list_elem_of_here|].
  split; [exact Hcurrent|].
  split.
  - destruct (Hstep (CallSpanEnter "answer" "llm" None) 0 _ E1) as (x1' & Hx1' & Hs).
    exists x1'. split; [exact Hx1'|]. rewrite Hs. cbn [span_list_after]. by rewrite Hcurrent.
  - destruct (Hstep (CallSpanEnter "answer" "llm" None) 1 _ E2) as (x2' & Hx2' & Hs).
    exists x2'. split; [exact Hx2'|]. rewrite Hs. cbn [span_list_after]. by rewrite Hcurrent.
Defined.

(** C7 as stated fails: the current trace is not per-invocation state.  With
    two invocations interleaved on one guard, the span the first one opens
    lands in the second one's trace; with a context per invocation it would
    be in the first one's. *)
Lemma concurrent_traces_cross_talk :
  map Trace.spans (trace_store (calls offline (map snd two_invocations) fresh_guard))
    = [[]; [0]]
  /\ map Trace.spans
       (trace_store (snd (per_invocation_calls offline two_invocations (∅, fresh_guard))))
    = [[0]; []].
Proof. split; reflexivity. Qed.

(** ** Regular expressions *)

(** The matcher finds a match exactly when there is one. *)
Lemma rep_match_spec cs k s : forall lo hi prev,
  rep_match cs lo hi k prev s = true <->
  exists n prev' s',
    lo <= n /\ (forall h, hi = Some h -> n <= h)
    /\ repeats cs n prev s prev' s' /\ k prev' s' = true.
Proof.
  induction s as [|c s IH]; intros lo hi prev; cbn [rep_match].
  - split.
    + destruct lo; [|discriminate]. destruct (k prev "") eqn:Hk; [|discriminate].
      intros _. exists 0, prev, "". repeat split; auto using repeats_O; lia.
    + intros (n & prev' & s' & Hlo & Hhi & Hrep & Hk).
      inversion Hrep; subst. assert (lo = 0) as -> by lia. by rewrite Hk.
  - split.
    + destruct (match lo with 0 => k prev (String c s) | S _ => false end) eqn:Hfirst.
      * intros _. destruct lo; [|discriminate].
        exists 0, prev, (String c s). repeat split; auto using repeats_O; lia.
      * intros H.
        assert (Hhi0 : hi <> Some 0) by (intros ->; discriminate).
        assert (Hrec : (if cs c then rep_match cs (Nat.pred lo) (Nat.pred <$> hi) k (Some c) s
                        else false) = true).
        { destruct hi as [[|h]|]; [done| |]; exact H. }
        destruct (cs c) eqn:Hc; [|discriminate].
        apply IH in Hrec as (n & prev' & s' & Hlo & Hhi & Hrep & Hk).
        exists (S n), prev', s'. split; [lia|]. split.
        { intros h ->. destruct h as [|h]; [done|]. specialize (Hhi h eq_refl). lia. }
        split; [by constructor | done].
    + intros (n & prev' & s' & Hlo & Hhi & Hrep & Hk).
      inversion Hrep as [|m ? ? ? ? ? Hc Hrest]; subst.
      * assert (lo = 0) as -> by lia. by rewrite Hk.
      * destruct (match lo with 0 => k prev (String c s) | S _ => false end); [done|].
        assert (Hrec : rep_match cs (Nat.pred lo) (Nat.pred <$> hi) k (Some c) s = true).
        { apply IH. exists m, prev', s'. split; [lia|]. split; [|done].
          intros h Hh. destruct hi as [h0|]; [|done]. cbn in Hh. inversion Hh; subst.
          specialize (Hhi h0 eq_refl). lia. }
        rewrite Hc, Hrec. destruct hi as [[|h]|]; [|done|done].
        specialize (Hhi 0 eq_refl). lia.
Qed.

Lemma rmatch_spec r : forall k prev s,
  rmatch r k prev s = true <->
  exists prev' s', matches r prev s prev' s' /\ k prev' s' = true.
Proof.
  induction r as [|cs|cs lo hi|r1 IH1 r2 IH2|r1 IH1 r2 IH2|]; intros k prev s; cbn [rmatch].
  - split; [intros H; eauto using matches|].
    intros (p & s' & Hm & Hk). by inversion Hm; subst.
  - split.
    + destruct s as [|c s]; [discriminate|]. destruct (cs c) eqn:Hc; [|discriminate].
      intros H. eauto using matches.
    + intros (p & s' & Hm & Hk). inversion Hm as [|? ? ? ? Hc| | | | |]; subst. by rewrite Hc.
  - rewrite rep_match_spec. split.
    + intros (n & p & s' & Hlo & Hhi & Hrep & Hk). eauto 6 using matches.
    + intros (p & s' & Hm & Hk). inversion Hm; subst. eauto 10.
  - rewrite IH1. split.
    + intros (p1 & s1 & Hm1 & H2). apply IH2 in H2 as (p & s' & Hm2 & Hk).
      eauto using matches.
    + intros (p & s' & Hm & Hk). inversion Hm; subst.
      exists prev1, s1. split; [done|]. apply IH2. eauto.
  - split.
    + destruct (rmatch r1 k prev s) eqn:H1.
      * intros _. apply IH1 in H1 as (p & s' & Hm & Hk). eauto using matches.
      * intros H2. apply IH2 in H2 as (p & s' & Hm & Hk). eauto using matches.
    + intros (p & s' & Hm & Hk). inversion Hm; subst.
      * assert (H1 : rmatch r1 k prev s = true) by (apply IH1; eauto). by rewrite H1.
      * destruct (rmatch r1 k prev s); [done|]. apply IH2. eauto.
  - split.
    + destruct (at_boundary prev s) eqn:Hb; [|discriminate]. eauto using matches.
    + intros (p & s' & Hm & Hk). inversion Hm as [| | | | | |? ? Hb]; subst. by rewrite Hb.
Qed.

Lemma search_from_spec r s : forall prev,
  search_from r prev s = true <->
  exists p t prev' s', (p, t) ∈ positions prev s /\ matches r p t prev' s'.
Proof.
  induction s as [|c s IH]; intros prev; cbn [search_from positions].
  - split.
    + destruct (rmatch r _ prev "") eqn:H; [|discriminate]. intros _.
      apply rmatch_spec in H as (p & s' & Hm & _).
      exists prev, "", p, s'. split; [apply list_elem_of_here | done].
    + intros (p & t & p' & s' & Hin & Hm). apply list_elem_of_singleton in Hin.
      inversion Hin; subst.
      assert (H : rmatch r (fun _ _ => true) prev "" = true) by (apply rmatch_spec; eauto).
      by rewrite H.
  - split.
    + destruct (rmatch r _ prev (String c s)) eqn:H.
      * intros _. apply rmatch_spec in H as (p & s' & Hm & _).
        exists prev, (String c s), p, s'. split; [apply list_elem_of_here | done].
      * intros H'. apply IH in H' as (p & t & p' & s' & Hin & Hm).
        exists p, t, p', s'. split; [by apply list_elem_of_further | done].
    + intros (p & t & p' & s' & Hin & Hm).
      apply elem_of_cons in Hin as [Hin|Hin].
      * inversion Hin; subst.
        assert (H : rmatch r (fun _ _ => true) prev (String c s) = true)
          by (apply rmatch_spec; eauto).
        by rewrite H.
      * destruct (rmatch r _ prev (String c s)); [done|]. apply IH. eauto 6.
Qed.

(** ** SecurityEnricher *)

Section EnricherProperties.
Context (rt : Runtime).

Lemma scan_injection_content patterns prompt acc st :
  exists sigs st',
    scan_injection rt patterns prompt acc st = (Ret sigs, st')
    /\ map signal_content sigs =
         map signal_content acc ++
         match find (fun p => search (regex p) prompt) patterns with
         | Some p =>
             [ (INJECTION_ATTEMPT, "high", "Potential Prompt Injection Detected",
                "Pattern matched: " +:+ pattern p,
                [ ("prompt_snippet", PyStr (prefix 200 prompt)); ("pattern", PyStr (pattern p)) ],
                false) ]
         | None => []
         end.
Proof.
  induction patterns as [|p rest IH]; cbn.
  - do 2 eexists. split; [reflexivity|]. by rewrite app_nil_r.
  - destruct (search (regex p) prompt).
    + do 2 eexists. split; [reflexivity|]. by rewrite map_app.
    + apply IH.
Qed.

Lemma scan_pii_content patterns prompt : forall acc st,
  exists sigs st',
    scan_pii rt patterns prompt acc st = (Ret sigs, st')
    /\ map signal_content sigs =
         map signal_content acc ++
         map (fun kp : string * Pattern =>
                (DATA_EXFILTRATION, "medium",
                 "Potential " +:+ str_upper (fst kp) +:+ " in Prompt",
                 "Detected " +:+ fst kp +:+ " pattern in user input",
                 [ ("pii_type", PyStr (fst kp)) ], false))
             (filter (fun kp : string * Pattern => search (regex (snd kp)) prompt = true) patterns).
Proof.
  induction patterns as [|[k p] rest IH]; intros acc st; cbn [scan_pii].
  - do 2 eexists. split; [reflexivity|]. cbn. by rewrite app_nil_r.
  - rewrite filter_cons. cbn [snd fst]. 
    destruct (search (regex p) prompt) eqn:E.
    + rewrite decide_True by done.
      unfold bind, new_uuid, now. cbn.
      match goal with |- context [scan_pii rt rest prompt ?a ?s] =>
        destruct (IH a s) as (sigs & st' & -> & Hc) end.
      exists sigs, st'. split; [reflexivity|]. rewrite Hc, map_app, <- app_assoc. reflexivity.
    + rewrite decide_False by done. apply IH.
Qed.




End EnricherProperties.



(** ** LangfuseExporter *)

Section ExporterProperties.
Context (rt : Runtime).

(** One request followed by [raise_for_status]. *)
Lemma post_and_check path payload st :
  let m := (response <- client_post rt path payload ;; raise_for_status response) in
  snd (m st) = with_sent st (sent st ++ [mkRequest path payload])
  /\ (always_succeeds rt -> fst (m st) = Ret tt).
Proof.
  cbn zeta. unfold bind, client_post, raise_for_status.
  split.
  - destruct (post rt _ _) as [r|e]; [|reflexivity].
    by destruct ((200 <=? status_code r)%Z && (status_code r <=? 299)%Z).
  - intros Hok. destruct (Hok (length (sent st)) (mkRequest path payload)) as (r & -> & ->).
    reflexivity.
Qed.

Lemma for_each_requests {A} (f : A -> M unit) (req : A -> Request) (l : list A) :
  (forall x st, snd (f x st) = with_sent st (sent st ++ [req x])) ->
  forall st,
    (exists k, k <= length l
               /\ snd (for_each f l st) = with_sent st (sent st ++ take k (map req l))
               /\ (fst (for_each f l st) = Ret tt -> k = length l))
    /\ ((forall x st, fst (f x st) = Ret tt) ->
        for_each f l st = (Ret tt, with_sent st (sent st ++ map req l))).
Proof.
  intros Hf. induction l as [|x l IH]; intros st; cbn [for_each map].
  - split; [exists 0; split; [done|split; [|done]]|intros _]; unfold ret; cbn;
      rewrite app_nil_r; by destruct st.
  - unfold bind. specialize (Hf x st). split.
    + destruct (f x st) as [[[]|e] st1]; cbn in Hf; subst st1.
      * destruct (IH (with_sent st (sent st ++ [req x]))) as [(k & Hle & Hk & Hlen) _].
        exists (S k). rewrite Hk. cbn. rewrite <- app_assoc. split; [lia|]. split; [done|].
        intros H. specialize (Hlen H). lia.
      * exists 1. cbn. split; [lia|]. split; [done|]. discriminate.
    + intros Hok. specialize (Hok x st) as Hx.
      destruct (f x st) as [r st1]; cbn in Hf, Hx; subst.
      destruct (IH (with_sent st (sent st ++ [req x]))) as [_ Hall].
      rewrite (Hall Hok). cbn. by rewrite <- app_assoc.
Qed.

Lemma export_span_state trace_id x st :
  snd (_export_span rt trace_id x st) = with_sent st (sent st ++ [span_request rt trace_id x]).
Proof. apply post_and_check. Qed.

Lemma export_signal_state trace_id x st :
  snd (_export_security_signal rt trace_id x st)
  = with_sent st (sent st ++ [signal_request trace_id x]).
Proof. apply post_and_check. Qed.

Lemma dict_get_set_ne {A} k k' (v : A) d :
  k <> k' -> dict_get k (dict_set k' v d) = dict_get k d.
Proof.
  intros Hne. induction d as [|[k0 v0] d IH]; cbn.
  - by rewrite (proj2 (String.eqb_neq k k')).
  - destruct (String.eqb k' k0) eqn:E; cbn.
    + apply String.eqb_eq in E. subst k0.
      by rewrite (proj2 (String.eqb_neq k k')).
    + destruct (String.eqb k k0); auto.
Qed.

Lemma span_payload_parent trace_id span :
  dict_get "parentObservationId" (span_payload rt trace_id span)
  = Some (opt_str (Span.parent_span_id span)).
Proof.
  unfold span_payload.
  destruct (String.eqb (Span.type span) "llm" && _); [|reflexivity].
  rewrite !dict_get_set_ne by discriminate. reflexivity.
Qed.

(** C9. [export_trace] sends the trace-level request first, then one request
    per span in the order of the trace's span list, then one per security
    signal: what it has sent when it ends is always an initial part of that
    sequence holding the trace-level request at least, and the whole of it,
    with nothing raised, when every request is answered with a success
    status.  For a trace with a root span and a child span, these are the
    trace-level request, the root's, the child's and those of the signals,
    and the child's request carries the root's [span_id] as
    [parentObservationId]. *)
Theorem export_trace_requests (st : State) (trace : Trace.t) :
  let result := export_trace rt trace st in
  (exists k, 1 <= k
     /\ sent (snd result) = sent st ++ take k (export_requests rt st trace))
  /\ (always_succeeds rt ->
      result = (Ret tt, with_sent st (sent st ++ export_requests rt st trace)))
  /\ (forall root child,
        spans_at st (Trace.spans trace) = [root; child] ->
        Span.parent_span_id child = Some (Span.span_id root) ->
        export_requests rt st trace
        = mkRequest "/api/public/traces" (trace_payload trace)
          :: span_request rt (Trace.trace_id trace) root
          :: span_request rt (Trace.trace_id trace) child
          :: map (signal_request (Trace.trace_id trace)) (Trace.security_signals trace)
        /\ dict_get "parentObservationId"
             (req_json (span_request rt (Trace.trace_id trace) child))
           = Some (PyStr (Span.span_id root))).
Proof.
  cbn zeta.
  set (tid := Trace.trace_id trace).
  set (rq0 := mkRequest "/api/public/traces" (trace_payload trace)).
  set (spans := spans_at st (Trace.spans trace)).
  set (st1 := with_sent st (sent st ++ [rq0])).
  assert (Hspans : forall s, spans_at (with_sent st s) (Trace.spans trace) = spans) by reflexivity.
  split; [|split].
  - unfold export_trace, bind at 1, client_post. fold rq0. fold st1.
    destruct (post rt (length (sent st)) rq0) as [r|e].
    2:{ exists 1. split; [lia|]. reflexivity. }
    unfold bind at 1, raise_for_status.
    destruct ((200 <=? status_code r)%Z && (status_code r <=? 299)%Z).
    2:{ exists 1. split; [lia|]. reflexivity. }
    cbn [ret]. unfold bind at 1, get. unfold bind. fold tid.
    change (mkState (self st) (span_store st) (trace_store st) (uuid_calls st)
              (clock_calls st) (sent st ++ [rq0])) with st1.
    change (spans_at st1 (Trace.spans trace)) with spans.
    destruct (for_each_requests (_export_span rt tid) (span_request rt tid) spans
                (export_span_state tid) st1) as [(k1 & Hle1 & Hk1 & Hl1) _].
    destruct (for_each (_export_span rt tid) spans st1) as [[[]|e] st2] eqn:E1;
      cbn [fst snd] in *; subst st2.
    + destruct (for_each_requests (_export_security_signal rt tid) (signal_request tid)
                  (Trace.security_signals trace) (export_signal_state tid)
                  (with_sent st1 (sent st1 ++ take k1 (map (span_request rt tid) spans))))
        as [(k2 & _ & Hk2 & _) _].
      rewrite Hk2. cbn [snd sent with_sent st1].
      exists (S (length spans + k2)). split; [lia|].
      unfold export_requests. fold tid rq0 spans. cbn [take].
      rewrite take_app_ge by (rewrite length_map; lia).
      rewrite length_map. replace (length spans + k2 - length spans) with k2 by lia.
      rewrite (Hl1 eq_refl), (take_ge (map _ spans)) by (rewrite length_map; lia).
      by rewrite <- !app_assoc.
    + exists (S k1). split; [lia|]. cbn [snd sent with_sent st1].
      unfold export_requests. fold tid rq0 spans. cbn [take].
      rewrite take_app_le by (rewrite length_map; lia). by rewrite <- app_assoc.
  - intros Hok.
    assert (Hspan : forall x s, fst (_export_span rt tid x s) = Ret tt)
      by (intros x s; by apply post_and_check).
    assert (Hsig : forall x s, fst (_export_security_signal rt tid x s) = Ret tt)
      by (intros x s; by apply post_and_check).
    unfold export_trace, bind at 1, client_post. fold rq0. fold st1.
    destruct (Hok (length (sent st)) rq0) as (r & -> & Hr).
    unfold bind at 1, raise_for_status. rewrite Hr.
    cbn [ret]. unfold bind at 1, get. unfold bind. fold tid.
    change (mkState (self st) (span_store st) (trace_store st) (uuid_calls st)
              (clock_calls st) (sent st ++ [rq0])) with st1.
    change (spans_at st1 (Trace.spans trace)) with spans.
    destruct (for_each_requests (_export_span rt tid) (span_request rt tid) spans
                (export_span_state tid) st1) as [_ ->]; [|exact Hspan].
    match goal with |- context [for_each _ _ ?s] =>
      destruct (for_each_requests (_export_security_signal rt tid) (signal_request tid)
                  (Trace.security_signals trace) (export_signal_state tid) s) as [_ ->];
        [|exact Hsig] end.
    unfold export_requests. fold tid rq0 spans. cbn. by rewrite <- !app_assoc.
  - intros root child Hsp Hparent. unfold export_requests. fold spans in Hsp. fold tid rq0 spans.
    rewrite Hsp. split; [reflexivity|].
    cbn [span_request req_json]. by rewrite span_payload_parent, Hparent.
Qed.
End ExporterProperties.

Lemma export_trace_requests_witness :
  export_trace (sample_runtime accepting) finished_trace finished_state
  = (Ret tt,
     with_sent finished_state
       [ mkRequest "/api/public/traces" (trace_payload finished_trace);
         span_request (sample_runtime accepting) "trace-1" root_span;
         span_request (sample_runtime accepting) "trace-1" child_span;
         signal_request "trace-1" pii_signal ])
  /\ dict_get "parentObservationId"
       (req_json (span_request (sample_runtime accepting) "trace-1" child_span))
     = Some (PyStr "span-root").
Proof.
  destruct (export_trace_requests (sample_runtime accepting) finished_state finished_trace)
    as (_ & Hall & Hchild).
  split.
  - rewrite Hall; [reflexivity|].
    intros n rq. eexists. split; reflexivity.
  - apply (Hchild root_span child_span); reflexivity.
Defined.

(** * Further properties *)

(** ** Policy checks, continued *)

Section MorePolicyChecks.
Context (rt : Runtime).

(** What [pre_invoke] does to the state, whatever it returns: one clock
    reading and one request. *)
Lemma pre_invoke_state aid tool params sid st :
  exists rq,
    snd (pre_invoke rt aid tool params sid st)
    = mkState (self st) (span_store st) (trace_store st) (uuid_calls st)
              (S (clock_calls st)) (sent st ++ [rq])
    /\ req_path rq = "/api/v1/sdk/pre-invoke".
Proof.
  unfold pre_invoke. unfold bind at 1, now.
  eexists. rewrite bind_stateless.
  - unfold client_post. cbn. split; reflexivity.
  - intros resp. apply stateless_bind; [apply stateless_raise_for_status|]. intros _.
    apply stateless_bind; [by intros ?|]. intros data.
    apply stateless_bind; [apply stateless_data_get|]. intros allow.
    apply stateless_bind; [apply stateless_data_get|]. intros dv.
    apply stateless_bind; [apply stateless_DecisionType_of_value|]. intros dec.
    apply stateless_bind; [apply stateless_data_get|]. intros reasons.
    by intros ?.
Qed.

Lemma session_id_chosen (session_id : option string) (st : State) :
  exists sid st1,
    match session_id with
    | Some s => if String.eqb s "" then new_uuid rt else ret s
    | None => new_uuid rt
    end st = (Ret sid, st1)
    /\ sent st1 = sent st /\ self st1 = self st
    /\ span_store st1 = span_store st /\ trace_store st1 = trace_store st.
Proof.
  destruct session_id as [s|]; [destruct (String.eqb s "")|];
    cbv [new_uuid ret]; do 2 eexists; (split; [reflexivity|]); auto.
Qed.

(** X1. [check_tool_access] never lets an [Exception] out: whatever the
    transport does and whatever the response holds, it returns a decision, or
    passes on something that is not an [Exception] (a cancellation).  It makes
    one attempt at most: no request for a disabled guard, one otherwise, to
    the pre-invoke endpoint; and it leaves the guard, the spans and the traces
    alone. *)
Theorem check_tool_access_is_contained (st : State)
    (tool_name : string) (tool_params : option pydict) (session_id : option string) :
  let result := check_tool_access rt tool_name tool_params session_id st in
  ((exists d, fst result = Ret d)
   \/ (exists e, fst result = Raise e /\ is_Exception e = false))
  /\ (if enabled (self st)
      then exists rq, sent (snd result) = sent st ++ [rq]
                      /\ req_path rq = "/api/v1/sdk/pre-invoke"
      else sent (snd result) = sent st)
  /\ self (snd result) = self st
  /\ span_store (snd result) = span_store st
  /\ trace_store (snd result) = trace_store st.
Proof.
  cbn zeta. unfold check_tool_access, bind, get, attempt.
  destruct (enabled (self st)); cbn [negb]; [|cbn; eauto 10].
  destruct (session_id_chosen session_id st)
    as (sid & st1 & -> & Hsent & Hself & Hspans & Htraces).
  destruct (pre_invoke_state (agent_id (self st)) tool_name (or_empty tool_params) sid st1)
    as (rq & Hst & Hpath).
  destruct (pre_invoke rt (agent_id (self st)) tool_name (or_empty tool_params) sid st1)
    as [[d|e] st2]; cbn [snd] in Hst; subst st2.
  - cbn. rewrite Hsent, Hself, Hspans, Htraces. eauto 10.
  - destruct (is_Exception e) eqn:He; [destruct (fail_open (self st))|]; cbn;
      rewrite Hsent, Hself, Hspans, Htraces; eauto 10.
Qed.

(** X2. [DecisionType(...)] and [.value] are inverse to each other: the
    constructor returns the member [d] exactly for the string [d.value], and
    raises for every other value. *)
Theorem DecisionType_round_trip (v : pyval) (d : DecisionType) (st : State) :
  fst (DecisionType_of_value rt v st) = Ret d <-> v = PyStr (DecisionType_value d).
Proof.
  split.
  - unfold DecisionType_of_value. destruct v as [ | b | n | s | l | dd ]; try discriminate.
    destruct (String.eqb s "allow") eqn:E1;
      [apply String.eqb_eq in E1; intros [= <-]; by subst|].
    destruct (String.eqb s "deny") eqn:E2;
      [apply String.eqb_eq in E2; intros [= <-]; by subst|].
    destruct (String.eqb s "warn") eqn:E3;
      [apply String.eqb_eq in E3; intros [= <-]; by subst|].
    destruct (String.eqb s "require_approval") eqn:E4;
      [apply String.eqb_eq in E4; intros [= <-]; by subst|].
    discriminate.
  - intros ->. by destruct d.
Qed.

(** The state after [evaluate_policy], whatever it returns. *)
Lemma evaluate_policy_state aid tool params dc st :
  snd (evaluate_policy rt aid tool params dc st)
  = with_sent st (sent st ++ [mkRequest "/api/v1/policies/evaluate"
                                 (evaluate_payload aid tool params dc)]).
Proof.
  unfold evaluate_policy. rewrite bind_stateless; [reflexivity|].
  intros resp. apply stateless_bind; [apply stateless_raise_for_status|]. intros _.
  apply stateless_bind; [by intros ?|]. intros data.
  apply stateless_bind; [apply stateless_data_get|]. intros allow.
  apply stateless_bind; [apply stateless_data_get|]. intros dv.
  apply stateless_bind; [apply stateless_DecisionType_of_value|]. intros dec.
  apply stateless_bind; [apply stateless_data_get|]. intros reasons.
  apply stateless_bind; [apply stateless_data_get|]. intros violations.
  apply stateless_bind; [apply stateless_data_get|]. intros eval_time.
  by intros ?.
Qed.

(** X3. [evaluate_policy] has no fallback of its own: when the request fails
    (the transport raises an [Exception], or the status is not a success) it
    raises that failure, after exactly one request. *)
Theorem evaluate_policy_raises_on_failure (st : State) (agent_id : string)
    (tool_name : option string) (tool_params : option pydict)
    (data_classification : option string) :
  let rq := mkRequest "/api/v1/policies/evaluate"
              (evaluate_payload agent_id tool_name tool_params data_classification) in
  request_fails (post rt (length (sent st)) rq) = true ->
  exists e,
    evaluate_policy rt agent_id tool_name tool_params data_classification st
    = (Raise e, with_sent st (sent st ++ [rq]))
    /\ is_Exception e = true
    /\ exc_str e = failure_text (post rt (length (sent st)) rq).
Proof.
  cbn zeta. intros Hfail.
  rewrite (surjective_pairing (evaluate_policy rt _ _ _ _ _)), evaluate_policy_state.
  unfold evaluate_policy, bind at 1, client_post.
  destruct (post rt (length (sent st)) _) as [r|e] eqn:Hp; cbn in Hfail.
  - unfold bind at 1, raise_for_status.
    apply negb_true_iff in Hfail. rewrite Hfail. cbn.
    eexists. split; [reflexivity|]. split; reflexivity.
  - exists e. split; [reflexivity|]. split; [exact Hfail | reflexivity].
Qed.

(** X4. On a successful response whose body is a dictionary,
    [evaluate_policy] takes [allow], [reasons], [violations] and
    [eval_time_us] from the body, with true, the empty lists and 0 for the
    keys that are missing, and the decision from [decision], [ALLOW] when it
    is missing; a [decision] that names no member of [DecisionType] makes it
    raise [ValueError]. *)
Theorem evaluate_policy_on_success (st : State) (agent_id : string)
    (tool_name : option string) (tool_params : option pydict)
    (data_classification : option string) (d : pydict) :
  let rq := mkRequest "/api/v1/policies/evaluate"
              (evaluate_payload agent_id tool_name tool_params data_classification) in
  let decided dec :=
    Ret (PolicyDecision.mk (dict_get_default "allow" (PyBool true) d) dec
           (dict_get_default "reasons" (PyList []) d)
           (dict_get_default "violations" (PyList []) d)
           (dict_get_default "eval_time_us" (PyInt 0) d) []) in
  answers (post rt (length (sent st)) rq) (PyDict d) ->
  fst (evaluate_policy rt agent_id tool_name tool_params data_classification st)
  = match dict_get "decision" d with
    | None => decided ALLOW
    | Some v =>
        match known_decision v with
        | Some dec => decided dec
        | None => Raise (mkExc "ValueError" true
                           (repr rt v +:+ " is not a valid DecisionType"))
        end
    end.
Proof.
  cbn zeta. intros (r & Hp & Hok & Hjson).
  unfold evaluate_policy, bind at 1, client_post. rewrite Hp.
  unfold bind at 1, raise_for_status. rewrite Hok. cbn [ret].
  unfold bind at 1, finish. rewrite Hjson.
  unfold bind, data_get, ret, dict_get_default.
  destruct (dict_get "decision" d) as [v|]; [|reflexivity].
  unfold DecisionType_of_value, known_decision.
  destruct v as [ | b | n | s | l | d' ]; try reflexivity.
  repeat (match goal with
          | |- context [String.eqb s ?k] => destruct (String.eqb s k)
          end; [reflexivity|]).
  reflexivity.
Qed.

End MorePolicyChecks.

Lemma evaluate_policy_raises_on_failure_witness :
  exists e,
    evaluate_policy offline "agent-1" (Some "search") None None fresh_guard
    = (Raise e,
       with_sent fresh_guard
         [mkRequest "/api/v1/policies/evaluate"
            (evaluate_payload "agent-1" (Some "search") None None)])
    /\ is_Exception e = true
    /\ exc_str e = "All connection attempts failed".
Proof.
  apply (evaluate_policy_raises_on_failure offline fresh_guard "agent-1"
           (Some "search") None None).
  reflexivity.
Defined.

Lemma evaluate_policy_on_success_witness :
  fst (evaluate_policy (sample_runtime (responding (PyDict []))) "agent-1"
         (Some "search") None None fresh_guard)
  = Ret (PolicyDecision.mk (PyBool true) ALLOW (PyList []) (PyList []) (PyInt 0) []).
Proof.
  apply (evaluate_policy_on_success (sample_runtime (responding (PyDict []))) fresh_guard
           "agent-1" (Some "search") None None []).
  eexists. split; [reflexivity|]. split; reflexivity.
Defined.

(** ** Scopes, continued *)

Section MoreScopes.
Context (rt : Runtime).

(** The exit of a [trace] scope, step by step: the bookkeeping first, then
    the ingestion of the finalised trace if the guard is enabled. *)
Lemma trace_exit_detail loc outcome st :
  let st1 := mkState (set_current_trace None (self st)) (span_store st)
               (alter (close_trace outcome (utcnow rt (clock_calls st))) loc (trace_store st))
               (uuid_calls st) (S (clock_calls st)) (sent st) in
  trace_exit rt loc outcome st =
    if enabled (self st) then
      match trace_store st1 !! loc with
      | Some tr =>
          (match fst (ingest_trace rt tr st1) with
           | Raise e' => if is_Exception e' then outcome else Raise e'
           | Ret _ => outcome
           end, snd (ingest_trace rt tr st1))
      | None => (outcome, st1)
      end
    else (outcome, st1).
Proof.
  cbn zeta.
  assert (Halter : forall ts : list Trace.t,
    alter (Trace.set_end_time (Some (utcnow rt (clock_calls st)))) loc
      (match outcome with
       | Ret _ => alter (Trace.set_status "completed") loc ts
       | Raise e => if is_Exception e then
           alter (fun t => Trace.set_metadata
                             (dict_set "error" (PyStr (exc_str e)) (Trace.metadata t)) t) loc
             (alter (Trace.set_status "failed") loc ts)
           else ts end)
    = alter (close_trace outcome (utcnow rt (clock_calls st))) loc ts).
  { intros ts. destruct outcome as [[]|e]; [|destruct (is_Exception e) eqn:He];
      rewrite ?list_alter_alter_eq; apply list_alter_ext; auto;
      intros x _; unfold close_trace; cbn; rewrite ?He; reflexivity. }
  set (st1 := mkState (set_current_trace None (self st)) (span_store st)
            (alter (close_trace outcome (utcnow rt (clock_calls st))) loc (trace_store st))
            (uuid_calls st) (S (clock_calls st)) (sent st)).
  assert (Hpre :
    trace_exit rt loc outcome st =
      (sent_ok <- (if enabled (self st1) then
                match trace_store st1 !! loc with
                | Some tr => attempt (ingest_trace rt tr)
                | None => ret (Ret tt)
                end
              else ret (Ret tt)) ;;
       match sent_ok with
       | Raise e' => if is_Exception e' then finish outcome else raise e'
       | Ret _ => finish outcome
       end) st1).
  { unfold trace_exit, bind at 1 2 3 4 5, get, now, modify, update_trace, ret.
    destruct outcome as [[]|e]; [|destruct (is_Exception e) eqn:He]; cbn;
      unfold bind, modify, set_trace_store, set_self; cbn;
      try (specialize (Halter (trace_store st)); cbn in Halter; rewrite ?He in Halter;
           rewrite Halter); reflexivity. }
  rewrite Hpre. clear Hpre Halter.
  unfold bind. cbn [self enabled set_current_trace st1].
  destruct (enabled (self st)); [|reflexivity].
  fold st1. destruct (trace_store st1 !! loc) as [tr|]; [|reflexivity].
  unfold attempt. destruct (ingest_trace rt tr st1) as [[[]|e'] st2]; cbn [fst snd];
    [reflexivity|]. by destruct (is_Exception e').
Qed.

(** What [ingest_trace] sends, and what it can raise. *)
Lemma ingest_trace_request tr st :
  exists rq,
    snd (ingest_trace rt tr st) = with_sent st (sent st ++ [rq])
    /\ req_path rq = "/api/v1/observe/traces"
    /\ dict_get "trace_id" (req_json rq) = Some (PyStr (Trace.trace_id tr))
    /\ dict_get "status" (req_json rq) = Some (PyStr (Trace.status tr))
    /\ dict_get "end_time" (req_json rq) = Some (opt_time rt (Trace.end_time tr))
    /\ (transport_raises_Exceptions rt ->
        forall e, fst (ingest_trace rt tr st) = Raise e -> is_Exception e = true).
Proof.
  unfold ingest_trace, bind, get, client_post, raise_for_status.
  match goal with
  | |- context [post rt ?n ?rq] =>
      exists rq; pose proof (fun H : transport_raises_Exceptions rt => H n rq) as Hok;
      destruct (post rt n rq) as [resp|e] eqn:Hp
  end.
  - destruct ((200 <=? status_code resp)%Z && (status_code resp <=? 299)%Z);
      cbn; repeat (split; [reflexivity|]); intros _ e; [discriminate|].
    by intros [= <-].
  - cbn. repeat (split; [reflexivity|]). intros H e' [= <-]. by apply Hok.
Qed.

(** X5. A [trace] scope of an enabled guard sends exactly one request of its
    own, after the bookkeeping: the ingestion of the trace as finalised, with
    its final status and its [end_time].  A disabled guard sends nothing. *)
Theorem trace_scope_ingests_the_finalised_trace (st : State) (session_id : string)
    (user_id : option string) (metadata : option pydict) (body : Prog) :
  let trace := length (trace_store st) in
  let after_body := snd (run rt body (snd (trace_enter rt session_id user_id metadata st))) in
  let after := snd (run rt (PWithTrace session_id user_id metadata body) st) in
  if enabled (self st) then
    exists x rq,
      trace_store after !! trace = Some x
      /\ sent after = sent after_body ++ [rq]
      /\ req_path rq = "/api/v1/observe/traces"
      /\ dict_get "trace_id" (req_json rq) = Some (PyStr (Trace.trace_id x))
      /\ dict_get "status" (req_json rq) = Some (PyStr (Trace.status x))
      /\ dict_get "end_time" (req_json rq) = Some (opt_time rt (Trace.end_time x))
      /\ Trace.end_time x <> None
  else sent after = sent after_body.
Proof.
  cbn zeta. rewrite run_with_trace, trace_enter_eq. cbn [snd].
  match goal with |- context [run rt body ?s] => set (st1 := s) end.
  destruct (run_frame rt body st1) as [Hext _].
  destruct (run rt body st1) as [out st2] eqn:Hrun. cbn [fst snd] in *.
  assert (Hen : enabled (self st2) = enabled (self st)).
  { rewrite (ext_enabled _ _ Hext). reflexivity. }
  assert (Hx : exists y, trace_store st2 !! length (trace_store st) = Some y).
  { destruct (ext_traces _ _ Hext (length (trace_store st))
                (Trace.mk (uuid4 rt (uuid_calls st)) (agent_id (self st)) session_id
                   user_id (utcnow rt (clock_calls st)) None "running" [] []
                   (or_empty metadata))) as (y & Hy & _); [|eauto].
    subst st1. cbn. by rewrite list_lookup_middle. }
  destruct Hx as (y & Hy).
  rewrite trace_exit_detail. cbn zeta. rewrite Hen.
  destruct (enabled (self st)); [|reflexivity].
  cbn [trace_store]. rewrite list_lookup_alter_eq, Hy. cbn [fmap option_fmap option_map].
  match goal with |- context [ingest_trace rt ?tr ?s] =>
    destruct (ingest_trace_request tr s) as (rq & Hs & Hpath & Hid & Hstatus & Hend & _) end.
  cbn [snd]. rewrite Hs.
  exists (close_trace out (utcnow rt (clock_calls st2)) y), rq.
  cbn [trace_store with_sent sent].
  split; [by rewrite list_lookup_alter_eq, Hy|].
  repeat (split; [done|]). discriminate.
Qed.

(** X6. Code built from nested scopes that hands no dictionary of its own to
    a scope leaves the rest alone: after it, the span stack and the guard's
    configuration are what they were, the spans that existed before are
    untouched, and the traces that existed before have kept their status,
    times and metadata.  (A dictionary handed to a scope is kept as the
    object it is and written to when the scope fails, so code that hands the
    same dictionary to several scopes is left out.) *)
Theorem nested_scopes_leave_the_rest_alone (p : Prog) (st : State) :
  passes_no_dictionaries p = true ->
  let st' := snd (run rt p st) in
  _current_span_stack (self st') = _current_span_stack (self st)
  /\ enabled (self st') = enabled (self st)
  /\ fail_open (self st') = fail_open (self st)
  /\ agent_id (self st') = agent_id (self st)
  /\ (forall loc, loc < length (span_store st) ->
        span_store st' !! loc = span_store st !! loc)
  /\ (forall loc x, trace_store st !! loc = Some x ->
        exists y, trace_store st' !! loc = Some y
                  /\ Trace.status y = Trace.status x
                  /\ Trace.start_time y = Trace.start_time x
                  /\ Trace.end_time y = Trace.end_time x
                  /\ Trace.metadata y = Trace.metadata x).
Proof.
  intros _. cbn zeta. destruct (run_frame rt p st) as [Hext Hstack].
  split; [exact Hstack|].
  split; [apply (ext_enabled _ _ Hext)|].
  split; [apply (ext_fail_open _ _ Hext)|].
  split; [apply (ext_agent_id _ _ Hext)|].
  split; [apply (ext_spans _ _ Hext)|].
  intros loc x Hx. destruct (ext_traces _ _ Hext _ _ Hx) as (y & Hy & Hfr).
  exists y. unfold trace_frame in Hfr. intuition.
Qed.

(** The span of a scope after the scope: where it is, what its parent is,
    and the stack. *)
Lemma span_scope_parent st name ty attrs body :
  exists s,
    span_store (snd (run rt (PWithSpan name ty attrs body) st)) !! length (span_store st)
    = Some s
    /\ Span.parent_span_id s =
         match last (_current_span_stack (self st)) with
         | Some top => Span.span_id <$> span_store st !! top
         | None => None
         end
    /\ _current_span_stack (self (snd (run rt (PWithSpan name ty attrs body) st)))
       = _current_span_stack (self st).
Proof.
  destruct (run_frame rt (PWithSpan name ty attrs body) st) as [_ Hstack].
  rewrite run_with_span, span_enter_eq in *. cbn [snd] in *. cbn zeta in *.
  match goal with |- context [run rt body ?s] => set (st1 := s) in * end.
  destruct (run_frame rt body st1) as [Hext Hs1].
  assert (Hs : span_store (snd (run rt body st1)) !! length (span_store st)
               = span_store st1 !! length (span_store st)).
  { apply (ext_spans _ _ Hext). subst st1. cbn. rewrite length_app. cbn. lia. }
  subst st1. cbn in Hs. rewrite list_lookup_middle in Hs by reflexivity.
  rewrite span_exit_eq in *. cbn zeta in *.
  destruct (_current_span_stack (self (snd (run rt body _)))) as [|a l];
    cbn [snd span_store] in *;
    (eexists; split; [by rewrite list_lookup_alter_eq, Hs|]);
    (split; [|exact Hstack]);
    by destruct (fst (run rt body _)) as [[]|e]; [|cbn; destruct (is_Exception e)].
Qed.

(** X7. Two [span] scopes that follow each other have the same parent: the
    second finds the stack as the first found it.  (The span on top of the
    stack, if any, is taken to be in the store.) *)
Theorem sibling_spans_share_their_parent (st : State)
    (name1 type1 : string) (attributes1 : option pydict) (body1 : Prog)
    (name2 type2 : string) (attributes2 : option pydict) (body2 : Prog) :
  let first := snd (run rt (PWithSpan name1 type1 attributes1 body1) st) in
  let second := snd (run rt (PWithSpan name2 type2 attributes2 body2) first) in
  (forall top, last (_current_span_stack (self st)) = Some top ->
     top < length (span_store st)) ->
  exists s1 s2,
    span_store second !! length (span_store st) = Some s1
    /\ span_store second !! length (span_store first) = Some s2
    /\ length (span_store st) < length (span_store first)
    /\ Span.parent_span_id s1 = Span.parent_span_id s2.
Proof.
  cbn zeta. intros Htop.
  destruct (span_scope_parent st name1 type1 attributes1 body1) as (s1 & Hs1 & Hp1 & Hstack1).
  set (first := snd (run rt (PWithSpan name1 type1 attributes1 body1) st)) in *.
  destruct (span_scope_parent first name2 type2 attributes2 body2) as (s2 & Hs2 & Hp2 & _).
  destruct (run_frame rt (PWithSpan name1 type1 attributes1 body1) st) as [Hext1 _].
  destruct (run_frame rt (PWithSpan name2 type2 attributes2 body2) first) as [Hext2 _].
  fold first in Hext1.
  assert (Hlt : length (span_store st) < length (span_store first)).
  { by apply lookup_lt_Some in Hs1. }
  exists s1, s2. split.
  { rewrite (ext_spans _ _ Hext2) by exact Hlt. exact Hs1. }
  split; [exact Hs2|]. split; [exact Hlt|].
  rewrite Hp1, Hp2, Hstack1.
  destruct (last (_current_span_stack (self st))) as [top|] eqn:Hlast; [|reflexivity].
  by rewrite (ext_spans _ _ Hext1) by (by apply Htop).
Qed.

(** What [pre_invoke] can raise when no request is cancelled. *)
Lemma pre_invoke_raises_Exceptions aid tool params sid st e :
  transport_raises_Exceptions rt ->
  fst (pre_invoke rt aid tool params sid st) = Raise e -> is_Exception e = true.
Proof.
  intros Hok. unfold pre_invoke, bind, now, client_post, raise_for_status, finish.
  cbn [sent].
  match goal with |- context [post rt ?n ?rq] =>
    specialize (Hok n rq); destruct (post rt n rq) as [r|e0] end.
  2:{ by intros [= <-]. }
  destruct ((200 <=? status_code r)%Z && (status_code r <=? 299)%Z);
    [|by intros [= <-]].
  cbn [ret]. destruct (json r) as [data|e1]; [|by intros [= <-]].
  unfold data_get, ret, raise.
  destruct data as [ | b | n | s | l | d ]; try (by intros [= <-]).
  unfold DecisionType_of_value, ret, raise.
  destruct (dict_get_default "decision" (PyStr "allow") d) as [ | b | n | s | l | d' ];
    try (by intros [= <-]).
  repeat (match goal with
          | |- context [String.eqb s ?k] => destruct (String.eqb s k)
          end; [discriminate|]).
  by intros [= <-].
Qed.

Lemma check_tool_access_returns tool params sid st :
  transport_raises_Exceptions rt ->
  exists d, fst (check_tool_access rt tool params sid st) = Ret d.
Proof.
  intros Hok. unfold check_tool_access, bind, get, attempt.
  destruct (enabled (self st)); cbn [negb]; [|cbn; eauto].
  destruct (session_id_choice rt sid st) as (s & st1 & -> & _ & _).
  pose proof (pre_invoke_raises_Exceptions (agent_id (self st)) tool (or_empty params) s st1)
    as Hraise.
  destruct (pre_invoke rt (agent_id (self st)) tool (or_empty params) s st1) as [[d|e] st2];
    cbn in *; [eauto|].
  rewrite (Hraise e Hok eq_refl). destruct (fail_open (self st)); cbn; eauto.
Qed.

(** The exit of a [trace] scope when no request is cancelled: it ends the way
    the body ended, and touches neither the spans nor the stack. *)
Lemma trace_exit_quiet loc outcome st :
  transport_raises_Exceptions rt ->
  fst (trace_exit rt loc outcome st) = outcome
  /\ span_store (snd (trace_exit rt loc outcome st)) = span_store st
  /\ _current_span_stack (self (snd (trace_exit rt loc outcome st)))
     = _current_span_stack (self st).
Proof.
  intros Hok. rewrite trace_exit_detail. cbn zeta.
  destruct (enabled (self st)); [|by cbn].
  match goal with |- context [trace_store ?s !! loc] =>
    destruct (trace_store s !! loc) as [tr|]; [|by cbn] end.
  match goal with |- context [ingest_trace rt tr ?s] =>
    destruct (ingest_trace_request tr s) as (rq & Hs & _ & _ & _ & _ & Hraise) end.
  cbn [fst snd]. rewrite Hs. cbn [with_sent span_store self set_current_trace
    _current_span_stack].
  split; [|split; reflexivity].
  destruct (fst (ingest_trace rt tr _)) as [[]|e'] eqn:E; [reflexivity|].
  by rewrite (Hraise Hok e' eq_refl).
Qed.

Lemma run_closes_spans n p :
  only_Exceptions p = true -> transport_raises_Exceptions rt ->
  forall st,
    (forall loc sp, n <= loc -> span_store st !! loc = Some sp ->
       loc ∉ _current_span_stack (self st) -> closed_span sp) ->
    (forall loc sp, n <= loc -> span_store (snd (run rt p st)) !! loc = Some sp ->
       loc ∉ _current_span_stack (self st) -> closed_span sp)
    /\ (fst (run rt p st) = Ret tt
        \/ exists e, fst (run rt p st) = Raise e /\ is_Exception e = true).
Proof.
  intros Hp Hok. induction p; intros st HQ; cbn [only_Exceptions] in Hp.
  - cbn. auto.
  - apply andb_true_iff in Hp as [Hp1 Hp2]. cbn [run]. unfold bind.
    destruct (IHp1 Hp1 st HQ) as [HQ1 Hr1].
    destruct (run_frame rt p1 st) as [_ Hs1].
    destruct (run rt p1 st) as [[[]|e] st1]; cbn [fst snd] in *.
    + rewrite <- Hs1 in HQ1. destruct (IHp2 Hp2 st1 HQ1) as [HQ2 Hr2].
      rewrite Hs1 in HQ2. auto.
    + auto.
  - cbn. split; [exact HQ|]. right. eauto.
  - apply andb_true_iff in Hp as [Hp1 Hp2]. cbn [run]. unfold bind, attempt.
    destruct (IHp1 Hp1 st HQ) as [HQ1 Hr1].
    destruct (run_frame rt p1 st) as [_ Hs1].
    destruct (run rt p1 st) as [[[]|e] st1]; cbn [fst snd] in *.
    + cbn. auto.
    + destruct Hr1 as [Hr1|(e' & [= <-] & He)]; [discriminate|]. rewrite He.
      rewrite <- Hs1 in HQ1. destruct (IHp2 Hp2 st1 HQ1) as [HQ2 Hr2].
      rewrite Hs1 in HQ2. auto.
  - rewrite run_with_trace, trace_enter_eq. cbn [snd].
    match goal with |- context [run rt p ?s] => set (st1 := s) end.
    destruct (IHp Hp st1 HQ) as [HQ1 Hr1].
    destruct (run_frame rt p st1) as [_ Hs1].
    destruct (trace_exit_quiet (length (trace_store st)) (fst (run rt p st1))
                (snd (run rt p st1)) Hok) as (-> & -> & _).
    auto.
  - rewrite run_with_span, span_enter_eq. cbn [snd]. cbn zeta.
    match goal with |- context [run rt p ?s] => set (st1 := s) end.
    assert (HQ0 : forall loc sp, n <= loc -> span_store st1 !! loc = Some sp ->
              loc ∉ _current_span_stack (self st1) -> closed_span sp).
    { intros loc sp Hn Hsp Hnot. subst st1. cbn in *.
      apply not_elem_of_app in Hnot as [Hnot Hne].
      apply not_elem_of_cons in Hne as [Hne _].
      apply lookup_app_Some in Hsp as [Hsp|[Hge Hsp]]; [eauto|].
      destruct (loc - length (span_store st)) as [|k] eqn:E; [lia|].
      cbn in Hsp. by destruct k. }
    destruct (IHp Hp st1 HQ0) as [HQ1 Hr1].
    destruct (run_frame rt p st1) as [_ Hs1].
    destruct (run rt p st1) as [out st2]. cbn [fst snd] in *.
    rewrite span_exit_eq. cbn zeta. rewrite Hs1. subst st1. cbn [self set_span_stack
      _current_span_stack] in *.
    destruct (_current_span_stack (self st) ++ [length (span_store st)]) as [|a l] eqn:E.
    { destruct (_current_span_stack (self st)); discriminate. }
    rewrite <- E in *. cbn [fst snd span_store]. split; [|exact Hr1].
    intros loc sp Hn Hsp Hnot.
    destruct (decide (loc = length (span_store st))) as [->|Hne].
    + rewrite list_lookup_alter_eq in Hsp.
      destruct (span_store st2 !! length (span_store st)) as [sp2|]; [|done].
      injection Hsp as <-. unfold closed_span, close_span.
      destruct Hr1 as [->|(e & -> & He)]; [|rewrite He]; cbn; split; auto; discriminate.
    + rewrite list_lookup_alter_ne in Hsp by done.
      apply (HQ1 loc sp Hn Hsp). apply not_elem_of_app. split; [done|].
      apply not_elem_of_cons. split; [done | apply not_elem_of_nil].
  - split; [|left].
    + intros loc sp Hn Hsp. apply HQ; [done|].
      revert Hsp. cbn [run]. unfold add_security_signal, bind, get, new_uuid, now,
        update_trace, modify, ret.
      by destruct (_current_trace (self st)).
    + cbn [run]. unfold add_security_signal, bind, get, new_uuid, now,
        update_trace, modify, ret.
      by destruct (_current_trace (self st)).
  - cbn [run]. unfold bind.
    destruct (check_tool_access_returns tool_name tool_params session_id st Hok) as (d & Hd).
    destruct (check_tool_access_objects rt tool_name tool_params session_id st)
      as (_ & Hsp & _).
    destruct (check_tool_access rt tool_name tool_params session_id st) as [r st1].
    cbn [fst snd] in *. subst r. cbn. rewrite Hsp. auto.
Qed.

(** X8. No span is left running: when the code inside the scopes raises
    instances of [Exception] only and no request is cancelled, every span the
    code creates is closed when the code ends, with [end_time] set and status
    "completed" or "error".  (The spans on the stack before are taken to be
    in the store.) *)
Theorem every_span_is_closed (p : Prog) (st : State) :
  only_Exceptions p = true ->
  transport_raises_Exceptions rt ->
  Forall (fun l => l < length (span_store st)) (_current_span_stack (self st)) ->
  forall loc sp,
    length (span_store st) <= loc ->
    span_store (snd (run rt p st)) !! loc = Some sp ->
    closed_span sp.
Proof.
  intros Hp Hok Hstack loc sp Hloc Hsp.
  destruct (run_closes_spans (length (span_store st)) p Hp Hok st) as [HQ _].
  - intros l s Hl Hs. apply lookup_lt_Some in Hs. lia.
  - apply (HQ loc sp Hloc Hsp). intros Hin.
    rewrite Forall_forall in Hstack. specialize (Hstack loc Hin). lia.
Qed.

End MoreScopes.

Lemma sibling_spans_share_their_parent_witness :
  exists s1 s2,
    span_store two_siblings !! 1 = Some s1
    /\ span_store two_siblings !! 2 = Some s2
    /\ Span.parent_span_id s1 = Span.parent_span_id s2.
Proof.
  destruct (sibling_spans_share_their_parent offline one_open_span
              "first" "tool" None PSkip "second" "tool" None PSkip)
    as (s1 & s2 & H1 & H2 & _ & Hp).
  { intros top [= <-]. cbn. lia. }
  exists s1, s2. split; [exact H1|]. split; [exact H2 | exact Hp].
Defined.

Lemma every_span_is_closed_witness :
  exists sp, span_store after_a_retry !! 1 = Some sp /\ closed_span sp.
Proof.
  unfold after_a_retry.
  assert (H : exists sp, span_store (snd (run offline retrying fresh_guard)) !! 1 = Some sp)
    by (eexists; vm_compute; reflexivity).
  destruct H as (sp & Hsp). exists sp. split; [exact Hsp|].
  refine (every_span_is_closed offline retrying fresh_guard _ _ _ 1 sp _ Hsp).
  - reflexivity.
  - intros n rq. reflexivity.
  - constructor.
  - cbn. lia.
Defined.

Lemma nested_scopes_leave_the_rest_alone_witness :
  let st' := snd (run offline retrying inside_a_trace) in
  _current_span_stack (self st') = _current_span_stack (self inside_a_trace)
  /\ enabled (self st') = enabled (self inside_a_trace)
  /\ fail_open (self st') = fail_open (self inside_a_trace)
  /\ agent_id (self st') = agent_id (self inside_a_trace)
  /\ (forall loc, loc < length (span_store inside_a_trace) ->
        span_store st' !! loc = span_store inside_a_trace !! loc)
  /\ (forall loc x, trace_store inside_a_trace !! loc = Some x ->
        exists y, trace_store st' !! loc = Some y
                  /\ Trace.status y = Trace.status x
                  /\ Trace.start_time y = Trace.start_time x
                  /\ Trace.end_time y = Trace.end_time x
                  /\ Trace.metadata y = Trace.metadata x).
Proof.
  apply (nested_scopes_leave_the_rest_alone offline retrying inside_a_trace).
  reflexivity.
Defined.

(** ** SecurityEnricher, continued *)

(** The engine that knows where a match ends finds a match exactly when
    there is one. *)
Lemma rep_first_sound {A} cs (k : option ascii -> string -> option A) s :
  forall lo hi prev a,
    rep_first cs lo hi k prev s = Some a ->
    exists n prev' s',
      lo <= n /\ (forall h, hi = Some h -> n <= h)
      /\ repeats cs n prev s prev' s' /\ k prev' s' = Some a.
Proof.
  induction s as [|c s IH]; intros lo hi prev a; cbn [rep_first].
  - destruct lo; [|discriminate]. intros Hk.
    exists 0, prev, "". repeat split; auto using repeats_O; lia.
  - destruct (match hi with
              | Some 0 => None
              | _ => if cs c then rep_first cs (Nat.pred lo) (Nat.pred <$> hi) k (Some c) s
                     else None
              end) as [b|] eqn:Hin.
    + intros [= <-].
      assert (Hhi0 : hi <> Some 0) by (intros ->; discriminate).
      assert (Hrec : (if cs c then rep_first cs (Nat.pred lo) (Nat.pred <$> hi) k (Some c) s
                      else None) = Some b).
      { destruct hi as [[|h]|]; [done| |]; exact Hin. }
      destruct (cs c) eqn:Hc; [|discriminate].
      apply IH in Hrec as (n & prev' & s' & Hlo & Hhi & Hrep & Hk).
      exists (S n), prev', s'. split; [lia|]. split.
      { intros h ->. destruct h as [|h]; [done|]. specialize (Hhi h eq_refl). lia. }
      split; [by constructor | done].
    + destruct lo; [|discriminate]. intros Hk.
      exists 0, prev, (String c s). repeat split; auto using repeats_O; lia.
Qed.

Lemma rep_first_complete {A} cs (k : option ascii -> string -> option A) n prev s prev' s' :
  repeats cs n prev s prev' s' ->
  forall lo hi,
    lo <= n -> (forall h, hi = Some h -> n <= h) ->
    is_Some (k prev' s') ->
    is_Some (rep_first cs lo hi k prev s).
Proof.
  induction 1 as [prev s|n prev c s prev' s' Hc Hrep IH]; intros lo hi Hlo Hhi Hk.
  - assert (lo = 0) as -> by lia.
    destruct s as [|c s]; cbn [rep_first]; [exact Hk|].
    destruct (match hi with
              | Some 0 => None
              | _ => if cs c then rep_first cs (Nat.pred 0) (Nat.pred <$> hi) k (Some c) s
                     else None
              end); [eauto | exact Hk].
  - cbn [rep_first].
    assert (Hin : is_Some (rep_first cs (Nat.pred lo) (Nat.pred <$> hi) k (Some c) s)).
    { apply IH; [lia| |exact Hk]. intros h Hh. destruct hi as [h0|]; [|done].
      cbn in Hh. injection Hh as <-. specialize (Hhi h0 eq_refl). lia. }
    rewrite Hc. destruct hi as [[|h]|].
    + specialize (Hhi 0 eq_refl). lia.
    + destruct Hin as [b ->]. eauto.
    + destruct Hin as [b ->]. eauto.
Qed.

Lemma first_match_sound {A} r : forall (k : option ascii -> string -> option A) prev s a,
  first_match r k prev s = Some a ->
  exists prev' s', matches r prev s prev' s' /\ k prev' s' = Some a.
Proof.
  induction r as [|cs|cs lo hi|r1 IH1 r2 IH2|r1 IH1 r2 IH2|]; intros k prev s a;
    cbn [first_match].
  - eauto using matches.
  - destruct s as [|c s]; [discriminate|]. destruct (cs c) eqn:Hc; [|discriminate].
    eauto using matches.
  - intros H. apply rep_first_sound in H as (n & p & s' & Hlo & Hhi & Hrep & Hk).
    eauto 6 using matches.
  - intros H. apply IH1 in H as (p1 & s1 & Hm1 & H2).
    apply IH2 in H2 as (p & s' & Hm2 & Hk). eauto using matches.
  - destruct (first_match r1 k prev s) as [b|] eqn:H1.
    + intros [= <-]. apply IH1 in H1 as (p & s' & Hm & Hk). eauto using matches.
    + intros H2. apply IH2 in H2 as (p & s' & Hm & Hk). eauto using matches.
  - destruct (at_boundary prev s) eqn:Hb; [|discriminate]. eauto using matches.
Qed.

Lemma first_match_complete {A} r prev s prev' s' :
  matches r prev s prev' s' ->
  forall k : option ascii -> string -> option A,
    is_Some (k prev' s') -> is_Some (first_match r k prev s).
Proof.
  induction 1 as [prev s|cs prev c s Hc|cs lo hi n prev s prev' s' Hlo Hhi Hrep
                 |r1 r2 prev s prev1 s1 prev' s' H1 IH1 H2 IH2
                 |r1 r2 prev s prev' s' H1 IH1|r1 r2 prev s prev' s' H2 IH2
                 |prev s Hb]; intros k Hk; cbn [first_match].
  - exact Hk.
  - by rewrite Hc.
  - by eapply rep_first_complete.
  - apply IH1. by apply IH2.
  - destruct (IH1 k Hk) as [b ->]. eauto.
  - destruct (first_match r1 k prev s); [eauto | by apply IH2].
  - by rewrite Hb.
Qed.

(** [findall] finds something exactly when [search] does. *)
Lemma count_matches_search r s : forall rounds prev,
  String.length s < rounds ->
  (count_matches rounds r false prev s <> 0 <-> search_from r prev s = true).
Proof.
  induction s as [|c s IH]; intros rounds prev Hlen;
    (destruct rounds as [|rounds]; [lia|]); cbn [count_matches search_from andb].
  - destruct (first_match r (fun p rest => Some (p, rest)) prev "") as [[p rest]|] eqn:H.
    + apply first_match_sound in H as (p' & s' & Hm & _).
      assert (Hr : rmatch r (fun _ _ => true) prev "" = true) by (apply rmatch_spec; eauto).
      rewrite Hr. split; [done | lia].
    + destruct (rmatch r (fun _ _ => true) prev "") eqn:Hr; [|split; [lia | done]].
      apply rmatch_spec in Hr as (p' & s' & Hm & _).
      destruct (first_match_complete r prev "" p' s' Hm (fun p rest => Some (p, rest)))
        as [b Hb]; [eauto|]. congruence.
  - destruct (first_match r (fun p rest => Some (p, rest)) prev (String c s))
      as [[p rest]|] eqn:H.
    + apply first_match_sound in H as (p' & s' & Hm & _).
      assert (Hr : rmatch r (fun _ _ => true) prev (String c s) = true)
        by (apply rmatch_spec; eauto).
      rewrite Hr. split; [done | lia].
    + destruct (rmatch r (fun _ _ => true) prev (String c s)) eqn:Hr.
      * apply rmatch_spec in Hr as (p' & s' & Hm & _).
        destruct (first_match_complete r prev (String c s) p' s' Hm
                    (fun p rest => Some (p, rest))) as [b Hb]; [eauto|]. congruence.
      * apply IH. cbn in Hlen. lia.
Qed.

Lemma findall_count_search r s : findall_count r s <> 0 <-> search r s = true.
Proof. unfold findall_count, search. apply count_matches_search. lia. Qed.

(** A match ends no earlier than it starts, so the rounds [findall_count]
    allows are enough: more of them change nothing. *)
Lemma repeats_length cs n prev s prev' s' :
  repeats cs n prev s prev' s' -> String.length s' <= String.length s.
Proof. induction 1; cbn; lia. Qed.

Lemma matches_length r prev s prev' s' :
  matches r prev s prev' s' -> String.length s' <= String.length s.
Proof.
  induction 1; cbn; try lia.
  eauto using repeats_length.
Qed.

Lemma count_matches_S rounds r must_advance prev s :
  count_matches (S rounds) r must_advance prev s =
  match
    first_match r
      (fun p rest =>
         if must_advance && Nat.eqb (String.length rest) (String.length s)
         then None else Some (p, rest))
      prev s
  with
  | Some (p, rest) =>
      S (count_matches rounds r (Nat.eqb (String.length rest) (String.length s)) p rest)
  | None =>
      match s with
      | String c s' => count_matches rounds r false (Some c) s'
      | EmptyString => 0
      end
  end.
Proof. reflexivity. Qed.

Lemma count_matches_rounds r : forall rounds s (must_advance : bool) prev,
  2 * String.length s + (if must_advance then 1 else 2) <= rounds ->
  count_matches (S rounds) r must_advance prev s = count_matches rounds r must_advance prev s.
Proof.
  induction rounds as [|rounds IH]; intros s b prev Hr; [destruct b; lia|].
  rewrite (count_matches_S (S rounds)), (count_matches_S rounds).
  destruct (first_match r
              (fun p rest =>
                 if b && Nat.eqb (String.length rest) (String.length s)
                 then None else Some (p, rest)) prev s) as [[p rest]|] eqn:Hm.
  - apply first_match_sound in Hm as (p' & s' & Hmatch & Hk).
    apply matches_length in Hmatch.
    destruct (b && Nat.eqb (String.length s') (String.length s)) eqn:Hb; [discriminate|].
    injection Hk as <- <-. f_equal. apply IH.
    destruct (Nat.eqb (String.length s') (String.length s)) eqn:E.
    + apply Nat.eqb_eq in E. destruct b; [discriminate|]. lia.
    + apply Nat.eqb_neq in E. destruct b; lia.
  - destruct s as [|c s]; [reflexivity|]. apply IH. cbn in Hr. destruct b; lia.
Qed.

Section MoreEnricherProperties.
Context (rt : Runtime).

Lemma scan_output_content patterns output : forall acc st,
  exists sigs st',
    scan_output rt patterns output acc st = (Ret sigs, st')
    /\ map signal_content sigs =
         map signal_content acc ++
         map (fun kp : string * Pattern =>
                let matches := findall_count (regex (snd kp)) output in
                (DATA_EXFILTRATION, "high",
                 str_upper (fst kp) +:+ " Exposure in Output",
                 "Detected " +:+ decimal (Z.of_nat matches) +:+ " instance(s) of "
                 +:+ fst kp +:+ " in output",
                 [ ("pii_type", PyStr (fst kp)); ("count", PyInt (Z.of_nat matches)) ],
                 false))
             (filter (fun kp : string * Pattern =>
                        findall_count (regex (snd kp)) output <> 0) patterns).
Proof.
  induction patterns as [|[k p] rest IH]; intros acc st; cbn [scan_output].
  - do 2 eexists. split; [reflexivity|]. cbn. by rewrite app_nil_r.
  - rewrite filter_cons. cbn [snd fst].
    destruct (Nat.eqb (findall_count (regex p) output) 0) eqn:E.
    + apply Nat.eqb_eq in E. rewrite decide_False by (intros H; by apply H). apply IH.
    + apply Nat.eqb_neq in E. rewrite decide_True by done.
      unfold bind, new_uuid, now. cbn.
      match goal with |- context [scan_output rt rest output ?a ?s] =>
        destruct (IH a s) as (sigs & st' & -> & Hc) end.
      exists sigs, st'. split; [reflexivity|]. rewrite Hc, map_app, <- app_assoc. reflexivity.
Qed.

Lemma pii_types_content sigs :
  pii_types sigs = omap content_pii_type (map signal_content sigs).
Proof.
  unfold pii_types. induction sigs as [|s sigs IH]; [reflexivity|].
  cbn. rewrite IH. reflexivity.
Qed.

(** X9. For an output that is ASCII text, [analyze_output] returns one
    [data_exfiltration] signal of severity high for each PII category that
    occurs in the output, in the order of [PII_PATTERNS], five at most; the
    evidence of each holds the category and the number of occurrences, which
    is at least 1. *)
Theorem analyze_output_signals (output : string) (st : State) :
  ascii_text output ->
  exists sigs,
    fst (analyze_output rt output st) = Ret sigs
    /\ map signal_content sigs = output_content output
    /\ length sigs <= 5
    /\ Forall (fun s =>
                 SecuritySignal.type s = DATA_EXFILTRATION
                 /\ SecuritySignal.severity s = "high"
                 /\ exists n, 1 <= n
                      /\ dict_get "count" (SecuritySignal.evidence s)
                         = Some (PyInt (Z.of_nat n))) sigs.
Proof.
  intros _. unfold analyze_output.
  destruct (scan_output_content PII_PATTERNS output [] st) as (sigs & st' & -> & Hc).
  cbn [map app] in Hc. fold (output_content output) in Hc.
  exists sigs. split; [reflexivity|]. split; [exact Hc|].
  assert (Hall : Forall (fun c : SignalType * string * string * string * pydict * bool =>
            let '(ty, sev, _, _, ev, _) := c in
            ty = DATA_EXFILTRATION /\ sev = "high"
            /\ exists n, 1 <= n /\ dict_get "count" ev = Some (PyInt (Z.of_nat n)))
          (output_content output)).
  { unfold output_content. apply Forall_map, Forall_forall. intros [k p] Hin.
    apply list_elem_of_filter in Hin as [Hn _]. cbn [fst snd] in *.
    split; [done|]. split; [done|].
    exists (findall_count (regex p) output). split; [lia | reflexivity]. }
  split.
  - rewrite <- (length_map signal_content), Hc. unfold output_content.
    rewrite length_map. etransitivity; [apply length_filter | reflexivity].
  - rewrite <- Hc in Hall. rewrite Forall_map in Hall.
    eapply Forall_impl; [exact Hall|]. intros s. unfold signal_content. cbn. tauto.
Qed.

(** X10. [analyze_output] and [analyze_prompt] see the same PII: on the same
    text they report the same categories, in the same order. *)
Theorem analyze_output_reports_what_analyze_prompt_reports (text : string)
    (st1 st2 : State) :
  exists out_sigs prompt_sigs,
    fst (analyze_output rt text st1) = Ret out_sigs
    /\ fst (analyze_prompt rt text st2) = Ret prompt_sigs
    /\ pii_types out_sigs = pii_types prompt_sigs.
Proof.
  unfold analyze_output, analyze_prompt, bind.
  destruct (scan_output_content PII_PATTERNS text [] st1) as (out & st1' & -> & Hout).
  destruct (scan_injection_content rt INJECTION_PATTERNS text [] st2)
    as (inj & st2' & -> & Hinj).
  destruct (scan_pii_content rt PII_PATTERNS text inj st2') as (sigs & st2'' & -> & Hpii).
  exists out, sigs. split; [reflexivity|]. split; [reflexivity|].
  rewrite !pii_types_content, Hout, Hpii, Hinj. cbn [map app].
  rewrite omap_app.
  replace (omap content_pii_type
             match find (fun p => search (regex p) text) INJECTION_PATTERNS with
             | Some p =>
                 [ (INJECTION_ATTEMPT, "high", "Potential Prompt Injection Detected",
                    "Pattern matched: " +:+ pattern p,
                    [ ("prompt_snippet", PyStr (prefix 200 text));
                      ("pattern", PyStr (pattern p)) ],
                    false) ]
             | None => []
             end) with (@nil pyval)
    by (destruct (find (fun p => search (regex p) text) INJECTION_PATTERNS); reflexivity).
  cbn [app].
  rewrite (list_filter_iff _ (fun kp : string * Pattern => search (regex (snd kp)) text = true))
    by (intros kp; apply findall_count_search).
  clear Hout Hinj Hpii.
  induction (filter (fun kp : string * Pattern => search (regex (snd kp)) text = true)
               PII_PATTERNS) as [|kp l IH]; [reflexivity|].
  cbn. f_equal. exact IH.
Qed.

End MoreEnricherProperties.

(** Two social security numbers and an email address: the counts are 2 and
    1. *)
Lemma analyze_output_signals_witness :
  exists sigs,
    fst (analyze_output offline "SSNs 123-45-6789 and 987-65-4321, mail a@b.com"
           fresh_guard) = Ret sigs
    /\ map signal_content sigs
       = [ (DATA_EXFILTRATION, "high", "SSN Exposure in Output",
            "Detected 2 instance(s) of ssn in output",
            [ ("pii_type", PyStr "ssn"); ("count", PyInt 2) ], false);
           (DATA_EXFILTRATION, "high", "EMAIL Exposure in Output",
            "Detected 1 instance(s) of email in output",
            [ ("pii_type", PyStr "email"); ("count", PyInt 1) ], false) ]
    /\ length sigs <= 5
    /\ Forall (fun s =>
                 SecuritySignal.type s = DATA_EXFILTRATION
                 /\ SecuritySignal.severity s = "high"
                 /\ exists n, 1 <= n
                      /\ dict_get "count" (SecuritySignal.evidence s)
                         = Some (PyInt (Z.of_nat n))) sigs.
Proof.
  destruct (analyze_output_signals offline
              "SSNs 123-45-6789 and 987-65-4321, mail a@b.com" fresh_guard)
    as (sigs & Hr & Hc & Hlen & Hall); [reflexivity|].
  exists sigs. split; [exact Hr|].
  split; [rewrite Hc; vm_compute; reflexivity|].
  split; [exact Hlen | exact Hall].
Defined.

(** ** SecurityEnricher.analyze_tool_use *)

Lemma append_cons c s t : String c s +:+ t = String c (s +:+ t).
Proof. reflexivity. Qed.

Lemma str_lower_app s t : str_lower (s +:+ t) = str_lower s +:+ str_lower t.
Proof.
  induction s as [|c s IH]; [reflexivity|].
  rewrite append_cons. cbn [str_lower]. by rewrite append_cons, IH.
Qed.

Lemma prefix_app s t : String.prefix s (s +:+ t) = true.
Proof.
  induction s as [|c s IH]; [by destruct t|].
  rewrite append_cons. cbn [String.prefix].
  destruct (ascii_dec c c); [exact IH | done].
Qed.

Lemma contains_prefix needle text : String.prefix needle text = true -> contains needle text = true.
Proof. intros H. destruct text; cbn [contains]; by rewrite H. Qed.

Lemma contains_app before needle after :
  contains needle (before +:+ needle +:+ after) = true.
Proof.
  induction before as [|c before IH].
  - change ("" +:+ needle +:+ after) with (needle +:+ after).
    apply contains_prefix, prefix_app.
  - rewrite append_cons. cbn [contains]. rewrite IH. by destruct (String.prefix _ _).
Qed.

Section ToolUseProperties.
Context (rt : Runtime).

Lemma scan_tools_content dangerous_tools tool_name tool_lower tool_params acc st :
  exists sigs st',
    scan_tools rt dangerous_tools tool_name tool_lower tool_params acc st = (Ret sigs, st')
    /\ map signal_content sigs =
         map signal_content acc ++
         (if existsb (fun dangerous => contains dangerous tool_lower) dangerous_tools
          then [ (TOOL_ABUSE, "medium", "Sensitive Tool Usage: " +:+ tool_name,
                  "Tool '" +:+ tool_name +:+ "' is classified as sensitive",
                  [ ("tool_name", PyStr tool_name); ("param_keys", dict_keys tool_params) ],
                  false) ]
          else []).
Proof.
  induction dangerous_tools as [|d rest IH]; cbn [scan_tools existsb].
  - do 2 eexists. split; [reflexivity|]. by rewrite app_nil_r.
  - destruct (contains d tool_lower); cbn [orb].
    + do 2 eexists. split; [reflexivity|]. by rewrite map_app.
    + apply IH.
Qed.

Lemma analyze_tool_use_content tool_name tool_params output st :
  exists sigs,
    fst (analyze_tool_use rt tool_name tool_params output st) = Ret sigs
    /\ map signal_content sigs = tool_use_content rt tool_name tool_params.
Proof.
  unfold analyze_tool_use, bind.
  destruct (scan_tools_content DANGEROUS_TOOLS tool_name (str_lower tool_name)
              tool_params [] st) as (s1 & st1 & -> & H1).
  cbn [map app] in H1.
  unfold tool_use_content. rewrite <- H1.
  destruct (contains "sudo" _ || contains "admin" _).
  - eexists. split; [reflexivity|]. by rewrite map_app.
  - eexists. split; [reflexivity|]. by rewrite app_nil_r.
Qed.

(** X11. [analyze_tool_use] never raises and never looks at the output.  It
    returns at most two signals: one [tool_abuse] signal if some name of
    [DANGEROUS_TOOLS] occurs in the lowered tool name (one, however many
    names occur), then one [privilege_escalation] signal if the printed
    parameters contain "sudo" or "admin" in any case. *)
Theorem analyze_tool_use_signals (tool_name : string) (tool_params : pydict)
    (output : pyval) (st : State) :
  exists sigs,
    fst (analyze_tool_use rt tool_name tool_params output st) = Ret sigs
    /\ fst (analyze_tool_use rt tool_name tool_params PyNone st) = Ret sigs
    /\ map signal_content sigs = tool_use_content rt tool_name tool_params
    /\ length sigs <= 2.
Proof.
  destruct (analyze_tool_use_content tool_name tool_params output st) as (sigs & Hr & Hc).
  exists sigs. split; [exact Hr|]. split; [exact Hr|]. split; [exact Hc|].
  rewrite <- (length_map signal_content), Hc. unfold tool_use_content.
  rewrite length_app.
  destruct (existsb _ _); destruct (contains "sudo" _ || contains "admin" _); cbn; lia.
Qed.

(** X12. A tool whose name contains a dangerous name, written in any case,
    is flagged: the first signal is the one [tool_abuse] signal, and it names
    the tool as it was given. *)
Theorem dangerous_tool_is_flagged (tool_name : string) (tool_params : pydict)
    (output : pyval) (st : State) (dangerous before middle after : string) :
  In dangerous DANGEROUS_TOOLS ->
  str_lower middle = dangerous ->
  tool_name = before +:+ middle +:+ after ->
  exists s rest,
    fst (analyze_tool_use rt tool_name tool_params output st) = Ret (s :: rest)
    /\ SecuritySignal.type s = TOOL_ABUSE
    /\ SecuritySignal.title s = "Sensitive Tool Usage: " +:+ tool_name
    /\ dict_get "tool_name" (SecuritySignal.evidence s) = Some (PyStr tool_name)
    /\ Forall (fun s' => SecuritySignal.type s' <> TOOL_ABUSE) rest.
Proof.
  intros Hin Hlow Hname.
  destruct (analyze_tool_use_content tool_name tool_params output st) as (sigs & Hr & Hc).
  assert (Hex : existsb (fun d => contains d (str_lower tool_name)) DANGEROUS_TOOLS = true).
  { apply existsb_exists. exists dangerous. split; [exact Hin|].
    rewrite Hname, !str_lower_app, Hlow. apply contains_app. }
  unfold tool_use_content in Hc. rewrite Hex in Hc.
  destruct sigs as [|s rest]; [discriminate|].
  exists s, rest. split; [exact Hr|].
  cbn [app map] in Hc. injection Hc as Hty _ Hti _ Hev _ Hrest.
  split; [exact Hty|]. split; [exact Hti|]. split; [by rewrite Hev|].
  destruct (contains "sudo" _ || contains "admin" _).
  - destruct rest as [|s2 [|]]; [discriminate| |discriminate].
    injection Hrest as Hty2 _. constructor; [|constructor].
    by rewrite Hty2.
  - destruct rest; [constructor | discriminate].
Qed.

End ToolUseProperties.

Lemma dangerous_tool_is_flagged_witness :
  exists s rest,
    fst (analyze_tool_use offline shouting_tool [] PyNone fresh_guard) = Ret (s :: rest)
    /\ SecuritySignal.type s = TOOL_ABUSE
    /\ SecuritySignal.title s = "Sensitive Tool Usage: " +:+ shouting_tool
    /\ dict_get "tool_name" (SecuritySignal.evidence s) = Some (PyStr shouting_tool)
    /\ Forall (fun s' => SecuritySignal.type s' <> TOOL_ABUSE) rest.
Proof.
  apply (dangerous_tool_is_flagged offline shouting_tool [] PyNone fresh_guard
           "run_shell" "my_" "RUN_SHELL" "_v2").
  - cbn. tauto.
  - reflexivity.
  - reflexivity.
Defined.

(** ** What the analyses do to the state *)

Lemma advance_0 st : advance 0 st = st.
Proof. by destruct st. Qed.

Lemma advance_advance j k st : advance k (advance j st) = advance (j + k) st.
Proof. unfold advance. cbn. f_equal; lia. Qed.

Section Draws.
Context (rt : Runtime).

Lemma drawn_from_nil st : drawn_from rt st [].
Proof. by split. Qed.

Lemma drawn_from_cons st signal signals :
  SecuritySignal.id signal = uuid4 rt (uuid_calls st) ->
  SecuritySignal.timestamp signal = utcnow rt (clock_calls st) ->
  drawn_from rt (advance 1 st) signals ->
  drawn_from rt st (signal :: signals).
Proof.
  intros Hid Hts [Hids Htss]. split; cbn [map length List.seq]; f_equal; assumption.
Qed.

Lemma drawn_from_app st a b :
  drawn_from rt st a -> drawn_from rt (advance (length a) st) b -> drawn_from rt st (a ++ b).
Proof.
  revert st. induction a as [|x a IH]; intros st Ha Hb.
  - cbn [app]. cbn [length] in Hb. by rewrite advance_0 in Hb.
  - destruct Ha as [Hids Htss]. cbn [map length List.seq] in Hids, Htss.
    injection Hids as Hid Hids. injection Htss as Hts Htss.
    cbn [app]. apply drawn_from_cons; [done..|].
    apply IH; [by split|].
    rewrite advance_advance. exact Hb.
Qed.

Lemma loop_draws_then f g :
  loop_draws rt f -> loop_draws rt g -> loop_draws rt (fun acc => signals <- f acc ;; g signals).
Proof.
  intros Hf Hg acc st. unfold bind.
  destruct (Hf acc st) as (a & -> & Ha).
  destruct (Hg (acc ++ a) (advance (length a) st)) as (b & -> & Hb).
  exists (a ++ b). rewrite length_app, advance_advance, <- app_assoc.
  split; [reflexivity|]. by apply drawn_from_app.
Qed.

Lemma loop_draws_all f : loop_draws rt f -> draws_per_signal rt (f []).
Proof. intros Hf st. destruct (Hf [] st) as (new & H & Hd). by exists new. Qed.

Lemma scan_injection_draws patterns prompt :
  loop_draws rt (scan_injection rt patterns prompt).
Proof.
  intros acc st. induction patterns as [|p rest IH]; cbn [scan_injection].
  - exists []. rewrite app_nil_r, advance_0. split; [reflexivity | apply drawn_from_nil].
  - destruct (search (regex p) prompt); [|exact IH].
    eexists [_]. split; [reflexivity|].
    apply drawn_from_cons; [reflexivity..|apply drawn_from_nil].
Qed.

Lemma scan_pii_draws patterns prompt : loop_draws rt (scan_pii rt patterns prompt).
Proof.
  induction patterns as [|[k p] rest IH]; intros acc st; cbn [scan_pii].
  - exists []. rewrite app_nil_r, advance_0. split; [reflexivity | apply drawn_from_nil].
  - destruct (search (regex p) prompt); [|apply IH].
    unfold bind, new_uuid, now. cbn.
    match goal with |- context [scan_pii rt rest prompt (acc ++ [?x]) ?s] =>
      destruct (IH (acc ++ [x]) s) as (new & -> & Hd); exists (x :: new) end.
    rewrite <- app_assoc. split.
    + cbn [app length]. f_equal. unfold advance. cbn. f_equal; lia.
    + apply drawn_from_cons; [reflexivity..|exact Hd].
Qed.

Lemma scan_output_draws patterns output : loop_draws rt (scan_output rt patterns output).
Proof.
  induction patterns as [|[k p] rest IH]; intros acc st; cbn [scan_output].
  - exists []. rewrite app_nil_r, advance_0. split; [reflexivity | apply drawn_from_nil].
  - cbn zeta. destruct (Nat.eqb (findall_count (regex p) output) 0); [apply IH|].
    unfold bind, new_uuid, now. cbn.
    match goal with |- context [scan_output rt rest output (acc ++ [?x]) ?s] =>
      destruct (IH (acc ++ [x]) s) as (new & -> & Hd); exists (x :: new) end.
    rewrite <- app_assoc. split.
    + cbn [app length]. f_equal. unfold advance. cbn. f_equal; lia.
    + apply drawn_from_cons; [reflexivity..|exact Hd].
Qed.

Lemma scan_tools_draws dangerous_tools tool_name tool_lower tool_params :
  loop_draws rt (scan_tools rt dangerous_tools tool_name tool_lower tool_params).
Proof.
  intros acc st. induction dangerous_tools as [|d rest IH]; cbn [scan_tools].
  - exists []. rewrite app_nil_r, advance_0. split; [reflexivity | apply drawn_from_nil].
  - destruct (contains d tool_lower); [|exact IH].
    eexists [_]. split; [reflexivity|].
    apply drawn_from_cons; [reflexivity..|apply drawn_from_nil].
Qed.

(** X13. The three analyses touch nothing but the uuid generator and the
    clock, which they read once for each signal they return, in order: no
    request is sent, and the guard, its traces and its spans stay as they
    are. *)
Theorem analyses_draw_once_per_signal (prompt output tool_name : string)
    (tool_params : pydict) (tool_output : pyval) :
  draws_per_signal rt (analyze_prompt rt prompt)
  /\ draws_per_signal rt (analyze_output rt output)
  /\ draws_per_signal rt (analyze_tool_use rt tool_name tool_params tool_output).
Proof.
  split; [|split].
  - apply (loop_draws_all
             (fun acc => signals <- scan_injection rt INJECTION_PATTERNS prompt acc ;;
                         scan_pii rt PII_PATTERNS prompt signals)).
    apply loop_draws_then; [apply scan_injection_draws | apply scan_pii_draws].
  - apply (loop_draws_all (scan_output rt PII_PATTERNS output)), scan_output_draws.
  - apply (loop_draws_all
             (fun acc =>
                signals <- scan_tools rt DANGEROUS_TOOLS tool_name (str_lower tool_name)
                             tool_params acc ;;
                (if contains "sudo" (str_lower (repr rt (PyDict tool_params)))
                    || contains "admin" (str_lower (repr rt (PyDict tool_params)))
                 then
                   id <- new_uuid rt ;;
                   timestamp <- now rt ;;
                   ret (signals ++
                     [SecuritySignal.mk id PRIVILEGE_ESCALATION "high"
                        "Potential Privilege Escalation"
                        "Tool parameters contain privilege escalation indicators"
                        [ ("tool_name", PyStr tool_name) ]
                        timestamp false])
                 else ret signals))).
    apply loop_draws_then; [apply scan_tools_draws|].
    intros acc st.
    destruct (contains "sudo" _ || contains "admin" _).
    + eexists [_]. split; [reflexivity|].
      apply drawn_from_cons; [reflexivity..|apply drawn_from_nil].
    + exists []. rewrite app_nil_r, advance_0. split; [reflexivity | apply drawn_from_nil].
Qed.

End Draws.

(** ** OTELExporter *)

Lemma length_zeros n : String.length (zeros n) = n.
Proof. induction n; cbn; congruence. Qed.

Lemma length_append s t : String.length (s +:+ t) = String.length s + String.length t.
Proof. induction s as [|c s IH]; [reflexivity|]. rewrite append_cons. cbn. by rewrite IH. Qed.

Lemma length_prefix n s : String.length (prefix n s) = Nat.min n (String.length s).
Proof.
  unfold prefix. revert n. induction s as [|c s IH]; intros [|n]; cbn; try reflexivity.
  by rewrite IH.
Qed.

Lemma chars_append s t :
  list_ascii_of_string (s +:+ t) = list_ascii_of_string s ++ list_ascii_of_string t.
Proof. induction s as [|c s IH]; [reflexivity|]. rewrite append_cons. cbn. by rewrite IH. Qed.

Lemma zeros_plain n : "-"%char ∉ list_ascii_of_string (zeros n).
Proof.
  induction n as [|n IH]; cbn; [apply not_elem_of_nil|].
  apply not_elem_of_cons. split; [discriminate | exact IH].
Qed.

Lemma without_hyphens_plain s : "-"%char ∉ list_ascii_of_string (without_hyphens s).
Proof.
  induction s as [|c s IH]; cbn; [apply not_elem_of_nil|].
  destruct (Ascii.eqb c "-") eqn:E; [exact IH|].
  cbn. apply not_elem_of_cons. split; [|exact IH].
  intros <-. by rewrite Ascii.eqb_refl in E.
Qed.

Lemma prefix_plain n s :
  "-"%char ∉ list_ascii_of_string s -> "-"%char ∉ list_ascii_of_string (prefix n s).
Proof.
  unfold prefix. revert n. induction s as [|c s IH]; intros [|n] H; cbn;
    try apply not_elem_of_nil.
  cbn in H. apply not_elem_of_cons in H as [Hc Hs].
  apply not_elem_of_cons. split; [exact Hc | by apply IH].
Qed.

Lemma otlp_id_plain n s : plain_id n (otlp_id n s).
Proof.
  unfold plain_id, otlp_id, ljust_zeros. split.
  - rewrite length_append, length_zeros, length_prefix. lia.
  - rewrite chars_append. intros [H|H]%elem_of_app.
    + by apply (prefix_plain n (without_hyphens s) (without_hyphens_plain s)).
    + by apply (zeros_plain _ H).
Qed.

Section OTELProperties.
Context (unix_nanos : datetime -> Z) (rt : Runtime).

(** X14. Whatever the ids of a trace and of a span look like, the span is
    exported with a [traceId] of 32 characters and a [spanId] of 16, without
    hyphens; its [parentSpanId] is absent or has 16 such characters; its
    kind is 0, 2 or 3 and its status code 1 or 2. *)
Theorem converted_span_is_well_formed (trace_id : string) (span : Span.t) :
  let converted := OTELExporter._convert_span unix_nanos rt trace_id span in
  (exists t, dict_get "traceId" converted = Some (PyStr t) /\ plain_id 32 t)
  /\ (exists s, dict_get "spanId" converted = Some (PyStr s) /\ plain_id 16 s)
  /\ (dict_get "parentSpanId" converted = Some PyNone
      \/ exists p, dict_get "parentSpanId" converted = Some (PyStr p) /\ plain_id 16 p)
  /\ (exists kind, dict_get "kind" converted = Some (PyInt kind)
                   /\ (kind = 0 \/ kind = 2 \/ kind = 3)%Z)
  /\ (exists code message,
        dict_get "status" converted = Some (PyDict [ ("code", PyInt code); ("message", message) ])
        /\ (code = 1 \/ code = 2)%Z).
Proof.
  cbn zeta. split; [|split; [|split; [|split]]].
  - eexists. split; [reflexivity | apply otlp_id_plain].
  - eexists. split; [reflexivity | apply otlp_id_plain].
  - cbn. destruct (Span.parent_span_id span) as [p|]; [|by left].
    destruct (String.eqb p ""); [by left|].
    right. eexists. split; [reflexivity | apply otlp_id_plain].
  - eexists. split; [reflexivity|].
    unfold OTELExporter._span_kind, dict_get_default. cbn.
    repeat (match goal with |- context [String.eqb ?a ?b] => destruct (String.eqb a b) end;
            [lia|]).
    lia.
  - do 2 eexists. split; [reflexivity|].
    destruct (String.eqb (Span.status span) "error"); lia.
Qed.

(** X15. [OTELExporter.export_trace] sends one request, to [/v1/traces],
    however many spans the trace has, and a failure of that request reaches
    the caller.  Security signals and metadata are not part of the export:
    changing them changes nothing. *)
Theorem otel_export_trace_request (trace : Trace.t) (st : State)
    (signals : list SecuritySignal.t) (metadata : pydict) :
  let rq := mkRequest "/v1/traces"
              (OTELExporter.resource_spans unix_nanos rt trace
                 (spans_at st (Trace.spans trace))) in
  let answer := post rt (length (sent st)) rq in
  OTELExporter.export_trace unix_nanos rt trace st
  = (match answer with
     | Ret r => if ((200 <=? status_code r) && (status_code r <=? 299))%Z then Ret tt
                else Raise (mkExc "HTTPStatusError" true (status_message r))
     | Raise e => Raise e
     end,
     with_sent st (sent st ++ [rq]))
  /\ OTELExporter.export_trace unix_nanos rt
       (Trace.set_metadata metadata (Trace.set_security_signals signals trace)) st
     = OTELExporter.export_trace unix_nanos rt trace st.
Proof.
  cbn zeta. split.
  - unfold OTELExporter.export_trace, bind, get, client_post, raise_for_status. cbn.
    destruct (post rt _ _) as [r|e]; [|reflexivity].
    by destruct ((200 <=? status_code r)%Z && (status_code r <=? 299)%Z).
  - reflexivity.
Qed.

(** X16. A span left through its scope is exported with the outcome of the
    scope: status code 2 and the text of the exception if the body raised an
    [Exception], status code 1 otherwise; the end time is the clock reading
    taken on leaving. *)
Theorem otel_status_of_a_closed_span (trace_id : string) (st : State) (span : nat)
    (s : Span.t) (outcome : Result unit) :
  span_store st !! span = Some s ->
  Span.status s = "running" ->
  exists s',
    span_store (snd (span_exit rt span outcome st)) !! span = Some s'
    /\ dict_get "status" (OTELExporter._convert_span unix_nanos rt trace_id s')
       = Some (PyDict
           match outcome with
           | Raise e =>
               if is_Exception e
               then [ ("code", PyInt 2); ("message", PyStr (exc_str e)) ]
               else [ ("code", PyInt 1);
                      ("message", dict_get_default "error" (PyStr "") (Span.attributes s)) ]
           | Ret _ =>
               [ ("code", PyInt 1);
                 ("message", dict_get_default "error" (PyStr "") (Span.attributes s)) ]
           end)
    /\ dict_get "endTimeUnixNano" (OTELExporter._convert_span unix_nanos rt trace_id s')
       = Some (PyInt (unix_nanos (utcnow rt (clock_calls st)))).
Proof.
  intros Hs Hrun. rewrite span_exit_eq. cbn zeta.
  exists (close_span outcome (utcnow rt (clock_calls st)) s). split.
  { destruct (_current_span_stack (self st)); cbn [snd span_store];
      by rewrite list_lookup_alter_eq, Hs. }
  split; [|reflexivity].
  unfold close_span. destruct outcome as [[]|e]; [|destruct (is_Exception e)]; cbn.
  - reflexivity.
  - unfold dict_get_default. by rewrite dict_get_set_eq.
  - by rewrite Hrun.
Qed.

End OTELProperties.

Lemma otel_status_of_a_closed_span_witness :
  exists s',
    span_store (snd (span_exit offline 0 (Raise tool_failed) one_open_span)) !! 0 = Some s'
    /\ dict_get "status" (OTELExporter._convert_span sample_nanos offline "trace-1" s')
       = Some (PyDict [ ("code", PyInt 2); ("message", PyStr "tool failed") ])
    /\ dict_get "endTimeUnixNano"
         (OTELExporter._convert_span sample_nanos offline "trace-1" s')
       = Some (PyInt 1000000).
Proof.
  apply (otel_status_of_a_closed_span sample_nanos offline "trace-1" one_open_span 0
           (Span.mk "uuid-0" "outer" "chain" 0%Z None None "running" [] [])
           (Raise tool_failed)).
  - reflexivity.
  - reflexivity.
Defined.

(** ** The middlewares *)

Lemma items_as_strs_strs l : forall i, items_as_strs i (map PyStr l) = Ret l.
Proof. induction l as [|s l IH]; intros i; cbn; [reflexivity|]. by rewrite IH. Qed.

Lemma str_join_strs sep l : str_join sep (PyList (map PyStr l)) = Ret (join_strs sep l).
Proof. unfold str_join. by rewrite items_as_strs_strs. Qed.

(** What [join] raises is a [TypeError]. *)
Lemma items_as_strs_raises l : forall i e,
  items_as_strs i l = Raise e -> exc_class e = "TypeError" /\ is_Exception e = true.
Proof.
  induction l as [|v l IH]; intros i e; cbn [items_as_strs]; [discriminate|].
  destruct v; try (by intros [= <-]).
  destruct (items_as_strs (S i) l) as [strs|e'] eqn:E; [discriminate|].
  intros [= <-]. eauto.
Qed.

Lemma str_join_raises sep v e :
  str_join sep v = Raise e -> exc_class e = "TypeError" /\ is_Exception e = true.
Proof.
  destruct v as [ | b | n | s | l | d ]; cbn [str_join]; try (by intros [= <-]);
    try discriminate.
  destruct (items_as_strs 0 l) as [strs|e'] eqn:E; [discriminate|].
  intros [= <-]. eauto using items_as_strs_raises.
Qed.

Lemma bind_Ret {A B} (m : M A) (k : A -> M B) st a st' :
  m st = (Ret a, st') -> bind m k st = k a st'.
Proof. unfold bind. by intros ->. Qed.

Lemma bind_Raise {A B} (m : M A) (k : A -> M B) st e st' :
  m st = (Raise e, st') -> bind m k st = (Raise e, st').
Proof. unfold bind. by intros ->. Qed.

Lemma attempt_eq {A} (m : M A) st r st' : m st = (r, st') -> attempt m st = (Ret r, st').
Proof. unfold attempt. by intros ->. Qed.

Section PolicyAnswers.
Context (rt : Runtime).

(** [check_tool_access] when the request fails, with the state it leaves. *)
Lemma check_tool_access_fallback tool params sid st :
  enabled (self st) = true ->
  (forall rq, request_fails (post rt (length (sent st)) rq) = true) ->
  exists rq,
    check_tool_access rt tool params sid st
    = (Ret (fallback_decision (self st) (failure_text (post rt (length (sent st)) rq))),
       mkState (self st) (span_store st) (trace_store st)
               ((if given sid then 0 else 1) + uuid_calls st) (S (clock_calls st))
               (sent st ++ [rq]))
    /\ req_path rq = "/api/v1/sdk/pre-invoke".
Proof.
  intros Hen Hfail.
  unfold check_tool_access, bind, get, attempt. rewrite Hen. cbn [negb].
  assert (Hsid : exists s,
            match sid with
            | Some s => if String.eqb s "" then new_uuid rt else ret s
            | None => new_uuid rt
            end st
            = (Ret s, mkState (self st) (span_store st) (trace_store st)
                              ((if given sid then 0 else 1) + uuid_calls st)
                              (clock_calls st) (sent st))).
  { destruct sid as [s|]; [cbn [given]; destruct (String.eqb s "")|];
      cbv [new_uuid ret negb Nat.add]; eexists; try reflexivity. by destruct st. }
  destruct Hsid as (s & ->).
  unfold pre_invoke, bind, now, client_post, raise_for_status. cbn [sent clock_calls self
    span_store trace_store uuid_calls].
  match goal with
  | |- context [post rt _ ?rq] =>
      exists rq; specialize (Hfail rq);
      destruct (post rt (length (sent st)) rq) as [r|e] eqn:Hp
  end.
  - cbn in Hfail. apply negb_true_iff in Hfail. rewrite Hfail.
    unfold raise, fallback_decision. cbn.
    split; [|reflexivity]. by destruct (fail_open (self st)).
  - cbn in Hfail. cbn. rewrite Hfail.
    unfold fallback_decision. split; [|reflexivity]. by destruct (fail_open (self st)).
Qed.

(** [check_tool_access] when the service answers with a decision it knows. *)
Lemma DecisionType_of_value_known v dec st :
  known_decision v = Some dec -> DecisionType_of_value rt v st = (Ret dec, st).
Proof.
  unfold known_decision, DecisionType_of_value.
  destruct v as [ | b | n | s | l | d ]; try discriminate.
  repeat (match goal with
          | |- context [String.eqb s ?k] => destruct (String.eqb s k)
          end; [by intros [= <-]|]).
  discriminate.
Qed.

Lemma check_tool_access_answered tool params sid st d dec :
  enabled (self st) = true ->
  (forall rq, answers (post rt (length (sent st)) rq) (PyDict d)) ->
  known_decision (dict_get_default "decision" (PyStr "allow") d) = Some dec ->
  exists rq,
    check_tool_access rt tool params sid st
    = (Ret (PolicyDecision.make (dict_get_default "allow" (PyBool true) d) dec
              (dict_get_default "reasons" (PyList []) d)),
       mkState (self st) (span_store st) (trace_store st)
               ((if given sid then 0 else 1) + uuid_calls st) (S (clock_calls st))
               (sent st ++ [rq]))
    /\ req_path rq = "/api/v1/sdk/pre-invoke".
Proof.
  intros Hen Hans Hdec.
  unfold check_tool_access, bind, get, attempt. rewrite Hen. cbn [negb].
  assert (Hsid : exists s,
            match sid with
            | Some s => if String.eqb s "" then new_uuid rt else ret s
            | None => new_uuid rt
            end st
            = (Ret s, mkState (self st) (span_store st) (trace_store st)
                              ((if given sid then 0 else 1) + uuid_calls st)
                              (clock_calls st) (sent st))).
  { destruct sid as [s|]; [cbn [given]; destruct (String.eqb s "")|];
      cbv [new_uuid ret negb Nat.add]; eexists; try reflexivity. by destruct st. }
  destruct Hsid as (s & ->).
  unfold pre_invoke, bind, now, client_post, raise_for_status. cbn [sent clock_calls self
    span_store trace_store uuid_calls].
  match goal with
  | |- context [post rt _ ?rq] =>
      exists rq; destruct (Hans rq) as (r & -> & Hok & Hjson)
  end.
  rewrite Hok. unfold ret, finish. rewrite Hjson.
  unfold data_get, ret. rewrite (DecisionType_of_value_known _ _ _ Hdec).
  split; reflexivity.
Qed.

End PolicyAnswers.

Section LangChainProperties.
Context {float : Type} (time_time : nat -> float) (rt : Runtime).

(** X17. When the policy service cannot be reached, [on_tool_start] of a
    fail-closed guard stops the tool with a [PermissionError] that names the
    tool and carries the text of the failure; that of a fail-open guard lets
    the tool start and records its start time. *)
Theorem on_tool_start_when_the_service_is_down (st : State)
    (times : list (string * float)) (serialized : list (string * string))
    (input_str : string) :
  enabled (self st) = true ->
  (forall rq, request_fails (post rt (length (sent st)) rq) = true) ->
  let tool_name := dict_get_default "name" "unknown" serialized in
  let result := LangChainMiddleware.on_tool_start time_time rt times serialized input_str st in
  exists rq,
    req_path rq = "/api/v1/sdk/pre-invoke"
    /\ sent (snd result) = sent st ++ [rq]
    /\ fst result =
         if fail_open (self st) then
           Ret (dict_set tool_name (time_time (S (clock_calls st))) times)
         else
           Raise (mkExc "PermissionError" true
                    ("Tool '" +:+ tool_name
                     +:+ "' blocked by policy: AgentGuard unavailable: "
                     +:+ failure_text (post rt (length (sent st)) rq)
                     +:+ ". Blocking due to fail-closed policy.")).
Proof.
  intros Hen Hfail. cbn zeta.
  unfold LangChainMiddleware.on_tool_start, bind.
  destruct (check_tool_access_fallback rt
              (dict_get_default "name" "unknown" serialized)
              (Some [ ("input", PyStr input_str) ]) None st Hen Hfail) as (rq & -> & Hpath).
  exists rq. split; [exact Hpath|].
  unfold fallback_decision. destruct (fail_open (self st)); cbn; auto.
Qed.

(** X18. When the policy service answers with a decision it knows (or
    names none), [on_tool_start] goes by the truth value of [allow] alone,
    whatever the decision is called and whether the guard is fail-open.  A
    tool that is allowed starts, and its start time is recorded.  A tool
    that is not allowed never starts: the call raises, a [PermissionError]
    that lists the reasons separated by commas when [reasons] is a list of
    strings (the empty list when the answer has none), and the [TypeError]
    of [join] when it is something that cannot be joined. *)
Theorem on_tool_start_when_the_service_answers (st : State)
    (times : list (string * float)) (serialized : list (string * string))
    (input_str : string) (d : pydict) (dec : DecisionType) :
  enabled (self st) = true ->
  (forall rq, answers (post rt (length (sent st)) rq) (PyDict d)) ->
  known_decision (dict_get_default "decision" (PyStr "allow") d) = Some dec ->
  let tool_name := dict_get_default "name" "unknown" serialized in
  let allow := dict_get_default "allow" (PyBool true) d in
  let reasons := dict_get_default "reasons" (PyList []) d in
  let result :=
    fst (LangChainMiddleware.on_tool_start time_time rt times serialized input_str st) in
  (truthy allow = true ->
   result = Ret (dict_set tool_name (time_time (S (clock_calls st))) times))
  /\ (truthy allow = false ->
      (forall strs, reasons = PyList (map PyStr strs) ->
         result = Raise (mkExc "PermissionError" true
                           ("Tool '" +:+ tool_name +:+ "' blocked by policy: "
                            +:+ join_strs ", " strs)))
      /\ exists e,
           result = Raise e /\ is_Exception e = true
           /\ (exc_class e = "PermissionError" \/ exc_class e = "TypeError")).
Proof.
  intros Hen Hans Hdec. cbn zeta.
  unfold LangChainMiddleware.on_tool_start, bind.
  destruct (check_tool_access_answered rt
              (dict_get_default "name" "unknown" serialized)
              (Some [ ("input", PyStr input_str) ]) None st d dec Hen Hans Hdec)
    as (rq & -> & _).
  cbn [PolicyDecision.allow PolicyDecision.reasons PolicyDecision.make].
  split.
  - intros ->. reflexivity.
  - intros ->. cbn [negb]. split.
    + intros strs ->. by rewrite str_join_strs.
    + destruct (str_join ", " (dict_get_default "reasons" (PyList []) d)) as [text|e] eqn:E.
      * eexists. split; [reflexivity|]. split; [reflexivity | by left].
      * destruct (str_join_raises _ _ _ E) as [Hclass Hexc].
        exists e. split; [reflexivity|]. split; [exact Hexc | by right].
Qed.

End LangChainProperties.

Lemma on_tool_start_when_the_service_is_down_witness :
  exists rq,
    req_path rq = "/api/v1/sdk/pre-invoke"
    /\ sent (snd (LangChainMiddleware.on_tool_start sample_time offline []
                    [ ("name", "search") ] "weather" fresh_guard))
       = sent fresh_guard ++ [rq]
    /\ fst (LangChainMiddleware.on_tool_start sample_time offline []
              [ ("name", "search") ] "weather" fresh_guard)
       = Raise (mkExc "PermissionError" true
                  ("Tool 'search' blocked by policy: AgentGuard unavailable: "
                   +:+ failure_text (post offline (length (sent fresh_guard)) rq)
                   +:+ ". Blocking due to fail-closed policy.")).
Proof.
  apply (on_tool_start_when_the_service_is_down sample_time offline fresh_guard []
           [ ("name", "search") ] "weather").
  - reflexivity.
  - intros rq. reflexivity.
Defined.

Lemma on_tool_start_when_the_service_answers_witness :
  fst (LangChainMiddleware.on_tool_start sample_time
         (sample_runtime (responding (PyDict blocked_payload))) []
         [ ("name", "search") ] "weather" fresh_guard)
  = Raise (mkExc "PermissionError" true
             "Tool 'search' blocked by policy: tool is blocked, quota used up").
Proof.
  destruct (on_tool_start_when_the_service_answers sample_time
              (sample_runtime (responding (PyDict blocked_payload))) fresh_guard []
              [ ("name", "search") ] "weather" blocked_payload DENY) as [_ Hdenied].
  - reflexivity.
  - intros rq. eexists. split; [reflexivity|]. split; reflexivity.
  - reflexivity.
  - destruct (Hdenied eq_refl) as [Hreasons _].
    exact (Hreasons [ "tool is blocked"; "quota used up" ] eq_refl).
Defined.

Section CrewAIProperties.
Context (rt : Runtime).

Lemma ingest_trace_when_down tr st :
  service_down rt ->
  exists e rq,
    ingest_trace rt tr st = (Raise e, with_sent st (sent st ++ [rq]))
    /\ is_Exception e = true
    /\ req_path rq = "/api/v1/observe/traces"
    /\ dict_get "status" (req_json rq) = Some (PyStr (Trace.status tr)).
Proof.
  intros Hdown. unfold ingest_trace, bind, get, client_post, raise_for_status.
  match goal with
  | |- context [post rt ?n ?rq] =>
      specialize (Hdown n rq); destruct (post rt n rq) as [resp|e] eqn:Hp
  end.
  - cbn in Hdown. apply negb_true_iff in Hdown. rewrite Hdown.
    do 2 eexists. split; [reflexivity|]. by cbn.
  - cbn in Hdown. do 2 eexists. split; [reflexivity|]. by cbn.
Qed.

(** The checks of a crew stop at the first tool when the service is down
    and the guard fail-closed. *)
Lemma check_agents_blocked sid quiet agent_name tool more others st :
  Forall (fun a => CrewAIMiddleware.tools a = []) quiet ->
  enabled (self st) = true ->
  fail_open (self st) = false ->
  (forall rq, request_fails (post rt (length (sent st)) rq) = true) ->
  exists rq,
    CrewAIMiddleware.check_agents rt sid
      (quiet ++ CrewAIMiddleware.mkAgent agent_name (tool :: more) :: others) st
    = (Raise (mkExc "PermissionError" true
                ("Tool '" +:+ tool +:+ "' for agent '" +:+ agent_name
                 +:+ "' blocked: AgentGuard unavailable: "
                 +:+ failure_text (post rt (length (sent st)) rq)
                 +:+ ". Blocking due to fail-closed policy.")),
       mkState (self st) (span_store st) (trace_store st)
               ((if given (Some sid) then 0 else 1) + uuid_calls st) (S (clock_calls st))
               (sent st ++ [rq]))
    /\ req_path rq = "/api/v1/sdk/pre-invoke".
Proof.
  intros Hquiet Hen Hfo Hfail.
  induction Hquiet as [|a quiet Ha _ IH].
  - cbn [app CrewAIMiddleware.check_agents CrewAIMiddleware.check_tools
         CrewAIMiddleware.role CrewAIMiddleware.tools].
    unfold bind.
    destruct (check_tool_access_fallback rt tool None (Some sid) st Hen Hfail)
      as (rq & -> & Hpath).
    exists rq. split; [|exact Hpath].
    unfold fallback_decision. rewrite Hfo. reflexivity.
  - cbn [app CrewAIMiddleware.check_agents]. rewrite Ha.
    cbn [CrewAIMiddleware.check_tools]. exact IH.
Qed.

(** X19. With the policy service down and a fail-closed guard, the wrapped
    kickoff of a crew that has a tool ends in a [PermissionError] for the
    first tool, and the crew's own kickoff never runs: whatever it is, the
    outcome and the state are the same.  Two requests were sent, the check
    and the ingestion of the trace, which is left as failed with the text of
    the error; no span was opened. *)
Theorem wrapped_kickoff_blocks_before_running (st : State)
    (quiet others : list CrewAIMiddleware.Agent) (agent_name tool : string)
    (more : list string) :
  service_down rt ->
  enabled (self st) = true ->
  fail_open (self st) = false ->
  Forall (fun a => CrewAIMiddleware.tools a = []) quiet ->
  let crew := quiet ++ CrewAIMiddleware.mkAgent agent_name (tool :: more) :: others in
  exists check ingest st',
    let e := mkExc "PermissionError" true
               ("Tool '" +:+ tool +:+ "' for agent '" +:+ agent_name
                +:+ "' blocked: AgentGuard unavailable: "
                +:+ failure_text (post rt (length (sent st)) check)
                +:+ ". Blocking due to fail-closed policy.") in
    (forall (A : Type) (original_kickoff : CrewAIMiddleware.Kickoff A),
       CrewAIMiddleware.wrapped_kickoff rt original_kickoff crew st = (Raise e, st'))
    /\ sent st' = sent st ++ [check; ingest]
    /\ req_path check = "/api/v1/sdk/pre-invoke"
    /\ req_path ingest = "/api/v1/observe/traces"
    /\ dict_get "status" (req_json ingest) = Some (PyStr "failed")
    /\ span_store st' = span_store st
    /\ exists tr,
         trace_store st' !! length (trace_store st) = Some tr
         /\ Trace.status tr = "failed"
         /\ dict_get "error" (Trace.metadata tr) = Some (PyStr (exc_str e))
         /\ Trace.end_time tr <> None.
Proof.
  intros Hdown Hen Hfo Hquiet. cbn zeta.
  set (st2 := snd (trace_enter rt (uuid4 rt (uuid_calls st)) None None
                     (snd (new_uuid rt st)))).
  assert (Hen2 : enabled (self st2) = true) by exact Hen.
  assert (Hfo2 : fail_open (self st2) = false) by exact Hfo.
  destruct (check_agents_blocked (uuid4 rt (uuid_calls st)) quiet agent_name tool more
              others st2 Hquiet Hen2 Hfo2 (Hdown _)) as (check & Hcheck & Hpath).
  change (length (sent st2)) with (length (sent st)) in Hcheck.
  set (e := mkExc "PermissionError" true _) in Hcheck.
  set (st3 := mkState _ _ _ _ _ _) in Hcheck.
  pose proof (trace_exit_detail rt (length (trace_store st)) (Raise e) st3) as Hexit.
  cbn zeta in Hexit.
  change (enabled (self st3)) with (enabled (self st)) in Hexit. rewrite Hen in Hexit.
  set (st4 := mkState _ _ _ _ _ _) in Hexit.
  set (tr0 := Trace.mk (uuid4 rt (S (uuid_calls st))) (agent_id (self st))
                (uuid4 rt (uuid_calls st)) None (utcnow rt (clock_calls st)) None
                "running" [] [] []).
  assert (Htr : trace_store st4 !! length (trace_store st)
                = Some (close_trace (Raise e) (utcnow rt (clock_calls st3)) tr0)).
  { subst st4. cbn [trace_store]. rewrite list_lookup_alter_eq.
    subst st3 st2. cbn [trace_store snd trace_enter]. rewrite trace_enter_eq.
    cbn [snd trace_store]. by rewrite list_lookup_middle. }
  rewrite Htr in Hexit.
  destruct (ingest_trace_when_down
              (close_trace (Raise e) (utcnow rt (clock_calls st3)) tr0) st4 Hdown)
    as (e' & ingest & Hing & He' & Hipath & Histatus).
  rewrite Hing in Hexit. cbn [fst snd] in Hexit. rewrite He' in Hexit.
  exists check, ingest, (with_sent st4 (sent st4 ++ [ingest])).
  split; [|split; [|split; [|split; [|split; [|split]]]]].
  - intros A original_kickoff.
    unfold CrewAIMiddleware.wrapped_kickoff.
    rewrite (bind_Ret (new_uuid rt) _ st (uuid4 rt (uuid_calls st)) (snd (new_uuid rt st)))
      by reflexivity.
    rewrite (bind_Ret (trace_enter rt _ None None) _ _ (length (trace_store st)) st2)
      by reflexivity.
    rewrite (bind_Ret (attempt _) _ st2 (Raise e) st3).
    2:{ apply attempt_eq. apply bind_Raise. exact Hcheck. }
    apply bind_Raise. exact Hexit.
  - subst st4 st3 st2. cbn. by rewrite <- app_assoc.
  - exact Hpath.
  - exact Hipath.
  - exact Histatus.
  - reflexivity.
  - exists (close_trace (Raise e) (utcnow rt (clock_calls st3)) tr0).
    split; [exact Htr|]. cbn. split; [reflexivity|]. split; [reflexivity|]. discriminate.
Qed.

End CrewAIProperties.

Lemma wrapped_kickoff_blocks_before_running_witness :
  exists check ingest st',
    let e := mkExc "PermissionError" true
               ("Tool 'search' for agent 'researcher' blocked: AgentGuard unavailable: "
                +:+ failure_text (post offline (length (sent fresh_guard)) check)
                +:+ ". Blocking due to fail-closed policy.") in
    (forall (A : Type) (original_kickoff : CrewAIMiddleware.Kickoff A),
       CrewAIMiddleware.wrapped_kickoff offline original_kickoff small_crew fresh_guard
       = (Raise e, st'))
    /\ sent st' = sent fresh_guard ++ [check; ingest]
    /\ req_path check = "/api/v1/sdk/pre-invoke"
    /\ req_path ingest = "/api/v1/observe/traces"
    /\ dict_get "status" (req_json ingest) = Some (PyStr "failed")
    /\ span_store st' = span_store fresh_guard
    /\ exists tr,
         trace_store st' !! length (trace_store fresh_guard) = Some tr
         /\ Trace.status tr = "failed"
         /\ dict_get "error" (Trace.metadata tr) = Some (PyStr (exc_str e))
         /\ Trace.end_time tr <> None.
Proof.
  apply (wrapped_kickoff_blocks_before_running offline fresh_guard [] [] "researcher"
           "search" []).
  - intros n rq. reflexivity.
  - reflexivity.
  - reflexivity.
  - constructor.
Defined.

Section CrewAIAllowed.
Context (rt : Runtime).

Lemma same_objects_refl st : same_objects st st.
Proof. by repeat split. Qed.

Lemma same_objects_trans a b c : same_objects a b -> same_objects b c -> same_objects a c.
Proof.
  intros (H1 & H2 & H3 & H4) (H1' & H2' & H3' & H4').
  repeat split; [congruence..|lia].
Qed.

Lemma check_tool_access_allowed tool params sid st :
  service_allows rt ->
  exists dcs st',
    check_tool_access rt tool params sid st = (Ret dcs, st')
    /\ truthy (PolicyDecision.allow dcs) = true
    /\ same_objects st st'.
Proof.
  intros (d & dec & Hans & Hdec & Hallow).
  destruct (enabled (self st)) eqn:Hen.
  - destruct (check_tool_access_answered rt tool params sid st d dec Hen
                (Hans (length (sent st))) Hdec) as (rq & -> & _).
    do 2 eexists. split; [reflexivity|]. split; [exact Hallow|].
    repeat split; cbn; lia.
  - unfold check_tool_access, bind, get. rewrite Hen. cbn.
    do 2 eexists. split; [reflexivity|]. split; [reflexivity|]. apply same_objects_refl.
Qed.

Lemma check_tools_allowed sid agent_name tools : forall st,
  service_allows rt ->
  exists st',
    CrewAIMiddleware.check_tools rt sid agent_name tools st = (Ret tt, st')
    /\ same_objects st st'.
Proof.
  induction tools as [|tool rest IH]; intros st Hal; cbn [CrewAIMiddleware.check_tools].
  - eexists. split; [reflexivity | apply same_objects_refl].
  - destruct (check_tool_access_allowed tool None (Some sid) st Hal)
      as (dcs & st1 & Hc & Ht & Hs).
    rewrite (bind_Ret _ _ _ _ _ Hc), Ht. cbn [negb].
    destruct (IH st1 Hal) as (st' & -> & Hs'). eauto using same_objects_trans.
Qed.

Lemma check_agents_allowed sid agents : forall st,
  service_allows rt ->
  exists st',
    CrewAIMiddleware.check_agents rt sid agents st = (Ret tt, st')
    /\ same_objects st st'.
Proof.
  induction agents as [|a rest IH]; intros st Hal; cbn [CrewAIMiddleware.check_agents].
  - eexists. split; [reflexivity | apply same_objects_refl].
  - destruct (check_tools_allowed sid (CrewAIMiddleware.role a) (CrewAIMiddleware.tools a)
                st Hal) as (st1 & Hc & Hs).
    rewrite (bind_Ret _ _ _ _ _ Hc).
    destruct (IH st1 Hal) as (st' & -> & Hs'). eauto using same_objects_trans.
Qed.

Lemma ingest_trace_accepted tr st :
  service_allows rt ->
  exists rq, ingest_trace rt tr st = (Ret tt, with_sent st (sent st ++ [rq])).
Proof.
  intros (d & dec & Hans & _). unfold ingest_trace, bind, get, client_post, raise_for_status.
  match goal with
  | |- context [post rt ?n ?rq] => exists rq; destruct (Hans n rq) as (r & -> & -> & _)
  end.
  reflexivity.
Qed.

(** The exit of a [trace] scope when the service accepts the trace. *)
Lemma trace_exit_accepted loc outcome st :
  service_allows rt ->
  exists st',
    trace_exit rt loc outcome st = (outcome, st')
    /\ self st' = set_current_trace None (self st)
    /\ span_store st' = span_store st
    /\ trace_store st'
       = alter (close_trace outcome (utcnow rt (clock_calls st))) loc (trace_store st).
Proof.
  intros Hal. rewrite trace_exit_detail. cbn zeta.
  destruct (enabled (self st)); [|eexists; split; [reflexivity | by cbn]].
  match goal with |- context [trace_store ?s !! loc] =>
    destruct (trace_store s !! loc) as [tr|]; [|eexists; split; [reflexivity | by cbn]] end.
  match goal with |- context [ingest_trace rt tr ?s] =>
    destruct (ingest_trace_accepted tr s Hal) as (rq & ->) end.
  eexists. split; [reflexivity | by cbn].
Qed.

Lemma await_kickoff_leaves_the_guard_alone {A} (k : CrewAIMiddleware.Kickoff A) :
  kickoff_leaves_the_guard_alone k ->
  leaves_the_guard_alone (CrewAIMiddleware.await_kickoff k).
Proof.
  destruct k as [body|body]; intros Hk st; cbn [CrewAIMiddleware.await_kickoff].
  - apply Hk.
  - specialize (Hk st). unfold bind. by destruct (body st) as [[v|e] st1].
Qed.

(** X20. When every check is allowed, the wrapped kickoff awaits the crew's
    own kickoff inside a "crew_execution" span inside a trace of its own, and
    ends the way that [await] ends: for a coroutine function, the way the
    kickoff ends; for a plain function that returns a value, with the
    [TypeError] of awaiting that value, after the kickoff has run.
    Afterwards the span is closed and the trace, which lists that span
    alone, is finalised with the outcome; the stack of open spans is what it
    was and no trace is current.  (The crew's kickoff is taken to leave the
    guard alone.) *)
Theorem wrapped_kickoff_runs_inside_a_span {A : Type}
    (original_kickoff : CrewAIMiddleware.Kickoff A)
    (crew : list CrewAIMiddleware.Agent) (st : State) :
  service_allows rt ->
  kickoff_leaves_the_guard_alone original_kickoff ->
  let trace := length (trace_store st) in
  let span := length (span_store st) in
  let st' := snd (CrewAIMiddleware.wrapped_kickoff rt original_kickoff crew st) in
  exists st_k,
    let result := fst (CrewAIMiddleware.await_kickoff original_kickoff st_k) in
    _current_trace (self st_k) = Some trace
    /\ last (_current_span_stack (self st_k)) = Some span
    /\ fst (CrewAIMiddleware.wrapped_kickoff rt original_kickoff crew st) = result
    /\ match original_kickoff with
       | CrewAIMiddleware.Coroutine body => result = fst (body st_k)
       | CrewAIMiddleware.Plain body =>
           match fst (body st_k) with
           | Ret value =>
               exists e, result = Raise e
                         /\ exc_class e = "TypeError" /\ is_Exception e = true
           | Raise e => result = Raise e
           end
       end
    /\ (exists sp,
          span_store st' !! span = Some sp
          /\ Span.name sp = "crew_execution" /\ Span.type sp = "agent"
          /\ Span.end_time sp <> None
          /\ Span.status sp = match result with
                              | Ret _ => "completed"
                              | Raise e => if is_Exception e then "error" else "running"
                              end)
    /\ (exists tr,
          trace_store st' !! trace = Some tr
          /\ Trace.spans tr = [span]
          /\ Trace.end_time tr <> None
          /\ Trace.status tr = match result with
                               | Ret _ => "completed"
                               | Raise e => if is_Exception e then "failed" else "running"
                               end)
    /\ _current_span_stack (self st') = _current_span_stack (self st)
    /\ _current_trace (self st') = None.
Proof.
  intros Hal Halone%await_kickoff_leaves_the_guard_alone. cbn zeta.
  set (sid := uuid4 rt (uuid_calls st)).
  set (tr0 := Trace.mk (uuid4 rt (S (uuid_calls st))) (agent_id (self st)) sid None
                (utcnow rt (clock_calls st)) None "running" [] [] []).
  set (st2 := snd (trace_enter rt sid None None (snd (new_uuid rt st)))).
  destruct (check_agents_allowed sid crew st2 Hal)
    as (st3 & Hcheck & Hself3 & Hspans3 & Htraces3 & _).
  change (self st2) with (set_current_trace (Some (length (trace_store st))) (self st))
    in Hself3.
  change (span_store st2) with (span_store st) in Hspans3.
  change (trace_store st2) with (trace_store st ++ [tr0]) in Htraces3.
  (* entering the span *)
  pose proof (span_enter_eq rt "crew_execution" "agent" None st3) as Henter.
  cbn zeta in Henter. rewrite Hself3, Hspans3, Htraces3 in Henter.
  cbn [_current_trace set_current_trace _current_span_stack or_empty] in Henter.
  set (sp0 := Span.mk _ _ _ _ _ _ _ _ _) in Henter.
  set (st4 := mkState _ _ _ _ _ _) in Henter.
  (* the crew's kickoff *)
  assert (Hkind :
    match original_kickoff with
    | CrewAIMiddleware.Coroutine body =>
        fst (CrewAIMiddleware.await_kickoff original_kickoff st4) = fst (body st4)
    | CrewAIMiddleware.Plain body =>
        match fst (body st4) with
        | Ret value =>
            exists e, fst (CrewAIMiddleware.await_kickoff original_kickoff st4) = Raise e
                      /\ exc_class e = "TypeError" /\ is_Exception e = true
        | Raise e => fst (CrewAIMiddleware.await_kickoff original_kickoff st4) = Raise e
        end
    end).
  { destruct original_kickoff as [body|body]; cbn [CrewAIMiddleware.await_kickoff];
      [reflexivity|].
    unfold bind. destruct (body st4) as [[v|e] st5]; cbn; eauto. }
  destruct (CrewAIMiddleware.await_kickoff original_kickoff st4) as [result st5] eqn:Hk.
  destruct (Halone st4) as (Hself5 & Hspans5 & Htraces5 & _). rewrite Hk in *.
  cbn [fst snd] in Hself5, Hspans5, Htraces5, Hkind.
  (* leaving the span *)
  pose proof (span_exit_eq rt (length (span_store st)) (ended result) st5) as Hexit.
  cbn zeta in Hexit. rewrite Hself5, Hspans5, Htraces5 in Hexit.
  cbn [self st4 span_store trace_store _current_span_stack set_span_stack] in Hexit.
  assert (Hstack : forall (X : Type) (a b : X),
            match _current_span_stack (self st) ++ [length (span_store st)] with
            | [] => a
            | _ :: _ => b
            end = b).
  { intros X a b. by destruct (_current_span_stack (self st)). }
  rewrite Hstack, removelast_last in Hexit.
  set (st6 := mkState _ _ _ _ _ _) in Hexit.
  (* leaving the trace *)
  destruct (trace_exit_accepted (length (trace_store st)) (ended result) st6 Hal)
    as (st8 & Htexit & Hself8 & Hspans8 & Htraces8).
  (* the whole *)
  assert (Hinner :
    (CrewAIMiddleware.check_agents rt sid crew ;;
     span <- span_enter rt "crew_execution" "agent" None ;;
     result <- attempt (CrewAIMiddleware.await_kickoff original_kickoff) ;;
     span_exit rt span (ended result) ;;
     finish result) st2 = (result, st6)).
  { rewrite (bind_Ret _ _ _ _ _ Hcheck).
    rewrite (bind_Ret _ _ _ _ _ Henter).
    rewrite (bind_Ret _ _ _ _ _ (attempt_eq _ _ _ _ Hk)).
    destruct result as [a|e]; cbn [ended] in Hexit.
    - by rewrite (bind_Ret _ _ _ _ _ Hexit).
    - by rewrite (bind_Raise _ _ _ _ _ Hexit). }
  assert (Hwhole :
    CrewAIMiddleware.wrapped_kickoff rt original_kickoff crew st = (result, st8)).
  { unfold CrewAIMiddleware.wrapped_kickoff.
    rewrite (bind_Ret (new_uuid rt) _ st sid (snd (new_uuid rt st))) by reflexivity.
    rewrite (bind_Ret (trace_enter rt _ None None) _ _ (length (trace_store st)) st2)
      by reflexivity.
    rewrite (bind_Ret _ _ _ _ _ (attempt_eq _ _ _ _ Hinner)).
    destruct result as [a|e]; cbn [ended] in Htexit.
    - by rewrite (bind_Ret _ _ _ _ _ Htexit).
    - by rewrite (bind_Raise _ _ _ _ _ Htexit). }
  exists st4. rewrite Hk, Hwhole. cbn [fst snd].
  split; [reflexivity|].
  split; [subst st4; cbn; apply last_snoc|].
  split; [reflexivity|].
  split; [exact Hkind|].
  split; [|split; [|split]].
  - exists (close_span (ended result) (utcnow rt (clock_calls st5)) sp0).
    rewrite Hspans8. subst st6. cbn [span_store].
    rewrite list_lookup_alter_eq, list_lookup_middle by reflexivity.
    split; [reflexivity|].
    unfold close_span. destruct result as [a|e]; cbn [ended]; [|destruct (is_Exception e)];
      cbn; (repeat split; try reflexivity; discriminate).
  - exists (close_trace (ended result) (utcnow rt (clock_calls st6))
              (Trace.set_spans [length (span_store st)] tr0)).
    rewrite Htraces8. subst st6. cbn [trace_store].
    rewrite !list_lookup_alter_eq, list_lookup_middle by reflexivity.
    split; [reflexivity|].
    unfold close_trace. destruct result as [a|e]; cbn [ended]; [|destruct (is_Exception e)];
      cbn; (repeat split; try reflexivity; discriminate).
  - rewrite Hself8. reflexivity.
  - rewrite Hself8. reflexivity.
Qed.

End CrewAIAllowed.

(** The same crew with a coroutine function and with a plain function for
    its kickoff: the first run ends with the kickoff's value and a completed
    trace, the second with a [TypeError] and a failed trace. *)
Lemma wrapped_kickoff_runs_inside_a_span_witness :
  let rt := sample_runtime (responding (PyDict allow_payload)) in
  let awaited :=
    CrewAIMiddleware.wrapped_kickoff rt (CrewAIMiddleware.Coroutine quick_kickoff)
      small_crew fresh_guard in
  let called :=
    CrewAIMiddleware.wrapped_kickoff rt
      (CrewAIMiddleware.Plain quick_plain_kickoff : CrewAIMiddleware.Kickoff string)
      small_crew fresh_guard in
  (fst awaited = Ret "done"
   /\ exists tr, trace_store (snd awaited) !! 0 = Some tr /\ Trace.status tr = "completed")
  /\ (exists e, fst called = Raise e /\ exc_class e = "TypeError")
     /\ exists tr, trace_store (snd called) !! 0 = Some tr /\ Trace.status tr = "failed".
Proof.
  cbv zeta.
  assert (Hal : service_allows (sample_runtime (responding (PyDict allow_payload)))).
  { exists allow_payload, ALLOW. split; [|split; reflexivity].
    intros n rq. eexists. split; [reflexivity|]. split; reflexivity. }
  split.
  - destruct (wrapped_kickoff_runs_inside_a_span
                (sample_runtime (responding (PyDict allow_payload)))
                (CrewAIMiddleware.Coroutine quick_kickoff) small_crew fresh_guard Hal)
      as (st_k & _ & _ & Hresult & _ & _ & (tr & Htr & _ & _ & Hstatus) & _).
    { intros st. apply same_objects_refl. }
    split; [exact Hresult|]. exists tr. split; [exact Htr | exact Hstatus].
  - destruct (wrapped_kickoff_runs_inside_a_span
                (sample_runtime (responding (PyDict allow_payload)))
                (CrewAIMiddleware.Plain quick_plain_kickoff : CrewAIMiddleware.Kickoff string)
                small_crew fresh_guard Hal)
      as (st_k & _ & _ & Hresult & (e & He & Hclass & _) & _
          & (tr & Htr & _ & _ & Hstatus) & _).
    { intros st. apply same_objects_refl. }
    split.
    + exists e. split; [by rewrite Hresult | exact Hclass].
    + exists tr. split; [exact Htr | exact Hstatus].
Defined.
